(** * MediaStack CLI: deployment orchestrator, provisioner and runtime facade

  A shallow embedding of the Go sources of the [mediastack] command line
  tool (packages [config], [stack], [docker] and the [deploy] command) and
  the properties of its design specification that can be settled on it.

  Conventions of the embedding
  - a Go [string] is a [string] of bytes; [strings.Index] returning [-1]
    is [None];
  - a Go [error] is [option string] ([None] is [nil]); [fmt.Errorf] with
    [%w] prepends its text to the wrapped error's text;
  - a Go [map[string]string] is a [gmap string string];
  - calls that leave the process (the filesystem, the [docker] binary, the
    Docker Engine API) go through an interface whose implementation is
    arbitrary; each such call is recorded in a trace. *)

From stdpp Require Import base option list strings gmap pretty.
From Stdlib Require Import Ascii String ZArith Lia.

(** ** Byte strings as the Go standard library sees them *)

Module GoStrings.

(** [len(s)] *)
Abbreviation len := String.length.

(** [strings.HasPrefix(s, prefix)] *)
Fixpoint HasPrefix (s prefix : string) {struct prefix} : bool :=
  match prefix, s with
  | EmptyString, _ => true
  | String _ _, EmptyString => false
  | String p prefix', String c s' =>
      if Ascii.eqb c p then HasPrefix s' prefix' else false
  end.

(** [strings.Index(s, substr)]: byte offset of the first occurrence,
    [None] for Go's [-1]. *)
Fixpoint Index (s substr : string) {struct s} : option nat :=
  if HasPrefix s substr then Some 0
  else match s with
       | EmptyString => None
       | String _ s' => S <$> Index s' substr
       end.

(** [strings.Contains(s, substr)] *)
Definition Contains (s substr : string) : bool :=
  match Index s substr with Some _ => true | None => false end.

(** [s[n:]]; the callers below only use offsets within [len(s)]. *)
Fixpoint from (n : nat) (s : string) : string :=
  match n, s with
  | 0, _ => s
  | S _, EmptyString => EmptyString
  | S n', String _ s' => from n' s'
  end.

(** [s[:n]] *)
Fixpoint upto (n : nat) (s : string) : string :=
  match n, s with
  | 0, _ => EmptyString
  | S _, EmptyString => EmptyString
  | S n', String c s' => String c (upto n' s')
  end.

(** [s[i:j]] *)
Definition slice (i j : nat) (s : string) : string := upto (j - i) (from i s).

(** [strings.TrimPrefix(s, prefix)] *)
Definition TrimPrefix (s prefix : string) : string :=
  if HasPrefix s prefix then from (len prefix) s else s.

(** The byte [c] occurs in [s]. *)
Fixpoint has_byte (c : ascii) (s : string) : bool :=
  match s with
  | EmptyString => false
  | String d s' => if Ascii.eqb d c then true else has_byte c s'
  end.

(** [strings.TrimSpace(s)] on ASCII text: the white space of Go's
    [unicode.IsSpace] below U+0080 is tab, line feed, vertical tab, form
    feed, carriage return and space. *)
Definition is_space (c : ascii) : bool :=
  match c with
  | "009" | "010" | "011" | "012" | "013" | " " => true
  | _ => false
  end%char.

Fixpoint trim_left (s : string) : string :=
  match s with
  | EmptyString => EmptyString
  | String c s' => if is_space c then trim_left s' else s
  end.

Fixpoint trim_right (s : string) : string :=
  match s with
  | EmptyString => EmptyString
  | String c s' =>
      match trim_right s' with
      | EmptyString => if is_space c then EmptyString else String c EmptyString
      | t => String c t
      end
  end.

Definition TrimSpace (s : string) : string := trim_right (trim_left s).

(** [s[i]], for [i < len(s)] *)
Definition at_ (i : nat) (s : string) : option ascii := String.get i s.

(** [strconv.Atoi]: an optional sign, then one or more decimal digits, the
    value within the range of a 64-bit [int].  The error text quotes the
    input as [strconv.Quote] does for printable text without quotes. *)
Definition quote (s : string) : string :=
  String "034" (s +:+ String "034" EmptyString).

Definition atoi_error (s reason : string) : string :=
  "strconv.Atoi: parsing " +:+ quote s +:+ ": " +:+ reason.

Fixpoint digits_value (acc : Z) (s : string) : option Z :=
  match s with
  | EmptyString => Some acc
  | String c s' =>
      match Ascii.is_nat c with
      | Some d => digits_value (10 * acc + Z.of_nat d) s'
      | None => None
      end
  end.

Definition Atoi (s : string) : Z + string :=
  let '(neg, body) :=
    match s with
    | String "-" s' => (true, s')
    | String "+" s' => (false, s')
    | _ => (false, s)
    end in
  match body with
  | EmptyString => inr (atoi_error s "invalid syntax")
  | _ =>
      match digits_value 0 body with
      | Some v =>
          let v := if neg : bool then (- v)%Z else v in
          if decide (- 2 ^ 63 <= v < 2 ^ 63)%Z then inl v
          else inr (atoi_error s "value out of range")
      | None => inr (atoi_error s "invalid syntax")
      end
  end.

End GoStrings.

(** Functions of [path/filepath] the sources call.  Their results depend on
    the platform's separator and cleaning rules, so they are an interface. *)
Record FilePath := {
  Join : string -> string -> string;
  Join3 : string -> string -> string -> string;
  Dir : string -> string;
  Base : string -> string;
  Ext : string -> string;
}.

(** Go's [error] values, by their text. *)
Abbreviation error := (option string).

(** [fmt.Errorf(prefix + ": %w", err)] *)
Definition wrap (prefix err : string) : string := prefix +:+ ": " +:+ err.

(** A value or an error, for Go's [(T, error)] results. *)
Inductive result (A : Type) : Type :=
| Ok (a : A)
| Err (e : string).
Global Arguments Ok {A} a.
Global Arguments Err {A} e.

(** ** Package [config]: the environment-file parser *)

Module Config.
Import GoStrings.

(** The [if]/[else if] chain of [expandVariables] that computes [varValue]
    from the text between [${] and [}].  [environ] is the process
    environment read by [os.LookupEnv]. *)
Definition var_value (environ env : gmap string string) (varName : string)
    : string :=
  match Index varName ":-" with
  | Some idx =>
      let defaultVal := from (idx + 2) varName in
      let varName := upto idx varName in
      match env !! varName with
      | Some val => if String.eqb val "" then defaultVal else val
      | None => defaultVal
      end
  | None =>
      match env !! varName with
      | Some val => val
      | None =>
          match environ !! varName with
          | Some val => val
          | None => ""
          end
      end
  end.

(** One pass of the [for] loop of [expandVariables]: [None] is a [break],
    [Some r] the value of [result] at the end of the iteration. *)
Definition expand_iteration (environ env : gmap string string)
    (result : string) : option string :=
  match Index result "${" with
  | None => None
  | Some start =>
      match Index (from start result) "}" with
      | None => None
      | Some end0 =>
          let end_ := end0 + start in
          let varName := slice (start + 2) end_ result in
          let varValue := var_value environ env varName in
          Some (upto start result +:+ varValue +:+ from (end_ + 1) result)
      end
  end.

(** The loop itself.  It has no bound in the source, so the embedding
    counts iterations: [None] means that [fuel] iterations did not reach
    a [break]. *)
Fixpoint expand_loop (fuel : nat) (environ env : gmap string string)
    (result : string) : option string :=
  match fuel with
  | 0 => None
  | S fuel' =>
      match expand_iteration environ env result with
      | None => Some result
      | Some result' => expand_loop fuel' environ env result'
      end
  end.

(** [expandVariables(s, env)] *)
Definition expandVariables (fuel : nat) (environ : gmap string string)
    (s : string) (env : gmap string string) : option string :=
  expand_loop fuel environ env s.

(** [trimQuotes] *)
Definition trimQuotes (s : string) : string :=
  if decide (len s < 2) then s
  else
    match at_ 0 s, at_ (len s - 1) s with
    | Some a, Some b =>
        if (Ascii.eqb a "034" && Ascii.eqb b "034")
           || (Ascii.eqb a "'" && Ascii.eqb b "'")
        then slice 1 (len s - 1) s
        else s
    | _, _ => s
    end.

(** [removeInlineComment]: the loop over [i = 1 .. len(s) - 1], [prev] being
    [s[i-1]] and [rest] being [s[i:]]. *)
Fixpoint removeInlineComment_from (s : string) (i : nat) (prev : ascii)
    (rest : string) : string :=
  match rest with
  | EmptyString => s
  | String c rest' =>
      if Ascii.eqb c "#" && (Ascii.eqb prev " " || Ascii.eqb prev "009")
      then TrimSpace (upto (i - 1) s)
      else removeInlineComment_from s (S i) c rest'
  end.

Definition removeInlineComment (s : string) : string :=
  match s with
  | EmptyString => s
  | String c rest => removeInlineComment_from s 1 c rest
  end.

(** What reading the environment file gives: [os.Open] may fail; otherwise
    the scanner yields lines and [scanner.Err()] is checked at the end. *)
Inductive env_file :=
| OpenFails (e : string)
| Lines (ls : list string) (scan_err : error).

(** The body of the scanning loop of [ParseEnvFile] for one line.  [None]
    when the expansion of the value does not finish within [fuel]. *)
Definition parse_line (fuel : nat) (environ : gmap string string)
    (env : gmap string string) (text : string) : option (gmap string string) :=
  let line := TrimSpace text in
  if String.eqb line "" || HasPrefix line "#" then Some env
  else
    match Index line "=" with
    | None => Some env
    | Some idx =>
        let key := TrimSpace (upto idx line) in
        let value := TrimSpace (from (idx + 1) line) in
        let value := trimQuotes value in
        let value := removeInlineComment value in
        value ← expandVariables fuel environ value env;
        Some (<[key := value]> env)
    end.

Fixpoint parse_lines (fuel : nat) (environ : gmap string string)
    (env : gmap string string) (ls : list string) : option (gmap string string) :=
  match ls with
  | [] => Some env
  | l :: ls' =>
      env' ← parse_line fuel environ env l;
      parse_lines fuel environ env' ls'
  end.

(** [ParseEnvFile(path)], given what the file at [path] reads as. *)
Definition ParseEnvFile (fuel : nat) (environ : gmap string string)
    (file : env_file) : option (result (gmap string string)) :=
  match file with
  | OpenFails e => Some (Err (wrap "failed to open .env file" e))
  | Lines ls scan_err =>
      env ← parse_lines fuel environ ∅ ls;
      match scan_err with
      | Some e => Some (Err (wrap "error reading .env file" e))
      | None => Some (Ok env)
      end
  end.

(** [getEnvDefault] *)
Definition getEnvDefault (env : gmap string string) (key defaultVal : string)
    : string :=
  match env !! key with
  | Some val => if String.eqb val "" then defaultVal else val
  | None => defaultVal
  end.

(** The [Config] struct *)
Record Config := {
  ConfigDir : string;
  MediaFolder : string;
  DataFolder : string;
  PUID : Z;
  PGID : Z;
  Variant : string;
  ProjectName : string;
  DockerSubnet : string;
  DockerGateway : string;
  LocalSubnet : string;
  Timezone : string;
  PostgresPassword : string;
  Env : gmap string string;
}.

(** [detectVariant]; [exists_] tells whether [os.Stat] succeeds. *)
Definition detectVariant (fp : FilePath) (exists_ : string -> bool)
    (configDir : string) : string :=
  let parentDir := Dir fp configDir in
  let variants := ["full-download-vpn"; "mini-download-vpn"; "no-download-vpn"] in
  match
    List.find (fun v => exists_ (Join3 fp parentDir v "docker-compose.yaml"))
      variants
  with
  | Some v => v
  | None => "full-download-vpn"
  end.

(** [Config.ComposeFile] *)
Definition ComposeFile (fp : FilePath) (c : Config) : string :=
  Join3 fp (Dir fp (ConfigDir c)) (Variant c) "docker-compose.yaml".

(** [NormalizeVariant] *)
Definition NormalizeVariant (v : string) : string :=
  if String.eqb v "full" then "full-download-vpn"
  else if String.eqb v "mini" then "mini-download-vpn"
  else if String.eqb v "no-vpn" then "no-download-vpn"
  else v.

(** The text of [fmt.Errorf("... %v", missing)] for a slice of strings. *)
Definition show_strings (l : list string) : string :=
  "[" +:+ String.concat " " l +:+ "]".

(** [Load(configDir)]; [file] is what [configDir/.env] reads as. *)
Definition Load (fuel : nat) (fp : FilePath) (environ : gmap string string)
    (exists_ : string -> bool) (file : env_file) (configDir : string)
    : option (result Config) :=
  r ← ParseEnvFile fuel environ file;
  match r with
  | Err e => Some (Err (wrap "failed to parse .env file" e))
  | Ok env =>
      let required := ["FOLDER_FOR_MEDIA"; "FOLDER_FOR_DATA"; "PUID"; "PGID"] in
      let missing :=
        List.filter (fun key => bool_decide (env !! key = None)) required in
      if decide (0 < List.length missing) then
        Some (Err ("missing required environment variables: "
                   +:+ show_strings missing))
      else
        let get key := default "" (env !! key) in
        match Atoi (get "PUID") with
        | inr e => Some (Err (wrap "invalid PUID value" e))
        | inl puid =>
            match Atoi (get "PGID") with
            | inr e => Some (Err (wrap "invalid PGID value" e))
            | inl pgid =>
                Some (Ok {|
                  ConfigDir := configDir;
                  MediaFolder := get "FOLDER_FOR_MEDIA";
                  DataFolder := get "FOLDER_FOR_DATA";
                  PUID := puid;
                  PGID := pgid;
                  Variant := detectVariant fp exists_ configDir;
                  ProjectName :=
                    getEnvDefault env "COMPOSE_PROJECT_NAME" "mediastack";
                  DockerSubnet :=
                    getEnvDefault env "DOCKER_SUBNET" "172.28.0.0/16";
                  DockerGateway :=
                    getEnvDefault env "DOCKER_GATEWAY" "172.28.0.1";
                  LocalSubnet :=
                    getEnvDefault env "LOCAL_SUBNET" "192.168.0.0/16";
                  Timezone := getEnvDefault env "TIMEZONE" "UTC";
                  PostgresPassword := getEnvDefault env "POSTGRESQL_PASSWORD" "";
                  Env := env;
                |})
            end
        end
  end.

(** *** The shape of a value, as the format description has it

    A value is a sequence of literal text, [${VAR}] references and
    [${VAR:-default}] references. *)
Inductive segment :=
| Lit (text : string)
| Ref (name : string)
| RefDefault (name default_ : string).

Definition render (seg : segment) : string :=
  match seg with
  | Lit text => text
  | Ref name => "${" +:+ name +:+ "}"
  | RefDefault name default_ => "${" +:+ name +:+ ":-" +:+ default_ +:+ "}"
  end.

Definition render_all (segs : list segment) : string :=
  foldr (fun seg acc => render seg +:+ acc) "" segs.

(** What one occurrence stands for, in the words of the format description:
    looked up among the already-parsed keys, else the default literal (for
    the form with a default) or the externally-set variable. *)
Definition spec_resolve (environ env : gmap string string) (seg : segment)
    : string :=
  match seg with
  | Lit text => text
  | Ref name =>
      match env !! name with
      | Some v => v
      | None => default "" (environ !! name)
      end
  | RefDefault name default_ =>
      match env !! name with
      | Some v => if String.eqb v "" then default_ else v
      | None => default_
      end
  end.

Definition spec_expand (environ env : gmap string string)
    (segs : list segment) : string :=
  foldr (fun seg acc => spec_resolve environ env seg +:+ acc) "" segs.

(** A reference is well delimited when its name has no [}] and no [:-] and
    its default has no [}]: the text between [${] and the first [}] is
    then the reference itself. *)
Definition well_delimited (seg : segment) : Prop :=
  match seg with
  | Lit _ => True
  | Ref name => has_byte "}" name = false /\ Index name ":-" = None
  | RefDefault name default_ =>
      has_byte "}" name = false /\ Index name ":-" = None
      /\ has_byte "}" default_ = false
  end.

(** The format description, read for every value: each value made of
    literal text and well-delimited references expands to the text with
    every reference resolved. *)
Definition resolves_every_value : Prop :=
  forall (environ env : gmap string string) (segs : list segment),
    Forall well_delimited segs ->
    exists fuel,
      expandVariables fuel environ (render_all segs) env
      = Some (spec_expand environ env segs).

Definition is_ref (seg : segment) : bool :=
  match seg with Lit _ => false | _ => true end.

Definition count_refs (segs : list segment) : nat :=
  List.length (List.filter is_ref segs).

End Config.

(** ** The world outside the process

    Everything the tool does to the host goes through one of the calls
    below: the [os], [io] and [path/filepath] functions that touch the
    filesystem, the [docker] binary started with [os/exec], and the Docker
    Engine API reached through the SDK client.  Terminal output and the
    settling pause are calls too, so that a trace shows them. *)

Module Runtime.

(** [container.Port] of the Engine API *)
Record Port := {
  IP : string;
  PrivatePort : Z;
  PublicPort : Z;
  Type_ : string;
}.

(** [container.Summary] of the Engine API, the fields the client reads and
    the labels the daemon filters on. *)
Record Summary := {
  sID : string;
  sNames : list string;
  sImage : string;
  sState : string;
  sStatus : string;
  sCreated : Z;
  sPorts : list Port;
  sLabels : gmap string string;
}.

(** [filters.Args]: pairs of a filter name and a value. *)
Abbreviation Args := (list (string * string)).

(** What the callers look at in the result of [os.Stat]. *)
Inductive stat_outcome :=
| StatOk
| StatNotExist
| StatError (e : string).

(** [err == nil] *)
Definition stat_ok (o : stat_outcome) : bool :=
  match o with StatOk => true | _ => false end.

(** [os.IsNotExist(err)] *)
Definition IsNotExist (o : stat_outcome) : bool :=
  match o with StatNotExist => true | _ => false end.

(** What the client reads of an inspect response, [inspect.State.Health]:
    a response without [State] ([NoState]), or the status of [Health],
    [None] for a nil [Health]. *)
Inductive inspect_state :=
| NoState
| HealthOf (status : option string).

(** One entry handed to the callback of [filepath.Walk]. *)
Record walk_entry := {
  walk_path : string;
  walk_is_dir : bool;
  walk_err : error;
}.

Inductive call : Type -> Type :=
(* os, io, path/filepath *)
| OsStat (path : string) : call stat_outcome
| OsOpen (path : string) : call error
| FilepathGlob (pattern : string) : call (result (list string))
| FilepathWalk (root : string) : call (list walk_entry)
| OsMkdirAll (path : string) (perm : N) : call error
| OsChown (path : string) (uid gid : Z) : call error
| OsChmod (path : string) (perm : N) : call error
| OsOpenFileCreateTrunc (path : string) (perm : N) : call error
| OsCreate (path : string) : call error
| IoCopy (dst src : string) : call error
(* os/exec: the docker binary; the result is the combined output and the
   error of [Run] or [CombinedOutput] *)
| ExecDocker (dir : string) (args : list string) (stream : bool)
    : call (string * error)
(* the Engine API *)
| NewClientWithOpts : call error
| ContainerList (all : bool) (filters : Args) : call (result (list Summary))
| ContainerInspectHealth (id : string) : call (result inspect_state)
| ContainerStop (id : string) (timeout : Z) : call error
| ContainerRemove (id : string) (force removeVolumes : bool) : call error
| ContainersPrune (filters : Args) : call error
| VolumesPrune (filters : Args) : call error
| NetworksPrune (filters : Args) : call error
| ImagesPrune (filters : Args) : call error
(* the terminal and the clock *)
| Print (text : string) : call unit
| Sleep (seconds : Z) : call unit.

(** The calls that can change the filesystem or the container runtime. *)
Definition mutates {A} (c : call A) : bool :=
  match c with
  | OsStat _ | OsOpen _ | FilepathGlob _ | FilepathWalk _ => false
  | NewClientWithOpts | ContainerList _ _ | ContainerInspectHealth _ => false
  | Print _ | Sleep _ => false
  | _ => true
  end.

(** The calls that reach the container runtime. *)
Definition reaches_runtime {A} (c : call A) : bool :=
  match c with
  | ExecDocker _ _ _ | NewClientWithOpts | ContainerList _ _
  | ContainerInspectHealth _ | ContainerStop _ _ | ContainerRemove _ _ _
  | ContainersPrune _ | VolumesPrune _ | NetworksPrune _ | ImagesPrune _ => true
  | _ => false
  end.

Inductive event : Type :=
| Event (A : Type) (c : call A).
Global Arguments Event {A} c.

Definition event_mutates (e : event) : bool :=
  match e with Event c => mutates c end.

Definition event_reaches_runtime (e : event) : bool :=
  match e with Event c => reaches_runtime c end.

Definition event_is_print (e : event) : bool :=
  match e with Event (Print _) => true | _ => false end.

(** The container a stop call names. *)

(** The container a stop call names. *)
Definition is_stop (e : event) : option string :=
  match e with
  | Event (ContainerStop id _) => Some id
  | _ => None
  end.

(** The filters of a prune call on containers, volumes or networks. *)
Definition is_prune (e : event) : option Args :=
  match e with
  | Event (ContainersPrune filters) | Event (VolumesPrune filters)
  | Event (NetworksPrune filters) => Some filters
  | _ => None
  end.

(** The command lines given to the [docker] binary, in order. *)
Definition docker_commands (tr : list event) : list (list string) :=
  omap (fun e =>
      match e with
      | Event (ExecDocker _ args _) => Some args
      | _ => None
      end) tr.

(** A call of [os.Chmod]. *)
Definition is_chmod (e : event) : bool :=
  match e with
  | Event (OsChmod _ _) => true
  | _ => false
  end.

(** A host: a state [W] and what each call answers and does there.  Calls
    that only read leave the state as it is. *)
Record System (W : Type) := {
  run : forall A, call A -> W -> A * W;
  run_frame : forall A (c : call A) (w : W),
    mutates c = false -> snd (run A c w) = w;
}.
Global Arguments run {W} _ {A} _ _.
Global Arguments run_frame {W} _ {A} _ _ _.

(** The state a program runs in: the host and the calls made so far. *)
Record state (W : Type) := {
  world : W;
  trace : list event;
}.
Global Arguments world {W} _.
Global Arguments trace {W} _.

Definition Prog (W A : Type) : Type := state W -> A * state W.

Global Instance Prog_ret W : MRet (Prog W) := fun A a s => (a, s).

Global Instance Prog_bind W : MBind (Prog W) :=
  fun A B f m s => let '(a, s') := m s in f a s'.

Definition perform {W A} (sys : System W) (c : call A) : Prog W A :=
  fun s =>
    let '(a, w') := run sys c (world s) in
    (a, {| world := w'; trace := trace s ++ [Event c] |}).

(** [fmt.Printf], [fmt.Println] and the [color] printers, which differ in
    colour only: one piece of terminal output, its final line feed left
    out. *)
Definition print {W} (sys : System W) (text : string) : Prog W unit :=
  perform sys (Print text).

(** [if cond { body }] for a body without result *)
Definition when {W} (cond : bool) (body : Prog W unit) : Prog W unit :=
  if cond then body else mret tt.

(** Run a program from a host state with an empty trace. *)
Definition start {W} (w : W) : state W := {| world := w; trace := [] |}.

(** [m], run from any state, gives a result in [Q], takes the host along
    [I] and adds to the trace only events in [P]. *)
Definition obeys {W A} (I : W -> W -> Prop) (P : event -> Prop)
    (Q : A -> Prop) (m : Prog W A) : Prop :=
  forall s : state W,
    Q (m s).1 /\ I (world s) (world (m s).2)
    /\ exists evs, trace (m s).2 = trace s ++ evs /\ Forall P evs.

(** An event that neither changes the host nor reaches the runtime. *)
Definition harmless (e : event) : Prop :=
  event_mutates e = false /\ event_reaches_runtime e = false.

(** No constraint on how the host changes. *)
Definition any_change {W} : W -> W -> Prop := fun _ _ => True.

(** [m] adds to the trace only events in [P]. *)
Definition emits {W A} (P : event -> Prop) (m : Prog W A) : Prop :=
  obeys any_change P (fun _ => True) m.

(** [m] changes nothing: the host stays as it is and every event is
    harmless. *)
Definition quiet {W A} (Q : A -> Prop) (m : Prog W A) : Prop :=
  obeys eq harmless Q m.

(** Octal literals, as the sources write file modes. *)
Fixpoint oct_digits (acc : N) (s : string) : N :=
  match s with
  | EmptyString => acc
  | String c s' =>
      oct_digits (8 * acc + (Ascii.N_of_ascii c - 48))%N s'
  end.

Definition oct (s : string) : N := oct_digits 0 s.

(** [%o] of [fmt] *)
Fixpoint fmt_o_go (fuel : nat) (n : N) (acc : string) : string :=
  match fuel with
  | 0 => acc
  | S fuel' =>
      let acc' := String (Ascii.ascii_of_N (48 + n mod 8)) acc in
      if (n / 8 =? 0)%N then acc' else fmt_o_go fuel' (n / 8)%N acc'
  end.

Definition fmt_o (n : N) : string := fmt_o_go (S (N.to_nat (N.log2 n))) n "".

(** [%d] of [fmt] *)
Definition fmt_d (z : Z) : string := pretty z.

End Runtime.

(** ** Package [stack]: the filesystem provisioner *)

Module Stack.
Import Runtime.

(** [DataDirectories] *)
Definition DataDirectories : list string := [
  "authentik/certs"; "authentik/media"; "authentik/templates"; "bazarr";
  "chromium"; "crowdsec/data"; "ddns-updater"; "filebot"; "gluetun";
  "grafana"; "headplane/data"; "headscale/data"; "heimdall";
  "homarr/configs"; "homarr/data"; "homarr/icons"; "homepage"; "huntarr";
  "jellyfin"; "jellyseerr"; "lidarr"; "logs/unpackerr"; "logs/traefik";
  "mylar"; "plex"; "portainer"; "postgresql"; "prometheus"; "prowlarr";
  "qbittorrent"; "radarr"; "readarr"; "sabnzbd"; "sonarr"; "tailscale";
  "tdarr/server"; "tdarr/configs"; "tdarr/logs"; "tdarr-node";
  "traefik/letsencrypt"; "traefik-certs-dumper"; "unpackerr"; "valkey";
  "whisparr" ].

(** [MediaDirectories] *)
Definition MediaDirectories : list string := [
  "media/anime"; "media/audio"; "media/books"; "media/comics";
  "media/movies"; "media/music"; "media/photos"; "media/tv"; "media/xxx";
  "usenet/anime"; "usenet/audio"; "usenet/books"; "usenet/comics";
  "usenet/complete"; "usenet/console"; "usenet/incomplete"; "usenet/movies";
  "usenet/music"; "usenet/prowlarr"; "usenet/software"; "usenet/tv";
  "usenet/xxx";
  "torrents/anime"; "torrents/audio"; "torrents/books"; "torrents/comics";
  "torrents/complete"; "torrents/console"; "torrents/incomplete";
  "torrents/movies"; "torrents/music"; "torrents/prowlarr";
  "torrents/software"; "torrents/tv"; "torrents/xxx";
  "watch"; "filebot/input"; "filebot/output" ].

(** [ConfigFile] *)
Record ConfigFile := {
  Source : string;
  Destination : string;
  Permission : N;
}.

(** [ConfigFiles] *)
Definition ConfigFiles : list ConfigFile := [
  {| Source := "headplane-config.yaml"; Destination := "headplane/config.yaml";
     Permission := oct "0664" |};
  {| Source := "headscale-config.yaml"; Destination := "headscale/config.yaml";
     Permission := oct "0664" |};
  {| Source := "traefik-static.yaml"; Destination := "traefik/traefik.yaml";
     Permission := oct "0664" |};
  {| Source := "traefik-dynamic.yaml"; Destination := "traefik/dynamic.yaml";
     Permission := oct "0664" |};
  {| Source := "traefik-internal.yaml"; Destination := "traefik/internal.yaml";
     Permission := oct "0664" |};
  {| Source := "crowdsec-acquis.yaml"; Destination := "crowdsec/acquis.yaml";
     Permission := oct "0664" |} ].

(** The element type of [SpecialFiles] *)
Record SpecialFile := {
  Path : string;
  SpecialPermission : N;
  Create : bool;
}.

(** [SpecialFiles] *)
Definition SpecialFiles : list SpecialFile := [
  {| Path := "traefik/letsencrypt/acme.json";
     SpecialPermission := oct "0600"; Create := true |} ].

Section Provisioner.
Context {W : Type} (sys : System W) (fp : FilePath).

(** A [for ... range] loop whose body either goes on to the next element
    ([None], also for [continue]) or returns an error from the enclosing
    function ([Some e]). *)
Fixpoint for_each {A} (l : list A) (body : A -> Prog W error) : Prog W error :=
  match l with
  | [] => mret None
  | x :: l' =>
      err ← body x;
      match err with
      | Some e => mret (Some e)
      | None => for_each l' body
      end
  end.

Local Abbreviation print := (Runtime.print sys).

(** A call whose failure is only reported, and only when [verbose]. *)
Definition warn_only (verbose : bool) (c : call error) (text : string)
    : Prog W unit :=
  err ← perform sys c;
  match err with
  | Some e => when verbose (print (text +:+ ": " +:+ e))
  | None => mret tt
  end.

(** [createDir] *)
Definition createDir (path : string) (uid gid : Z) (verbose dryRun : bool)
    : Prog W error :=
  if dryRun then
    when verbose (print ("  [dry-run] Would create: " +:+ path));;
    mret None
  else
    err ← perform sys (OsMkdirAll path (oct "0775"));
    match err with
    | Some e => mret (Some e)
    | None =>
        warn_only verbose (OsChown path uid gid)
          ("  Warning: Could not set ownership on " +:+ path);;
        warn_only verbose (OsChmod path (oct "02775"))
          ("  Warning: Could not set permissions on " +:+ path);;
        when verbose (print ("  Created: " +:+ path));;
        mret None
    end.

(** [CreateDirectories] *)
Definition CreateDirectories (dataFolder mediaFolder : string) (uid gid : Z)
    (verbose dryRun : bool) : Prog W error :=
  when verbose (
    print "Creating directories...";;
    print ("  Data folder: " +:+ dataFolder);;
    print ("  Media folder: " +:+ mediaFolder);;
    print ("  UID:GID: " +:+ fmt_d uid +:+ ":" +:+ fmt_d gid));;
  err ← for_each DataDirectories (fun dir =>
    let fullPath := Join fp dataFolder dir in
    err ← createDir fullPath uid gid verbose dryRun;
    mret (wrap ("failed to create data directory " +:+ dir) <$> err));
  match err with
  | Some e => mret (Some e)
  | None =>
      err ← for_each MediaDirectories (fun dir =>
        let fullPath := Join fp mediaFolder dir in
        err ← createDir fullPath uid gid verbose dryRun;
        mret (wrap ("failed to create media directory " +:+ dir) <$> err));
      match err with
      | Some e => mret (Some e)
      | None =>
          print "All directories created successfully";;
          mret None
      end
  end.

(** [SetPermissions]; the walk of [filepath.Walk] is taken as a listing
    followed by the callback on each entry. *)
Definition SetPermissions (paths : list string) (uid gid : Z)
    (verbose dryRun : bool) : Prog W error :=
  when verbose (print "Setting permissions...");;
  err ← for_each paths (fun path =>
    if dryRun then
      when verbose (print ("  [dry-run] Would set permissions on: " +:+ path));;
      mret None
    else
      entries ← perform sys (FilepathWalk path);
      err ← for_each entries (fun entry =>
        match walk_err entry with
        | Some e => mret (Some e)
        | None =>
            let p := walk_path entry in
            warn_only verbose (OsChown p uid gid)
              ("  Warning: Could not set ownership on " +:+ p);;
            let perm := if walk_is_dir entry then oct "02775" else oct "0664" in
            warn_only verbose (OsChmod p perm)
              ("  Warning: Could not set permissions on " +:+ p);;
            mret None
        end);
      mret (wrap ("failed to set permissions on " +:+ path) <$> err));
  match err with
  | Some e => mret (Some e)
  | None =>
      when verbose (print "Permissions set successfully");;
      mret None
  end.

(** [copyFile]; the deferred [Close] calls do not show in the trace. *)
Definition copyFile (src dst : string) (perm : N) : Prog W error :=
  err ← perform sys (OsOpen src);
  match err with
  | Some e => mret (Some (wrap "failed to open source" e))
  | None =>
      err ← perform sys (OsMkdirAll (Dir fp dst) (oct "0755"));
      match err with
      | Some e => mret (Some (wrap "failed to create destination directory" e))
      | None =>
          err ← perform sys (OsOpenFileCreateTrunc dst perm);
          match err with
          | Some e => mret (Some (wrap "failed to create destination" e))
          | None =>
              err ← perform sys (IoCopy dst src);
              match err with
              | Some e => mret (Some (wrap "failed to copy contents" e))
              | None => mret None
              end
          end
      end
  end.

(** The body of the first loop of [CopyConfigFiles] *)
Definition copy_config_file (configDir dataFolder : string) (uid gid : Z)
    (verbose dryRun : bool) (cf : ConfigFile) : Prog W error :=
  let src := Join fp configDir (Source cf) in
  let dst := Join fp dataFolder (Destination cf) in
  if dryRun then
    when verbose
      (print ("  [dry-run] Would copy: " +:+ Source cf +:+ " -> " +:+ dst));;
    mret None
  else
    st ← perform sys (OsStat src);
    if IsNotExist st then
      when verbose (print ("  Warning: Source file not found: " +:+ src));;
      mret None
    else
      err ← copyFile src dst (Permission cf);
      match err with
      | Some e => mret (Some (wrap ("failed to copy " +:+ Source cf) e))
      | None =>
          warn_only verbose (OsChown dst uid gid)
            ("  Warning: Could not set ownership on " +:+ dst);;
          when verbose
            (print ("  Copied: " +:+ Source cf +:+ " -> " +:+ dst));;
          mret None
      end.

(** The body of the second loop of [CopyConfigFiles] *)
Definition handle_special_file (dataFolder : string) (uid gid : Z)
    (verbose dryRun : bool) (sf : SpecialFile) : Prog W error :=
  let fullPath := Join fp dataFolder (Path sf) in
  if dryRun then
    when verbose
      (print ("  [dry-run] Would create/set permissions: " +:+ fullPath));;
    mret None
  else
    err ←
      (if Create sf then
         st ← perform sys (OsStat fullPath);
         if IsNotExist st then
           err ← perform sys (OsMkdirAll (Dir fp fullPath) (oct "0755"));
           match err with
           | Some e =>
               mret (Some (wrap ("failed to create directory for " +:+ Path sf) e))
           | None =>
               err ← perform sys (OsCreate fullPath);
               match err with
               | Some e => mret (Some (wrap ("failed to create " +:+ Path sf) e))
               | None =>
                   when verbose (print ("  Created: " +:+ fullPath));;
                   mret None
               end
           end
         else mret None
       else mret None);
    match err with
    | Some e => mret (Some e)
    | None =>
        err ← perform sys (OsChmod fullPath (SpecialPermission sf));
        match err with
        | Some e =>
            mret (Some (wrap ("failed to set permissions on " +:+ Path sf) e))
        | None =>
            warn_only verbose (OsChown fullPath uid gid)
              ("  Warning: Could not set ownership on " +:+ fullPath);;
            when verbose
              (print ("  Set permissions " +:+ fmt_o (SpecialPermission sf)
                      +:+ " on: " +:+ fullPath));;
            mret None
        end
    end.

(** [CopyConfigFiles] over a manifest and a list of special files; the
    exported function is this one at [ConfigFiles] and [SpecialFiles]. *)
Definition copy_config_files (manifest : list ConfigFile)
    (special : list SpecialFile) (configDir dataFolder : string) (uid gid : Z)
    (verbose dryRun : bool) : Prog W error :=
  when verbose (print "Copying configuration files...");;
  err ← for_each manifest
    (copy_config_file configDir dataFolder uid gid verbose dryRun);
  match err with
  | Some e => mret (Some e)
  | None =>
      err ← for_each special
        (handle_special_file dataFolder uid gid verbose dryRun);
      match err with
      | Some e => mret (Some e)
      | None =>
          print "Configuration files copied successfully";;
          mret None
      end
  end.

Definition CopyConfigFiles : string -> string -> Z -> Z -> bool -> bool
    -> Prog W error :=
  copy_config_files ConfigFiles SpecialFiles.

(** The body of the inner loop of [SetConfigPermissions] *)
Definition set_config_permission (uid gid : Z) (verbose dryRun : bool)
    (match_ : string) : Prog W error :=
  if dryRun then
    when verbose
      (print ("  [dry-run] Would set permissions on: " +:+ match_));;
    mret None
  else
    let perm :=
      if String.eqb (Ext fp match_) ".sh" then oct "0775" else oct "0664" in
    warn_only verbose (OsChmod match_ perm)
      ("  Warning: Could not set permissions on " +:+ match_);;
    warn_only verbose (OsChown match_ uid gid)
      ("  Warning: Could not set ownership on " +:+ match_);;
    when verbose
      (print ("  Set permissions " +:+ fmt_o perm +:+ " on: "
              +:+ Base fp match_));;
    mret None.

(** [SetConfigPermissions] *)
Definition SetConfigPermissions (configDir : string) (uid gid : Z)
    (verbose dryRun : bool) : Prog W error :=
  when verbose (print "Setting config file permissions...");;
  let patterns := ["*.yaml"; "*.yml"; ".env"; "*.sh"] in
  for_each patterns (fun pattern =>
    matches ← perform sys (FilepathGlob (Join fp configDir pattern));
    match matches with
    | Err _ => mret None
    | Ok matches =>
        for_each matches (set_config_permission uid gid verbose dryRun)
    end).

End Provisioner.
End Stack.

(** ** Package [docker]: the container runtime facade *)

Module Docker.
Import GoStrings Runtime.

(** *** The [docker compose] command line *)

(** [Compose] *)
Record Compose := {
  projectName : string;
  configDir : string;
  composeFile : string;
  envFile : string;
  verbose : bool;
}.

(** [NewCompose] *)
Definition NewCompose (fp : FilePath) (projectName configDir composeFile : string)
    : Compose :=
  {| projectName := projectName;
     configDir := configDir;
     composeFile := composeFile;
     envFile := Join fp configDir ".env";
     verbose := false |}.

(** [Compose.SetVerbose] *)
Definition SetVerbose (c : Compose) (v : bool) : Compose :=
  {| projectName := projectName c;
     configDir := configDir c;
     composeFile := composeFile c;
     envFile := envFile c;
     verbose := v |}.

(** [Compose.baseArgs] *)
Definition baseArgs (c : Compose) : list string :=
  let args := ["compose"; "-f"; composeFile c; "--env-file"; envFile c] in
  if negb (String.eqb (projectName c) "") then args ++ ["-p"; projectName c]
  else args.

(** The arguments [Compose.Up] builds. *)
Definition up_args (detach build : bool) : list string :=
  let args := ["up"] in
  let args := if detach then args ++ ["-d"] else args in
  let args := if build then args ++ ["--build"] else args in
  args ++ ["--remove-orphans"].

(** The arguments [Compose.Down] builds. *)
Definition down_args (removeVolumes removeOrphans : bool) : list string :=
  let args := ["down"] in
  let args := if removeVolumes then args ++ ["-v"] else args in
  if removeOrphans then args ++ ["--remove-orphans"] else args.

(** [bufio.Scanner] with the default split function on a string: the lines
    without their end-of-line marker; a line that does not fit the 64 KiB
    buffer ends the scan. *)
Fixpoint raw_lines (cur s : string) : list string :=
  match s with
  | EmptyString => if String.eqb cur "" then [] else [cur]
  | String c s' =>
      if Ascii.eqb c "010" then cur :: raw_lines "" s'
      else raw_lines (cur +:+ String c "") s'
  end.

Fixpoint fitting (ls : list string) : list string :=
  match ls with
  | [] => []
  | l :: ls' =>
      if (65536 <=? N.of_nat (len l))%N then [] else l :: fitting ls'
  end.

Definition dropCR (l : string) : string :=
  match String.get (len l - 1) l with
  | Some "013"%char => upto (len l - 1) l
  | _ => l
  end.

Definition scan_lines (s : string) : list string :=
  dropCR <$> fitting (raw_lines "" s).

(** The loop of [ConfigServices] over the scanned output. *)
Definition service_names (output : string) : list string :=
  List.filter (fun line => negb (String.eqb line ""))
    (TrimSpace <$> scan_lines output).

(** [ContainerInfo] *)
Record ContainerInfo := {
  ID : string;
  Name : string;
  Image : string;
  State : string;
  Status : string;
  Health : string;
  Ports : list string;
  Created : Z;
}.

(** [Client]; the SDK handle is the host the program runs on. *)
Record Client := {
  clientProject : string;
}.

(** The label filter of [ListContainers]. *)
Definition project_filter (projectName : string) : Args :=
  if negb (String.eqb projectName "")
  then [("label", "com.docker.compose.project=" +:+ projectName)]
  else [].

(** The port loop of [ListContainers]. *)
Definition format_ports (ports : list Port) : list string :=
  omap (fun p =>
      if (0 <? PublicPort p)%Z
      then Some (fmt_d (PublicPort p) +:+ "->" +:+ fmt_d (PrivatePort p)
                 +:+ "/" +:+ Type_ p)
      else None)
    ports.

(** The composite literal at the head of the loop of [ListContainers].
    [cont.ID[:12]] and [cont.Names[0]] panic on an id shorter than twelve
    bytes and on an empty name list: [None]. *)
Definition base_info (cont : Summary) : option ContainerInfo :=
  if len (sID cont) <? 12 then None
  else
    match sNames cont with
    | [] => None
    | name :: _ =>
        Some {| ID := upto 12 (sID cont);
                Name := TrimPrefix name "/";
                Image := sImage cont;
                State := sState cont;
                Status := sStatus cont;
                Health := "";
                Ports := [];
                Created := sCreated cont |}
    end.

Definition set_health (info : ContainerInfo) (h : string) : ContainerInfo :=
  {| ID := ID info; Name := Name info; Image := Image info;
     State := State info; Status := Status info; Health := h;
     Ports := Ports info; Created := Created info |}.

Definition set_ports (info : ContainerInfo) (ps : list string) : ContainerInfo :=
  {| ID := ID info; Name := Name info; Image := Image info;
     State := State info; Status := Status info; Health := Health info;
     Ports := ps; Created := Created info |}.

(** The invariant of [ContainerInfo]: a health value only on a running
    container. *)
Definition health_only_when_running (info : ContainerInfo) : Prop :=
  Health info ≠ "" -> State info = "running".

(** How a function ends: it returns, or the goroutine panics. *)
Inductive outcome (A : Type) : Type :=
| Returned (a : A)
| Panicked.
Global Arguments Returned {A} a.
Global Arguments Panicked {A}.

(** [info] is the record [ListContainers] builds for the container [cont]:
    the fields of the composite literal, whatever health and ports are
    filled in afterwards. *)
Definition info_of (cont : Summary) (info : ContainerInfo) : Prop :=
  exists b, base_info cont = Some b
    /\ ID info = ID b /\ Name info = Name b /\ Image info = Image b
    /\ State info = State b /\ Status info = Status b
    /\ Created info = Created b.

(** The label compose puts on the containers of a project. *)
Definition project_label : string := "com.docker.compose.project".

(** The id a lookup found, if it found one. *)
Definition found_id (o : outcome (result ContainerInfo)) : option string :=
  match o with
  | Returned (Ok info) => Some (ID info)
  | _ => None
  end.

Section Facade.
Context {W : Type} (sys : System W) (fp : FilePath).

Local Abbreviation print := (Runtime.print sys).

(** [Compose.runCommand] *)
Definition runCommand (c : Compose) (args : list string) (stream : bool)
    : Prog W error :=
  let fullArgs := baseArgs c ++ args in
  when (verbose c) (print ("Running: docker " +:+ String.concat " " fullArgs));;
  if stream then
    r ← perform sys (ExecDocker (configDir c) fullArgs true);
    mret r.2
  else
    r ← perform sys (ExecDocker (configDir c) fullArgs false);
    match r.2 with
    | Some e => mret (Some (e +:+ ": " +:+ r.1))
    | None =>
        when (verbose c && (0 <? len r.1)) (print r.1);;
        mret None
    end.

(** [Compose.runCommandOutput] *)
Definition runCommandOutput (c : Compose) (args : list string)
    : Prog W (result string) :=
  let fullArgs := baseArgs c ++ args in
  r ← perform sys (ExecDocker (configDir c) fullArgs false);
  match r.2 with
  | Some e => mret (Err (e +:+ ": " +:+ r.1))
  | None => mret (Ok r.1)
  end.

(** [Compose.Config] *)
Definition Config (c : Compose) : Prog W error :=
  runCommand c ["config"; "--quiet"] false.

(** [Compose.ConfigServices] *)
Definition ConfigServices (c : Compose) : Prog W (result (list string)) :=
  r ← runCommandOutput c ["config"; "--services"];
  match r with
  | Err e => mret (Err e)
  | Ok output => mret (Ok (service_names output))
  end.

(** [Compose.Pull] *)
Definition Pull (c : Compose) : Prog W error :=
  print "Pulling images...";;
  runCommand c ["pull"] true.

(** [Compose.Up] *)
Definition Up (c : Compose) (detach build : bool) : Prog W error :=
  let args := up_args detach build in
  print "Starting services...";;
  runCommand c args true.

(** [Compose.Down] *)
Definition Down (c : Compose) (removeVolumes removeOrphans : bool)
    : Prog W error :=
  let args := down_args removeVolumes removeOrphans in
  print "Stopping services...";;
  runCommand c args true.

(** [Compose.GetContainerID] *)
Definition GetContainerID (c : Compose) (service : string)
    : Prog W (result string) :=
  r ← runCommandOutput c ["ps"; "-q"; service];
  match r with
  | Err e => mret (Err e)
  | Ok output => mret (Ok (TrimSpace output))
  end.

(** [Compose.IsRunning] *)
Definition IsRunning (c : Compose) (service : string) : Prog W (result bool) :=
  r ← GetContainerID c service;
  match r with
  | Err e => mret (Err e)
  | Ok id => mret (Ok (negb (String.eqb id "")))
  end.

(** *** The Engine API client *)

(** [NewClient] *)
Definition NewClient (projectName : string) : Prog W (result Client) :=
  err ← perform sys NewClientWithOpts;
  match err with
  | Some e => mret (Err (wrap "failed to create Docker client" e))
  | None => mret (Ok {| clientProject := projectName |})
  end.

(** The health block of the loop of [ListContainers]: only a container
    seen running is inspected.  [inspect.State.Health] is evaluated when
    [err == nil]; [State] is a pointer, and the selector panics when it is
    nil. *)
Definition inspect_health (cont : Summary) (info : ContainerInfo)
    : Prog W (outcome ContainerInfo) :=
  if String.eqb (sState cont) "running" then
    inspect ← perform sys (ContainerInspectHealth (sID cont));
    match inspect with
    | Ok NoState => mret Panicked
    | Ok (HealthOf (Some status)) => mret (Returned (set_health info status))
    | Ok (HealthOf None) => mret (Returned info)
    | Err _ => mret (Returned info)
    end
  else mret (Returned info).

(** The loop of [ListContainers] over the containers the daemon lists;
    [acc] is [result] so far. *)
Fixpoint list_loop (containers : list Summary) (acc : list ContainerInfo)
    : Prog W (outcome (list ContainerInfo)) :=
  match containers with
  | [] => mret (Returned acc)
  | cont :: rest =>
      match base_info cont with
      | None => mret Panicked
      | Some info =>
          o ← inspect_health cont info;
          match o with
          | Panicked => mret Panicked
          | Returned info =>
              let info := set_ports info (format_ports (sPorts cont)) in
              list_loop rest (acc ++ [info])
          end
      end
  end.

(** [Client.ListContainers] *)
Definition ListContainers (c : Client) (all : bool)
    : Prog W (outcome (result (list ContainerInfo))) :=
  let filterArgs := project_filter (clientProject c) in
  r ← perform sys (ContainerList all filterArgs);
  match r with
  | Err e => mret (Returned (Err (wrap "failed to list containers" e)))
  | Ok containers =>
      o ← list_loop containers [];
      match o with
      | Panicked => mret Panicked
      | Returned infos => mret (Returned (Ok infos))
      end
  end.

(** [Client.StopContainer] *)
Definition StopContainer (c : Client) (containerID : string) : Prog W error :=
  perform sys (ContainerStop containerID 30).

(** [Client.PruneContainers] *)
Definition PruneContainers (c : Client) : Prog W error :=
  perform sys (ContainersPrune []).

(** [Client.PruneVolumes] *)
Definition PruneVolumes (c : Client) : Prog W error :=
  perform sys (VolumesPrune []).

(** [Client.PruneNetworks] *)
Definition PruneNetworks (c : Client) : Prog W error :=
  perform sys (NetworksPrune []).

(** [Client.PruneImages] *)
Definition PruneImages (c : Client) : Prog W error :=
  perform sys (ImagesPrune [("dangling", "false")]).

(** [Client.FindContainer] *)
Definition FindContainer (c : Client) (serviceName : string)
    : Prog W (outcome (result ContainerInfo)) :=
  o ← ListContainers c true;
  match o with
  | Panicked => mret Panicked
  | Returned (Err e) => mret (Returned (Err e))
  | Returned (Ok containers) =>
      match List.find (fun cont => Contains (Name cont) serviceName) containers with
      | Some cont => mret (Returned (Ok cont))
      | None =>
          mret (Returned
                  (Err ("container not found for service: " +:+ serviceName)))
      end
  end.

End Facade.
End Docker.

(** ** The [deploy] command: the deployment orchestrator *)

Module Deploy.
Import GoStrings Runtime.

(** The flags of the [deploy] command *)
Record Flags := {
  pull : bool;
  no_directories : bool;
  no_files : bool;
  force : bool;
  prune : bool;
}.

(** A line feed, for the texts that start with one. *)
Definition nl : string := String "010" "".

(** [cfg.Variant = config.NormalizeVariant(cfg.Variant)] *)
Definition normalize (cfg : Config.Config) : Config.Config :=
  if negb (String.eqb (Config.Variant cfg) "") then
    {| Config.ConfigDir := Config.ConfigDir cfg;
       Config.MediaFolder := Config.MediaFolder cfg;
       Config.DataFolder := Config.DataFolder cfg;
       Config.PUID := Config.PUID cfg;
       Config.PGID := Config.PGID cfg;
       Config.Variant := Config.NormalizeVariant (Config.Variant cfg);
       Config.ProjectName := Config.ProjectName cfg;
       Config.DockerSubnet := Config.DockerSubnet cfg;
       Config.DockerGateway := Config.DockerGateway cfg;
       Config.LocalSubnet := Config.LocalSubnet cfg;
       Config.Timezone := Config.Timezone cfg;
       Config.PostgresPassword := Config.PostgresPassword cfg;
       Config.Env := Config.Env cfg |}
  else cfg.

Section Orchestrator.
Context {W : Type} (sys : System W) (fp : FilePath).

Local Abbreviation print := (Runtime.print sys).

(** A call whose failure is a warning. *)
Definition warn (m : Prog W error) (text : string) : Prog W unit :=
  err ← m;
  match err with
  | Some e => print (text +:+ ": " +:+ e)
  | None => mret tt
  end.

(** Steps 1 to 3 of [runDeploy]: provisioning and staging. *)
Definition provision (cfg : Config.Config) (dryRun verbose : bool) (f : Flags)
    : Prog W error :=
  err ←
    (if negb (no_directories f) then
       print "Step 1: Creating directories...";;
       err ← Stack.CreateDirectories sys fp (Config.DataFolder cfg)
               (Config.MediaFolder cfg) (Config.PUID cfg) (Config.PGID cfg)
               verbose dryRun;
       mret (wrap "failed to create directories" <$> err)
     else
       print "Step 1: Skipping directory creation (--no-directories)";;
       mret None);
  match err with
  | Some e => mret (Some e)
  | None =>
      print (nl +:+ "Step 2: Setting file permissions...");;
      err ← Stack.SetConfigPermissions sys fp (Config.ConfigDir cfg)
              (Config.PUID cfg) (Config.PGID cfg) verbose dryRun;
      match err with
      | Some e => mret (Some (wrap "failed to set permissions" e))
      | None =>
          if negb (no_files f) then
            print (nl +:+ "Step 3: Copying configuration files...");;
            err ← Stack.CopyConfigFiles sys fp (Config.ConfigDir cfg)
                    (Config.DataFolder cfg) (Config.PUID cfg) (Config.PGID cfg)
                    verbose dryRun;
            mret (wrap "failed to copy config files" <$> err)
          else
            print "Step 3: Skipping config file copy (--no-files)";;
            mret None
      end
  end.

(** Step 6, first half: list the running containers of the project and
    stop each of them. *)
Definition stop_existing (client : Docker.Client) (verbose : bool)
    : Prog W (Docker.outcome unit) :=
  o ← Docker.ListContainers sys client false;
  match o with
  | Docker.Panicked => mret Docker.Panicked
  | Docker.Returned (Err e) =>
      print ("  Warning: Could not list containers: " +:+ e);;
      mret (Docker.Returned tt)
  | Docker.Returned (Ok containers) =>
      (if 0 <? List.length containers then
         print ("  Found " +:+ fmt_d (Z.of_nat (List.length containers))
                +:+ " running containers");;
         Stack.for_each containers (fun c =>
           when verbose (print ("    Stopping: " +:+ Docker.Name c));;
           warn (Docker.StopContainer sys client (Docker.ID c))
             ("    Warning: Failed to stop " +:+ Docker.Name c);;
           mret None);;
         print "  Stopped existing containers"
       else print "  No existing containers to stop");;
      mret (Docker.Returned tt)
  end.

(** Step 6, second half: prune containers, volumes and networks. *)
Definition prune_stopped (client : Docker.Client) : Prog W unit :=
  warn (Docker.PruneContainers sys client)
    "  Warning: Failed to prune containers";;
  warn (Docker.PruneVolumes sys client) "  Warning: Failed to prune volumes";;
  warn (Docker.PruneNetworks sys client) "  Warning: Failed to prune networks".

(** The loop of step 8 over the services; [running] and [failed] are the
    two counters. *)
Fixpoint tally (compose : Docker.Compose) (services : list string)
    (running failed : nat) : Prog W (nat * nat) :=
  match services with
  | [] => mret (running, failed)
  | service :: rest =>
      r ← Docker.IsRunning sys compose service;
      match r with
      | Ok true => tally compose rest (S running) failed
      | _ =>
          print ("  Not running: " +:+ service);;
          tally compose rest running (S failed)
      end
  end.

(** Step 8: verification after the settling pause.  The source has no
    [return] in it; its result here is the pair of counters, [None] when
    the service list could not be obtained. *)
Definition verify (compose : Docker.Compose) : Prog W (option (nat * nat)) :=
  print (nl +:+ "Step 8: Verifying services...");;
  perform sys (Sleep 5);;
  r ← Docker.ConfigServices sys compose;
  match r with
  | Err e =>
      print ("  Warning: Could not get service list: " +:+ e);;
      mret None
  | Ok services =>
      t ← tally compose services 0 0;
      (if 0 <? t.2 then
         print ("  " +:+ fmt_d (Z.of_nat t.1) +:+ "/"
                +:+ fmt_d (Z.of_nat (List.length services))
                +:+ " services running")
       else print ("  All " +:+ fmt_d (Z.of_nat t.1) +:+ " services running"));;
      mret (Some t)
  end.

(** Step 9: prune unused images. *)
Definition prune_images (client : Docker.Client) (f : Flags) : Prog W unit :=
  when (prune f) (
    print (nl +:+ "Step 9: Pruning unused images...");;
    err ← Docker.PruneImages sys client;
    match err with
    | Some e => print ("  Warning: Failed to prune images: " +:+ e)
    | None => print "  Unused images removed"
    end).

(** Steps 4 to 7 of [runDeploy]: validation, pull, teardown and bring-up.
    On success the result carries the two handles the later steps use. *)
Definition bring_up (cfg : Config.Config) (verbose : bool) (f : Flags)
    : Prog W (Docker.outcome (result (Docker.Compose * Docker.Client))) :=
  print (nl +:+ "Step 4: Validating Docker Compose configuration...");;
  let compose :=
    Docker.NewCompose fp (Config.ProjectName cfg) (Config.ConfigDir cfg)
      (Config.ComposeFile fp cfg) in
  let compose := Docker.SetVerbose compose verbose in
  err ← Docker.Config sys compose;
  match err with
  | Some e =>
      mret (Docker.Returned (Err (wrap "compose configuration is invalid" e)))
  | None =>
      print "  Configuration is valid";;
      err ←
        (if pull f then
           print (nl +:+ "Step 5: Pulling Docker images...");;
           Docker.Pull sys compose
         else
           print (nl +:+ "Step 5: Skipping image pull (use --pull to update)");;
           mret None);
      match err with
      | Some e => mret (Docker.Returned
                          (Err (wrap "failed to pull images" e)))
      | None =>
          print (nl +:+ "Step 6: Stopping existing containers...");;
          r ← Docker.NewClient sys (Config.ProjectName cfg);
          match r with
          | Err e => mret (Docker.Returned
                             (Err (wrap "failed to create Docker client" e)))
          | Ok client =>
              o ← stop_existing client verbose;
              match o with
              | Docker.Panicked => mret Docker.Panicked
              | Docker.Returned _ =>
                  prune_stopped client;;
                  print (nl +:+ "Step 7: Starting services...");;
                  err ← Docker.Up sys compose true (force f);
                  match err with
                  | Some e =>
                      mret (Docker.Returned
                              (Err (wrap "failed to start services" e)))
                  | None => mret (Docker.Returned (Ok (compose, client)))
                  end
              end
          end
      end
  end.

(** [runDeploy] up to and including step 7.  The result is [inl err] where
    the source returns [err] (also the [nil] of the dry-run return), and
    [inr] of the two handles where it goes on to step 8.  [cfg], [dryRun]
    and [verbose] are the package variables the command reads. *)
Definition steps_1_to_7 (cfg : Config.Config) (dryRun verbose : bool) (f : Flags)
    : Prog W (Docker.outcome (error + Docker.Compose * Docker.Client)) :=
  let cfg := normalize cfg in
  print "Deploying MediaStack...";;
  print ("  Variant: " +:+ Config.Variant cfg);;
  print ("  Config:  " +:+ Config.ConfigDir cfg);;
  print ("  Data:    " +:+ Config.DataFolder cfg);;
  print ("  Media:   " +:+ Config.MediaFolder cfg);;
  print "";;
  when dryRun (
    print "[dry-run mode - no changes will be made]";;
    print "");;
  err ← provision cfg dryRun verbose f;
  match err with
  | Some e => mret (Docker.Returned (inl (Some e)))
  | None =>
      if dryRun then
        print (nl +:+ "[dry-run] Would validate, pull, and start containers");;
        mret (Docker.Returned (inl None))
      else
        o ← bring_up cfg verbose f;
        match o with
        | Docker.Panicked => mret Docker.Panicked
        | Docker.Returned (Err e) => mret (Docker.Returned (inl (Some e)))
        | Docker.Returned (Ok handles) => mret (Docker.Returned (inr handles))
        end
  end.

(** Steps 8 and 9 and the closing lines of [runDeploy]. *)
Definition steps_8_to_9 (compose : Docker.Compose) (client : Docker.Client)
    (f : Flags) : Prog W error :=
  verify compose;;
  prune_images client f;;
  print "";;
  print "MediaStack deployed successfully!";;
  mret None.

(** [runDeploy]; the deferred [cancel] and [client.Close] do not show in
    the trace. *)
Definition runDeploy (cfg : Config.Config) (dryRun verbose : bool) (f : Flags)
    : Prog W (Docker.outcome error) :=
  o ← steps_1_to_7 cfg dryRun verbose f;
  match o with
  | Docker.Panicked => mret Docker.Panicked
  | Docker.Returned (inl err) => mret (Docker.Returned err)
  | Docker.Returned (inr (compose, client)) =>
      err ← steps_8_to_9 compose client f;
      mret (Docker.Returned err)
  end.

End Orchestrator.
End Deploy.

(** ** A reference host

    One implementation of the interface, to run the programs on: files with
    the POSIX meaning of the calls the provisioner makes, and a daemon with
    the Engine API's meaning of list, stop and prune under label filters.
    The [docker] binary and the pattern matcher are answered from tables. *)

Module Host.
Import GoStrings Runtime.

Record file := {
  mode : N;
  owner : Z * Z;
  content : string;
  is_dir : bool;
}.

(** A volume or a network of the daemon. *)
Record resource := {
  rName : string;
  rLabels : gmap string string;
  rInUse : bool;
}.

Record host := {
  files : gmap string file;
  umask : N;
  process_owner : Z * Z;
  may_chown : bool;
  containers : list Summary;
  health : gmap string string;
  volumes : list resource;
  networks : list resource;
  cli : list string -> string * error;
  glob : string -> list string;
}.

(** A [label] filter [key=value] holds of a label map that binds [key] to
    [value]; [key] alone asks for the label to be present.  Other filter
    names are not interpreted. *)
Definition filter_holds (labels : gmap string string) (f : string * string)
    : bool :=
  if String.eqb f.1 "label" then
    match Index f.2 "=" with
    | Some i =>
        bool_decide (labels !! upto i f.2 = Some (from (i + 1) f.2))
    | None => bool_decide (is_Some (labels !! f.2))
    end
  else true.

Definition filters_hold (filters : Args) (labels : gmap string string) : bool :=
  forallb (filter_holds labels) filters.

(** Without [all] the daemon lists the containers whose process is up:
    those in state [running], [paused] or [restarting]. *)
Definition is_running (c : Summary) : bool :=
  String.eqb (sState c) "running" || String.eqb (sState c) "paused"
  || String.eqb (sState c) "restarting".

(** [GET /containers/json] *)
Definition list_containers (h : host) (all : bool) (filters : Args)
    : list Summary :=
  List.filter
    (fun c => (all || is_running c) && filters_hold filters (sLabels c))
    (containers h).

(** [POST /containers/prune] deletes the stopped containers the filters
    select. *)
Definition is_stopped (c : Summary) : bool :=
  String.eqb (sState c) "exited" || String.eqb (sState c) "created"
  || String.eqb (sState c) "dead".

Definition pruned_container (filters : Args) (c : Summary) : bool :=
  is_stopped c && filters_hold filters (sLabels c).

(** [POST /volumes/prune] and [POST /networks/prune] delete the unused
    ones the filters select. *)
Definition pruned_resource (filters : Args) (r : resource) : bool :=
  negb (rInUse r) && filters_hold filters (rLabels r).

Definition keep {A} (drop : A -> bool) (l : list A) : list A :=
  List.filter (fun x => negb (drop x)) l.

Definition with_files (h : host) (fs : gmap string file) : host :=
  {| files := fs; umask := umask h; process_owner := process_owner h;
     may_chown := may_chown h; containers := containers h;
     health := health h; volumes := volumes h; networks := networks h;
     cli := cli h; glob := glob h |}.

Definition with_containers (h : host) (cs : list Summary) : host :=
  {| files := files h; umask := umask h; process_owner := process_owner h;
     may_chown := may_chown h; containers := cs;
     health := health h; volumes := volumes h; networks := networks h;
     cli := cli h; glob := glob h |}.

Definition with_volumes (h : host) (vs : list resource) : host :=
  {| files := files h; umask := umask h; process_owner := process_owner h;
     may_chown := may_chown h; containers := containers h;
     health := health h; volumes := vs; networks := networks h;
     cli := cli h; glob := glob h |}.

Definition with_networks (h : host) (ns : list resource) : host :=
  {| files := files h; umask := umask h; process_owner := process_owner h;
     may_chown := may_chown h; containers := containers h;
     health := health h; volumes := volumes h; networks := ns;
     cli := cli h; glob := glob h |}.

(** The permission bits a new file gets: the requested ones the umask does
    not clear. *)
Definition created_mode (h : host) (perm : N) : N :=
  N.ldiff perm (umask h).

Definition new_file (h : host) (perm : N) (dir : bool) : file :=
  {| mode := created_mode h perm; owner := process_owner h; content := "";
     is_dir := dir |}.

Definition ENOENT (path : string) : string :=
  path +:+ ": no such file or directory".

(** [open(2)] with [O_WRONLY|O_CREATE|O_TRUNC]: an existing file is emptied
    and keeps its mode; a missing one is created with [perm] under the
    umask. *)
Definition open_create_trunc (h : host) (path : string) (perm : N)
    : error * host :=
  match files h !! path with
  | Some f =>
      if is_dir f then (Some (path +:+ ": is a directory"), h)
      else
        (None,
         with_files h
           (<[path := {| mode := mode f; owner := owner f; content := "";
                         is_dir := false |}]> (files h)))
  | None => (None, with_files h (<[path := new_file h perm false]> (files h)))
  end.

Definition mkdir_all (h : host) (path : string) (perm : N) : error * host :=
  match files h !! path with
  | Some f =>
      if is_dir f then (None, h)
      else (Some (path +:+ ": not a directory"), h)
  | None => (None, with_files h (<[path := new_file h perm true]> (files h)))
  end.

Definition chmod (h : host) (path : string) (perm : N) : error * host :=
  match files h !! path with
  | Some f =>
      (None,
       with_files h
         (<[path := {| mode := perm; owner := owner f; content := content f;
                       is_dir := is_dir f |}]> (files h)))
  | None => (Some (ENOENT path), h)
  end.

Definition chown (h : host) (path : string) (uid gid : Z) : error * host :=
  match files h !! path with
  | Some f =>
      if may_chown h then
        (None,
         with_files h
           (<[path := {| mode := mode f; owner := (uid, gid);
                         content := content f; is_dir := is_dir f |}]>
              (files h)))
      else (Some (path +:+ ": operation not permitted"), h)
  | None => (Some (ENOENT path), h)
  end.

Definition io_copy (h : host) (dst src : string) : error * host :=
  match files h !! src, files h !! dst with
  | Some s, Some d =>
      (None,
       with_files h
         (<[dst := {| mode := mode d; owner := owner d; content := content s;
                      is_dir := is_dir d |}]> (files h)))
  | None, _ => (Some (ENOENT src), h)
  | _, None => (Some (ENOENT dst), h)
  end.

Definition stop (h : host) (id : string) : error * host :=
  if existsb (fun c => HasPrefix (sID c) id) (containers h) then
    (None,
     with_containers h
       ((fun c =>
           if HasPrefix (sID c) id && is_running c then
             {| sID := sID c; sNames := sNames c; sImage := sImage c;
                sState := "exited"; sStatus := "Exited (0)";
                sCreated := sCreated c; sPorts := sPorts c;
                sLabels := sLabels c |}
           else c) <$> containers h))
  else (Some ("No such container: " +:+ id), h).

Definition remove (h : host) (id : string) : error * host :=
  if existsb (fun c => HasPrefix (sID c) id) (containers h) then
    (None, with_containers h (keep (fun c => HasPrefix (sID c) id) (containers h)))
  else (Some ("No such container: " +:+ id), h).

Definition walk (h : host) (root : string) : list walk_entry :=
  (fun kv => {| walk_path := kv.1; walk_is_dir := is_dir kv.2;
                walk_err := None |})
  <$> List.filter (fun kv => HasPrefix kv.1 root) (map_to_list (files h)).

Definition host_run (A : Type) (c : call A) : host -> A * host :=
  match c in call A return host -> A * host with
  | OsStat path => fun h =>
      (match files h !! path with Some _ => StatOk | None => StatNotExist end, h)
  | OsOpen path => fun h =>
      (match files h !! path with Some _ => None | None => Some (ENOENT path) end,
       h)
  | FilepathGlob pattern => fun h => (Ok (glob h pattern), h)
  | FilepathWalk root => fun h => (walk h root, h)
  | OsMkdirAll path perm => fun h => mkdir_all h path perm
  | OsChown path uid gid => fun h => chown h path uid gid
  | OsChmod path perm => fun h => chmod h path perm
  | OsOpenFileCreateTrunc path perm => fun h => open_create_trunc h path perm
  | OsCreate path => fun h => open_create_trunc h path (oct "0666")
  | IoCopy dst src => fun h => io_copy h dst src
  | ExecDocker dir args stream => fun h => (cli h args, h)
  | NewClientWithOpts => fun h => (None, h)
  | ContainerList all filters => fun h => (Ok (list_containers h all filters), h)
  | ContainerInspectHealth id => fun h =>
      (if existsb (fun c => String.eqb (sID c) id) (containers h)
       then Ok (HealthOf (health h !! id))
       else Err ("No such container: " +:+ id), h)
  | ContainerStop id timeout => fun h => stop h id
  | ContainerRemove id force removeVolumes => fun h => remove h id
  | ContainersPrune filters => fun h =>
      (None, with_containers h (keep (pruned_container filters) (containers h)))
  | VolumesPrune filters => fun h =>
      (None, with_volumes h (keep (pruned_resource filters) (volumes h)))
  | NetworksPrune filters => fun h =>
      (None, with_networks h (keep (pruned_resource filters) (networks h)))
  | ImagesPrune filters => fun h => (None, h)
  | Print text => fun h => (tt, h)
  | Sleep seconds => fun h => (tt, h)
  end.

Definition system : System host.
Proof. refine {| run := host_run |}. intros A c h. by destruct c. Defined.

(** Paths joined with a slash, for arguments that are clean already. *)
Fixpoint last_slash (s : string) : option nat :=
  match s with
  | EmptyString => None
  | String c s' =>
      match last_slash s' with
      | Some i => Some (S i)
      | None => if Ascii.eqb c "/" then Some 0 else None
      end
  end.

Fixpoint last_dot (s : string) : string :=
  match s with
  | EmptyString => ""
  | String c s' =>
      match last_dot s' with
      | EmptyString => if Ascii.eqb c "." then s else ""
      | e => e
      end
  end.

Definition unix_path : FilePath :=
  {| Join := fun a b => a +:+ "/" +:+ b;
     Join3 := fun a b c => a +:+ "/" +:+ b +:+ "/" +:+ c;
     Dir := fun p =>
       match last_slash p with
       | Some 0 => "/"
       | Some i => upto i p
       | None => "."
       end;
     Base := fun p =>
       match last_slash p with
       | Some i => from (S i) p
       | None => p
       end;
     Ext := fun p =>
       match last_slash p with
       | Some i => last_dot (from (S i) p)
       | None => last_dot p
       end |}.

(** *** Discovery by label, as the interface description words it *)

(** [info] stands for a container of [h] that carries the project label
    [project]. *)
Definition of_project (h : host) (project : string)
    (info : Docker.ContainerInfo) : Prop :=
  exists c, c ∈ containers h
    /\ sLabels c !! Docker.project_label = Some project
    /\ Docker.info_of c info.








End Host.

(** ** Sample hosts *)

Module Sample.
Import Runtime Host.

Definition compose_labels (project service : string) : gmap string string :=
  {[ "com.docker.compose.project" := project;
     "com.docker.compose.service" := service ]}.

Definition container (id name state project service : string)
    (ports : list Port) : Summary :=
  {| sID := id; sNames := [name]; sImage := service +:+ ":latest";
     sState := state; sStatus := state; sCreated := 0; sPorts := ports;
     sLabels := compose_labels project service |}.

Definition sonarr : Summary :=
  container "5f0c1d2e3a4b5c6d7e8f" "/mediastack-sonarr-1" "running"
    "mediastack" "sonarr"
    [{| IP := "0.0.0.0"; PrivatePort := 8989; PublicPort := 8989;
        Type_ := "tcp" |}].

Definition tdarr_node : Summary :=
  container "6a1b2c3d4e5f60718293" "/mediastack-tdarr-node-1" "running"
    "mediastack" "tdarr-node" [].

Definition old_plex : Summary :=
  container "7b2c3d4e5f6071829304" "/mediastack-plex-1" "exited"
    "mediastack" "plex" [].

Definition blog_web : Summary :=
  container "8c3d4e5f607182930415" "/blog-web-1" "running" "blog" "web" [].

Definition blog_db : Summary :=
  container "9d4e5f60718293041526" "/blog-db-1" "exited" "blog" "db" [].

Definition blog_volume : resource :=
  {| rName := "blog_dbdata";
     rLabels := {[ "com.docker.compose.project" := "blog" ]};
     rInUse := false |}.

Definition blog_network : resource :=
  {| rName := "blog_default";
     rLabels := {[ "com.docker.compose.project" := "blog" ]};
     rInUse := false |}.

(** A host that runs the media stack next to another compose project. *)
Definition shared_host : host :=
  {| files := ∅; umask := oct "022"; process_owner := (1000, 1000)%Z;
     may_chown := false;
     containers := [sonarr; tdarr_node; old_plex; blog_web; blog_db];
     health := {[ sID sonarr := "healthy"; sID old_plex := "unhealthy" ]};
     volumes := [blog_volume]; networks := [blog_network];
     cli := fun _ => ("", None); glob := fun _ => [] |}.

Definition client : Docker.Client := {| Docker.clientProject := "mediastack" |}.

(** The same host after [docker rename mediastack-sonarr-1 media-tv-1]. *)
Definition renamed_host : host :=
  with_containers shared_host
    [container "5f0c1d2e3a4b5c6d7e8f" "/media-tv-1" "running" "mediastack"
       "sonarr"
       [{| IP := "0.0.0.0"; PrivatePort := 8989; PublicPort := 8989;
           Type_ := "tcp" |}];
     tdarr_node; old_plex; blog_web; blog_db].

Definition cfg : Config.Config :=
  {| Config.ConfigDir := "/opt/stack/base-working-files";
     Config.MediaFolder := "/srv/media"; Config.DataFolder := "/srv/data";
     Config.PUID := 1000; Config.PGID := 1000;
     Config.Variant := "mini"; Config.ProjectName := "mediastack";
     Config.DockerSubnet := "172.28.0.0/16";
     Config.DockerGateway := "172.28.0.1";
     Config.LocalSubnet := "192.168.0.0/16"; Config.Timezone := "UTC";
     Config.PostgresPassword := ""; Config.Env := ∅ |}.

(** [mediastack deploy --force] *)
Definition deploy_force : Deploy.Flags :=
  {| Deploy.pull := false; Deploy.no_directories := false;
     Deploy.no_files := false; Deploy.force := true; Deploy.prune := true |}.

(** [mediastack deploy --no-directories --no-files] *)
Definition deploy_only : Deploy.Flags :=
  {| Deploy.pull := false; Deploy.no_directories := true;
     Deploy.no_files := true; Deploy.force := false; Deploy.prune := true |}.

(** A host where one manifest entry has its source in the config directory
    and a destination left by an earlier run with mode 0600. *)
Definition staged_source : string :=
  "/opt/stack/base-working-files/headplane-config.yaml".

Definition staged_destination : string := "/srv/data/headplane/config.yaml".

Definition staging_host : host :=
  with_files shared_host
    {[ staged_source :=
         {| mode := oct "0644"; owner := (1000, 1000)%Z;
            content := "server: {}"; is_dir := false |};
       staged_destination :=
         {| mode := oct "0600"; owner := (1000, 1000)%Z;
            content := "old"; is_dir := false |} ]}.

(** An environment file that leaves the project name empty. *)
Definition env_file : Config.env_file :=
  Config.Lines
    ["# media stack"; "FOLDER_FOR_MEDIA=/srv/media";
     "FOLDER_FOR_DATA='/srv/data'"; "PUID=1000"; "PGID=1000";
     "COMPOSE_PROJECT_NAME="; "CONFIG=${FOLDER_FOR_DATA}/${APP:-sonarr}"]
    None.

(** The records [ListContainers] builds for them. *)
Definition info (id name state service health : string) (ports : list string)
    : Docker.ContainerInfo :=
  {| Docker.ID := id; Docker.Name := name;
     Docker.Image := service +:+ ":latest"; Docker.State := state;
     Docker.Status := state; Docker.Health := health; Docker.Ports := ports;
     Docker.Created := 0 |}.

Definition sonarr_info : Docker.ContainerInfo :=
  info "5f0c1d2e3a4b" "mediastack-sonarr-1" "running" "sonarr" "healthy"
    ["8989->8989/tcp"].

Definition tdarr_node_info : Docker.ContainerInfo :=
  info "6a1b2c3d4e5f" "mediastack-tdarr-node-1" "running" "tdarr-node" "" [].

Definition old_plex_info : Docker.ContainerInfo :=
  info "7b2c3d4e5f60" "mediastack-plex-1" "exited" "plex" "" [].

Definition blog_web_info : Docker.ContainerInfo :=
  info "8c3d4e5f6071" "blog-web-1" "running" "web" "" [].

Definition blog_db_info : Docker.ContainerInfo :=
  info "9d4e5f607182" "blog-db-1" "exited" "db" "" [].

End Sample.

(** ** More of the packages: checks, bulk operations and the other commands *)

Module More.
Import GoStrings Runtime.

(** [ValidateRequiredVars] *)
Definition ValidateRequiredVars (env : gmap string string)
    (required : list string) : list string :=
  List.filter
    (fun key =>
       match env !! key with
       | Some val => String.eqb val ""
       | None => true
       end)
    required.

(** The keys of the [validVariants] map of [Config.Validate] *)
Definition validVariants : list string :=
  ["full-download-vpn"; "mini-download-vpn"; "no-download-vpn";
   "full"; "mini"; "no-vpn"].

(** [Config.Validate]; [compose_stat] is what [os.Stat] answers for the
    compose file. *)
Definition Validate (fp : FilePath) (compose_stat : stat_outcome)
    (c : Config.Config) : list string :=
  let compose_file := Config.ComposeFile fp c in
  let errors := [] in
  let errors :=
    if String.eqb (Config.MediaFolder c) ""
    then errors ++ ["FOLDER_FOR_MEDIA is not set"] else errors in
  let errors :=
    if String.eqb (Config.DataFolder c) ""
    then errors ++ ["FOLDER_FOR_DATA is not set"] else errors in
  let errors :=
    if IsNotExist compose_stat
    then errors ++ ["compose file not found: " +:+ compose_file] else errors in
  if negb (bool_decide (Config.Variant c ∈ validVariants))
  then errors ++ ["invalid variant: " +:+ Config.Variant c] else errors.

(** [Config.VariantDir] *)
Definition VariantDir (fp : FilePath) (c : Config.Config) : string :=
  Join fp (Dir fp (Config.ConfigDir c)) (Config.Variant c).

(** The flags of the [stop] command *)
Record StopFlags := {
  stop_remove_orphans : bool;
  stop_volumes : bool;
  stop_prune : bool;
}.

(** The flags of the [restart] command *)
Record RestartFlags := {
  restart_pull : bool;
  restart_force : bool;
}.

Section Programs.
Context {W : Type} (sys : System W) (fp : FilePath).

Local Abbreviation print := (Runtime.print sys).

(** The loop of [VerifyDirectories] and of [VerifyConfigFiles] over one
    list: [report x] is appended for each [x] whose path does not exist. *)
Fixpoint missing_of {A} (l : list A) (path : A -> string) (report : A -> string)
    (missing : list string) : Prog W (list string) :=
  match l with
  | [] => mret missing
  | x :: l' =>
      st ← perform sys (OsStat (path x));
      missing_of l' path report
        (if IsNotExist st then missing ++ [report x] else missing)
  end.

(** [VerifyDirectories] *)
Definition VerifyDirectories (dataFolder mediaFolder : string)
    : Prog W (list string) :=
  missing ← missing_of Stack.DataDirectories (Join fp dataFolder)
               (Join fp dataFolder) [];
  missing_of Stack.MediaDirectories (Join fp mediaFolder)
    (Join fp mediaFolder) missing.

(** [VerifyConfigFiles] *)
Definition VerifyConfigFiles (configDir : string) : Prog W (list string) :=
  missing_of Stack.ConfigFiles
    (fun cf => Join fp configDir (Stack.Source cf)) Stack.Source [].

(** [Compose.PullService] *)
Definition PullService (c : Docker.Compose) (service : string) : Prog W error :=
  Docker.runCommand sys c ["pull"; service] true.

(** [Compose.Stop] *)
Definition Stop (c : Docker.Compose) : Prog W error :=
  print "Stopping services...";;
  Docker.runCommand sys c ["stop"] true.

(** [Compose.StopService] *)
Definition StopService (c : Docker.Compose) (service : string) : Prog W error :=
  Docker.runCommand sys c ["stop"; service] true.

(** [Compose.Start] *)
Definition Start (c : Docker.Compose) : Prog W error :=
  print "Starting services...";;
  Docker.runCommand sys c ["start"] true.

(** [Compose.Restart] *)
Definition Restart (c : Docker.Compose) : Prog W error :=
  print "Restarting services...";;
  Docker.runCommand sys c ["restart"] true.

(** [Compose.RestartService] *)
Definition RestartService (c : Docker.Compose) (service : string)
    : Prog W error :=
  Docker.runCommand sys c ["restart"; service] true.

(** [Compose.PS] *)
Definition PS (c : Docker.Compose) (all : bool) : Prog W (result string) :=
  let args := ["ps"] in
  let args := if all then args ++ ["-a"] else args in
  Docker.runCommandOutput sys c args.

(** [Compose.Run] *)
Definition Run (c : Docker.Compose) (service : string) (command : list string)
    (rm : bool) : Prog W error :=
  let args := ["run"] in
  let args := if rm then args ++ ["--rm"] else args in
  let args := args ++ [service] in
  let args := args ++ command in
  Docker.runCommand sys c args true.

(** [Client.RemoveContainer] *)
Definition RemoveContainer (c : Docker.Client) (containerID : string)
    (force : bool) : Prog W error :=
  perform sys (ContainerRemove containerID force false).

(** [Client.StopAllProjectContainers] *)
Definition StopAllProjectContainers (c : Docker.Client)
    : Prog W (Docker.outcome error) :=
  o ← Docker.ListContainers sys c false;
  match o with
  | Docker.Panicked => mret Docker.Panicked
  | Docker.Returned (Err e) => mret (Docker.Returned (Some e))
  | Docker.Returned (Ok containers) =>
      err ← Stack.for_each containers (fun cont =>
        err ← Docker.StopContainer sys c (Docker.ID cont);
        mret (wrap ("failed to stop container " +:+ Docker.Name cont) <$> err));
      mret (Docker.Returned err)
  end.

(** [Client.RemoveAllProjectContainers] *)
Definition RemoveAllProjectContainers (c : Docker.Client)
    : Prog W (Docker.outcome error) :=
  o ← Docker.ListContainers sys c true;
  match o with
  | Docker.Panicked => mret Docker.Panicked
  | Docker.Returned (Err e) => mret (Docker.Returned (Some e))
  | Docker.Returned (Ok containers) =>
      err ← Stack.for_each containers (fun cont =>
        err ← RemoveContainer c (Docker.ID cont) true;
        mret (wrap ("failed to remove container " +:+ Docker.Name cont) <$> err));
      mret (Docker.Returned err)
  end.

(** The [Compose] value the commands build from the configuration. *)
Definition compose_of (cfg : Config.Config) (verbose : bool) : Docker.Compose :=
  Docker.SetVerbose
    (Docker.NewCompose fp (Config.ProjectName cfg) (Config.ConfigDir cfg)
       (Config.ComposeFile fp cfg))
    verbose.

(** [runStop]; [args] are the service names on the command line. *)
Definition runStop (cfg : Config.Config) (dryRun verbose : bool)
    (f : StopFlags) (args : list string) : Prog W error :=
  if dryRun then
    print "[dry-run] Would stop MediaStack containers";;
    when (stop_prune f) (print "[dry-run] Would prune unused resources");;
    mret None
  else
    let compose := compose_of cfg verbose in
    err ←
      (if 0 <? List.length args then
         Stack.for_each args (fun service =>
           print ("Stopping service: " +:+ service);;
           err ← StopService compose service;
           match err with
           | Some e => mret (Some (wrap ("failed to stop " +:+ service) e))
           | None => print ("Stopped: " +:+ service);; mret None
           end)
       else
         err ← Docker.Down sys compose (stop_volumes f) (stop_remove_orphans f);
         mret (wrap "failed to stop stack" <$> err));
    match err with
    | Some e => mret (Some e)
    | None =>
        err ←
          (if stop_prune f then
             print (Deploy.nl +:+ "Pruning unused resources...");;
             r ← Docker.NewClient sys (Config.ProjectName cfg);
             match r with
             | Err e => mret (Some (wrap "failed to create Docker client" e))
             | Ok client =>
                 Deploy.warn sys (Docker.PruneContainers sys client)
                   "Warning: Failed to prune containers";;
                 Deploy.warn sys (Docker.PruneVolumes sys client)
                   "Warning: Failed to prune volumes";;
                 Deploy.warn sys (Docker.PruneNetworks sys client)
                   "Warning: Failed to prune networks";;
                 print "Pruning complete";;
                 mret None
             end
           else mret None);
        match err with
        | Some e => mret (Some e)
        | None =>
            print (Deploy.nl +:+ "MediaStack stopped successfully");;
            mret None
        end
    end.

(** [runRestart] *)
Definition runRestart (cfg : Config.Config) (dryRun verbose : bool)
    (f : RestartFlags) (args : list string) : Prog W error :=
  if dryRun then
    print "[dry-run] Would restart MediaStack containers";;
    when (restart_pull f) (print "[dry-run] Would pull images first");;
    mret None
  else
    let compose := compose_of cfg verbose in
    err ←
      (if restart_pull f then
         print "Pulling images...";;
         err ← Docker.Pull sys compose;
         mret (wrap "failed to pull images" <$> err)
       else mret None);
    match err with
    | Some e => mret (Some e)
    | None =>
        err ←
          (if 0 <? List.length args then
             Stack.for_each args (fun service =>
               print ("Restarting service: " +:+ service);;
               err ← RestartService compose service;
               match err with
               | Some e =>
                   mret (Some (wrap ("failed to restart " +:+ service) e))
               | None => print ("Restarted: " +:+ service);; mret None
               end)
           else if restart_force f then
             print "Force recreating all containers...";;
             err ← Docker.Down sys compose false true;
             match err with
             | Some e => mret (Some (wrap "failed to stop stack" e))
             | None =>
                 err ← Docker.Up sys compose true false;
                 mret (wrap "failed to start stack" <$> err)
             end
           else
             err ← Restart compose;
             mret (wrap "failed to restart stack" <$> err));
        match err with
        | Some e => mret (Some e)
        | None =>
            print (Deploy.nl +:+ "MediaStack restarted successfully");;
            mret None
        end
    end.

(** [runPull] *)
Definition runPull (cfg : Config.Config) (dryRun verbose : bool)
    (args : list string) : Prog W error :=
  if dryRun then
    print "[dry-run] Would pull Docker images";;
    mret None
  else
    let compose := compose_of cfg verbose in
    err ←
      (if 0 <? List.length args then
         Stack.for_each args (fun service =>
           print ("Pulling image for: " +:+ service);;
           err ← PullService compose service;
           mret (wrap ("failed to pull " +:+ service) <$> err))
       else
         err ← Docker.Pull sys compose;
         mret (wrap "failed to pull images" <$> err));
    match err with
    | Some e => mret (Some e)
    | None =>
        print (Deploy.nl +:+ "All images pulled successfully");;
        mret None
    end.

End Programs.

(** What [Sample.env_file] parses to, and the configuration loaded from it
    when no variant directory has a compose file. *)
Definition sample_env : gmap string string :=
  {[ "FOLDER_FOR_MEDIA" := "/srv/media"; "FOLDER_FOR_DATA" := "/srv/data";
     "PUID" := "1000"; "PGID" := "1000"; "COMPOSE_PROJECT_NAME" := "";
     "CONFIG" := "/srv/data/sonarr" ]}.

Definition sample_cfg : Config.Config :=
  {| Config.ConfigDir := "/opt/stack/base-working-files";
     Config.MediaFolder := "/srv/media"; Config.DataFolder := "/srv/data";
     Config.PUID := 1000; Config.PGID := 1000;
     Config.Variant := "full-download-vpn";
     Config.ProjectName := "mediastack";
     Config.DockerSubnet := "172.28.0.0/16";
     Config.DockerGateway := "172.28.0.1";
     Config.LocalSubnet := "192.168.0.0/16"; Config.Timezone := "UTC";
     Config.PostgresPassword := ""; Config.Env := sample_env |}.

(** The number of occurrences of the byte [c] in [s]. *)
Fixpoint count_byte (c : ascii) (s : string) : nat :=
  match s with
  | EmptyString => 0
  | String d s' => (if Ascii.eqb d c then 1 else 0) + count_byte c s'
  end.

(** No value of the map holds the byte [c]. *)
Definition values_without (c : ascii) (m : gmap string string) : Prop :=
  forall k v, m !! k = Some v -> has_byte c v = false.

(** The command line of an event that runs the [docker] binary. *)
Definition is_exec (e : event) : option (string * list string) :=
  match e with
  | Event (ExecDocker dir args _) => Some (dir, args)
  | _ => None
  end.

(** A call that deletes a container. *)
Definition is_remove (e : event) : bool :=
  match e with
  | Event (ContainerRemove _ _ _) => true
  | _ => false
  end.

(** A call that prunes images. *)
Definition is_image_prune (e : event) : bool :=
  match e with
  | Event (ImagesPrune _) => true
  | _ => false
  end.

(** Every result of [m] is in [Q]. *)
Definition yields {W A} (Q : A -> Prop) (m : Prog W A) : Prop :=
  forall s : state W, Q (m s).1.

(** A call to the filesystem, or terminal output. *)
Definition is_fs_or_print (e : event) : bool :=
  match e with
  | Event (OsStat _) | Event (OsOpen _) | Event (FilepathGlob _)
  | Event (FilepathWalk _) | Event (OsMkdirAll _ _) | Event (OsChown _ _ _)
  | Event (OsChmod _ _) | Event (OsOpenFileCreateTrunc _ _)
  | Event (OsCreate _) | Event (IoCopy _ _) | Event (Print _) => true
  | _ => false
  end.

(** The sample host with a compose file that does not validate. *)
Definition broken_compose_host : Host.host :=
  {| Host.files := ∅; Host.umask := oct "022";
     Host.process_owner := (1000, 1000)%Z; Host.may_chown := false;
     Host.containers := Host.containers Sample.shared_host;
     Host.health := ∅; Host.volumes := []; Host.networks := [];
     Host.cli := fun _ =>
       ("services.sonarr.image must be a string", Some "exit status 15");
     Host.glob := fun _ => [] |}.

(** A host where a regular file sits at the first path of the data
    catalogue. *)
Definition blocked_host : Host.host :=
  Host.with_files Sample.shared_host
    {[ "/srv/data/authentik/certs" :=
         {| Host.mode := oct "0644"; Host.owner := (0, 0)%Z;
            Host.content := ""; Host.is_dir := false |} ]}.

(** The reference host behind a daemon whose inspect responses come
    without [State]. *)
Definition stateless_run (A : Type) (c : call A)
    : Host.host -> A * Host.host :=
  match c in call A return Host.host -> A * Host.host with
  | ContainerInspectHealth id => fun h => (Ok NoState, h)
  | c' => Host.host_run _ c'
  end.

Definition stateless_daemon : System Host.host.
Proof. refine {| run := stateless_run |}. intros A c h. by destruct c. Defined.

(** A host whose daemon lists a container with a truncated id. *)
Definition short_id_host : Host.host :=
  Host.with_containers Sample.shared_host
    [Sample.container "5f0c1d2e" "/mediastack-sonarr-1" "running" "mediastack"
       "sonarr" []].

(** The error texts [runDeploy] can return start with one of these. *)
Definition fatal_phases : list string :=
  ["failed to create directories"; "failed to copy config files";
   "compose configuration is invalid"; "failed to pull images";
   "failed to create Docker client"; "failed to start services"].

Definition from_fatal_phase (e : string) : Prop :=
  exists phase, phase ∈ fatal_phases /\ HasPrefix e (phase +:+ ": ") = true.

End More.

(** ** What the commands may do: predicates on results and traces *)

Module Footprint.
Import GoStrings Runtime Stack Docker Deploy More.

(** When the result of [m] is in [Good], the events it added are in [P]. *)
Definition guarded {W A} (Good : A -> Prop) (P : event -> Prop)
    (m : Prog W A) : Prop :=
  forall s : state W,
    Good (m s).1 -> exists evs, trace (m s).2 = trace s ++ evs /\ Forall P evs.

(** An error of [runDeploy] is in [fatal]. *)
Definition fatal (err : error) : Prop :=
  forall e, err = Some e -> from_fatal_phase e.

(** The host [h'] has every path the host [h] has. *)
Definition grows (h h' : Host.host) : Prop :=
  forall p, is_Some (Host.files h !! p) -> is_Some (Host.files h' !! p).

(** [m] removes no path of the reference host. *)
Definition keeps_paths {A} (m : Prog Host.host A) : Prop :=
  obeys grows (fun _ => True) (fun _ => True) m.

(** [mediastack stop] with no flag *)
Definition sample_stop_flags : StopFlags :=
  {| stop_remove_orphans := false; stop_volumes := false;
     stop_prune := false |}.

(** The only call to the runtime is [docker compose config --quiet]. *)
Definition only_validates (fp : FilePath) (cfg : Config.Config)
    (verbose : bool) (ev : event) : Prop :=
  event_reaches_runtime ev = true ->
  is_exec ev
  = Some (Config.ConfigDir cfg,
          baseArgs (compose_of fp cfg verbose) ++ ["config"; "--quiet"]).

Definition invalid_compose {A} (o : outcome (result A)) : Prop :=
  exists e, o = Returned (Err e)
    /\ HasPrefix e "compose configuration is invalid: " = true.

(** What [stop] with service names may do. *)
Definition stops_named (fp : FilePath) (cfg : Config.Config) (verbose : bool)
    (f : StopFlags) (services : list string) (ev : event) : Prop :=
  event_is_print ev = true
  \/ (exists service, service ∈ services
        /\ is_exec ev
           = Some (Config.ConfigDir cfg,
                   baseArgs (compose_of fp cfg verbose) ++ ["stop"; service]))
  \/ (stop_prune f = true
      /\ (ev = Event NewClientWithOpts \/ is_prune ev = Some [])).

(** The compose commands of [restart] without service names. *)
Definition restart_commands : list (list string) :=
  [["pull"]; ["down"; "--remove-orphans"]; ["up"; "-d"; "--remove-orphans"];
   ["restart"]].

Definition restarts_stack (fp : FilePath) (cfg : Config.Config)
    (verbose : bool) (ev : event) : Prop :=
  event_is_print ev = true
  \/ exists args, args ∈ restart_commands
       /\ is_exec ev
          = Some (Config.ConfigDir cfg,
                  baseArgs (compose_of fp cfg verbose) ++ args).

(** No container is removed by id, and images are pruned only when
    [--prune] is given. *)
Definition within_deploy_footprint (f : Flags) (ev : event) : Prop :=
  is_remove ev = false /\ (is_image_prune ev = true -> prune f = true).

(** What makes the loop of [ListContainers] panic at the container [cont]
    on the host state [w]: the composite literal, or the selector on a
    nil [State]. *)
Definition panics_on {W} (sys : System W) (w : W) (cont : Summary) : Prop :=
  base_info cont = None
  \/ (sState cont = "running"
      /\ (run sys (ContainerInspectHealth (sID cont)) w).1 = Ok NoState).

End Footprint.

(** * Properties *)

(** ** Facts about byte strings *)

Module GoStringsFacts.
Import GoStrings.

Lemma app_cons c (s t : string) : String c s +:+ t = String c (s +:+ t).
Proof. reflexivity. Qed.

Lemma app_empty_l (s : string) : "" +:+ s = s.
Proof. reflexivity. Qed.

Lemma app_empty_r (s : string) : s +:+ "" = s.
Proof. induction s as [|c s IH]; [done|]. by rewrite app_cons, IH. Qed.

Lemma app_assoc (s t u : string) : (s +:+ t) +:+ u = s +:+ t +:+ u.
Proof. induction s as [|c s IH]; [done|]. by rewrite !app_cons, IH. Qed.

Lemma len_app (s t : string) : len (s +:+ t) = len s + len t.
Proof. induction s as [|c s IH]; [done|]. rewrite app_cons. simpl. by rewrite IH. Qed.

Lemma from_app (s t : string) : from (len s) (s +:+ t) = t.
Proof. induction s as [|c s IH]; [by destruct t|]. by rewrite app_cons. Qed.

Lemma from_app_plus (s t : string) k : from (len s + k) (s +:+ t) = from k t.
Proof. induction s as [|c s IH]; [done|]. by rewrite app_cons. Qed.

Lemma upto_app (s t : string) : upto (len s) (s +:+ t) = s.
Proof.
  induction s as [|c s IH]; [by destruct t|].
  rewrite app_cons. simpl. by rewrite IH.
Qed.

Lemma slice_app (p s t : string) :
  slice (len p) (len p + len s) (p +:+ s +:+ t) = s.
Proof.
  unfold slice. rewrite from_app.
  replace (len p + len s - len p) with (len s) by lia.
  apply upto_app.
Qed.

Lemma HasPrefix_empty (s : string) : HasPrefix s "" = true.
Proof. by destruct s. Qed.

Lemma HasPrefix_cons c p (s q : string) :
  HasPrefix (String c s) (String p q)
  = if Ascii.eqb c p then HasPrefix s q else false.
Proof. reflexivity. Qed.

Lemma Index_cons c (s sub : string) :
  Index (String c s) sub
  = if HasPrefix (String c s) sub then Some 0 else S <$> Index s sub.
Proof. reflexivity. Qed.

Lemma Index_empty (sub : string) :
  Index "" sub = if HasPrefix "" sub then Some 0 else None.
Proof. reflexivity. Qed.

Lemma Index_here (s sub : string) : HasPrefix s sub = true -> Index s sub = Some 0.
Proof.
  intros H. destruct s; [rewrite Index_empty|rewrite Index_cons]; by rewrite H.
Qed.

Lemma HasPrefix_app (s t : string) : HasPrefix (s +:+ t) s = true.
Proof.
  induction s as [|c s IH]; [apply HasPrefix_empty|].
  by rewrite app_cons, HasPrefix_cons, Ascii.eqb_refl.
Qed.

(** An occurrence found in a prefix is found in the whole string. *)
Lemma HasPrefix_app_l (s t sub : string) :
  HasPrefix s sub = true -> HasPrefix (s +:+ t) sub = true.
Proof.
  revert sub. induction s as [|c s IH]; intros [|d sub] H.
  - apply HasPrefix_empty.
  - done.
  - apply HasPrefix_empty.
  - rewrite app_cons, HasPrefix_cons. rewrite HasPrefix_cons in H.
    destruct (Ascii.eqb c d); [by apply IH|done].
Qed.

Lemma Index_app_None (s t sub : string) :
  Index (s +:+ t) sub = None -> Index s sub = None.
Proof.
  induction s as [|c s IH]; intros H.
  - destruct sub as [|d sub]; [|done].
    by rewrite (Index_here _ "" (HasPrefix_empty _)) in H.
  - rewrite app_cons, Index_cons in H. rewrite Index_cons.
    destruct (HasPrefix (String c s) sub) eqn:Hp.
    + apply (HasPrefix_app_l _ t) in Hp. rewrite app_cons in Hp.
      by rewrite Hp in H.
    + destruct (HasPrefix (String c (s +:+ t)) sub); [done|].
      destruct (Index (s +:+ t) sub) eqn:Hi; [done|].
      by rewrite IH.
Qed.

(** The first [${] of [s +:+ "${" +:+ t] starts right after [s] when [s]
    has none. *)
Lemma Index_dollar_brace (s t : string) :
  Index s "${" = None -> Index (s +:+ "${" +:+ t) "${" = Some (len s).
Proof.
  induction s as [|c s IH]; intros H; [reflexivity|].
  rewrite Index_cons in H. rewrite app_cons, Index_cons.
  destruct (HasPrefix (String c s) "${") eqn:Hp; [done|].
  destruct (Index s "${") eqn:Hi; [done|].
  rewrite IH by done.
  assert (HasPrefix (String c (s +:+ "${" +:+ t)) "${" = false) as ->; [|done].
  rewrite HasPrefix_cons in Hp |- *.
  destruct (Ascii.eqb c "$"); [|done].
  destruct s as [|d s]; [done|].
  rewrite app_cons, HasPrefix_cons. rewrite HasPrefix_cons in Hp.
  destruct (Ascii.eqb d "{"); [|done].
  by rewrite HasPrefix_empty in Hp.
Qed.

(** The first [}] of [s +:+ "}" +:+ t] closes right after [s] when [s] has
    none. *)
Lemma Index_close (s t : string) :
  has_byte "}" s = false -> Index (s +:+ "}" +:+ t) "}" = Some (len s).
Proof.
  induction s as [|c s IH]; intros H; [reflexivity|].
  simpl in H. rewrite app_cons, Index_cons, HasPrefix_cons.
  destruct (Ascii.eqb c "}"); [done|]. by rewrite IH.
Qed.

Lemma Index_byte_None c (s : string) :
  has_byte c s = false -> Index s (String c "") = None.
Proof.
  induction s as [|d s IH]; intros H; [done|].
  simpl in H. rewrite Index_cons, HasPrefix_cons.
  destruct (Ascii.eqb d c); [done|]. by rewrite IH.
Qed.

(** The first [:-] of [s +:+ ":-" +:+ t] when [s] has none. *)
Lemma Index_colon_dash (s t : string) :
  Index s ":-" = None -> Index (s +:+ ":-" +:+ t) ":-" = Some (len s).
Proof.
  induction s as [|c s IH]; intros H; [reflexivity|].
  rewrite Index_cons in H. rewrite app_cons, Index_cons.
  destruct (HasPrefix (String c s) ":-") eqn:Hp; [done|].
  destruct (Index s ":-") eqn:Hi; [done|].
  rewrite IH by done.
  assert (HasPrefix (String c (s +:+ ":-" +:+ t)) ":-" = false) as ->; [|done].
  rewrite HasPrefix_cons in Hp |- *.
  destruct (Ascii.eqb c ":"); [|done].
  destruct s as [|d s]; [done|].
  rewrite app_cons, HasPrefix_cons. rewrite HasPrefix_cons in Hp.
  destruct (Ascii.eqb d "-"); [|done].
  by rewrite HasPrefix_empty in Hp.
Qed.

End GoStringsFacts.

(** ** The environment-file parser *)

Module ConfigFacts.
Import GoStrings GoStringsFacts Config.

(** The closing brace of a reference that starts the string. *)
Lemma Index_close_ref (body rest : string) :
  has_byte "}" body = false ->
  Index ("${" +:+ body +:+ "}" +:+ rest) "}" = Some (2 + len body).
Proof.
  intros H. change ("${" +:+ body +:+ "}" +:+ rest)
    with (String "$" (String "{" (body +:+ "}" +:+ rest))).
  rewrite !Index_cons, !HasPrefix_cons. simpl Ascii.eqb. cbv iota.
  by rewrite Index_close.
Qed.

(** One iteration replaces the leftmost reference by its value and leaves
    the text around it alone. *)
Lemma expand_iteration_leftmost environ env (acc body rest : string) :
  Index acc "${" = None ->
  has_byte "}" body = false ->
  expand_iteration environ env (acc +:+ "${" +:+ body +:+ "}" +:+ rest)
  = Some (acc +:+ var_value environ env body +:+ rest).
Proof.
  intros Hacc Hbody. unfold expand_iteration.
  rewrite Index_dollar_brace by done. rewrite from_app.
  rewrite Index_close_ref by done. cbv zeta.
  rewrite upto_app.
  replace (slice (len acc + 2) (2 + len body + len acc) _) with body.
  2:{ replace (len acc + 2) with (len (acc +:+ "${")) by (rewrite len_app; done).
      replace (2 + len body + len acc) with (len (acc +:+ "${") + len body)
        by (rewrite len_app; simpl; lia).
      rewrite <- (app_assoc acc "${"). by rewrite slice_app. }
  replace (2 + len body + len acc + 1) with (len acc + S (S (len body + 1)))
    by lia.
  rewrite from_app_plus.
  change (from (S (S (len body + 1))) ("${" +:+ body +:+ "}" +:+ rest))
    with (from (len body + 1) (body +:+ "}" +:+ rest)).
  by rewrite from_app_plus.
Qed.

Lemma var_value_ref environ env name :
  Index name ":-" = None ->
  var_value environ env name = spec_resolve environ env (Ref name).
Proof.
  intros H. unfold var_value. rewrite H. simpl.
  destruct (env !! name); [done|]. by destruct (environ !! name).
Qed.

Lemma var_value_default environ env name default_ :
  Index name ":-" = None ->
  var_value environ env (name +:+ ":-" +:+ default_)
  = spec_resolve environ env (RefDefault name default_).
Proof.
  intros H. unfold var_value. rewrite Index_colon_dash by done. cbv zeta.
  rewrite upto_app.
  replace (from (len name + 2) (name +:+ ":-" +:+ default_)) with default_; [done|].
  replace (len name + 2) with (len (name +:+ ":-")) by (rewrite len_app; done).
  rewrite <- (from_app (name +:+ ":-") default_) at 1. by rewrite app_assoc.
Qed.

Lemma has_byte_app c (s t : string) :
  has_byte c (s +:+ t) = has_byte c s || has_byte c t.
Proof.
  induction s as [|d s IH]; [done|].
  rewrite app_cons. simpl. by destruct (Ascii.eqb d c).
Qed.

Lemma expand_loop_break fuel environ env (s : string) :
  Index s "${" = None -> expand_loop (S fuel) environ env s = Some s.
Proof. intros H. simpl. unfold expand_iteration. by rewrite H. Qed.

(** The loop on [acc] followed by the text of [segs], [acc] being text that
    is already expanded. *)
Lemma expand_loop_segments environ env segs : forall fuel (acc : string),
  Forall well_delimited segs ->
  Index (acc +:+ spec_expand environ env segs) "${" = None ->
  count_refs segs < fuel ->
  expand_loop fuel environ env (acc +:+ render_all segs)
  = Some (acc +:+ spec_expand environ env segs).
Proof.
  induction segs as [|seg segs IH]; intros fuel acc Hwd Hout Hfuel.
  - destruct fuel as [|fuel]; [inversion Hfuel|].
    by apply expand_loop_break.
  - apply Forall_cons in Hwd as [Hseg Hwd].
    change (render_all (seg :: segs)) with (render seg +:+ render_all segs).
    change (spec_expand environ env (seg :: segs))
      with (spec_resolve environ env seg +:+ spec_expand environ env segs) in *.
    rewrite <- app_assoc in Hout.
    assert (Index acc "${" = None) as Hacc.
    { rewrite app_assoc in Hout. by apply Index_app_None in Hout. }
    destruct seg as [text|name|name default_].
    + rewrite <- !app_assoc. by apply IH.
    + destruct Hseg as [Hname Hcolon].
      destruct fuel as [|fuel]; [inversion Hfuel|].
      cbn [render]. rewrite !app_assoc. cbn [expand_loop].
      rewrite expand_iteration_leftmost by done.
      rewrite var_value_ref by done. rewrite <- !app_assoc.
      apply IH; [done..|]. unfold count_refs in *. simpl in Hfuel. lia.
    + destruct Hseg as (Hname & Hcolon & Hdef).
      destruct fuel as [|fuel]; [inversion Hfuel|].
      cbn [render]. rewrite !app_assoc. cbn [expand_loop].
      rewrite <- (app_assoc name), <- (app_assoc (name +:+ ":-")).
      rewrite expand_iteration_leftmost; [|done|].
      2:{ rewrite !has_byte_app, Hname, Hdef. done. }
      rewrite app_assoc, var_value_default by done. rewrite <- !app_assoc.
      apply IH; [done..|]. unfold count_refs in *. simpl in Hfuel. lia.
Qed.

(** C7, as amended.  When the expanded text has no [${] left to rescan,
    every [${VAR}] and [${VAR:-default}] occurrence of a value is replaced
    by what it resolves to: the already-parsed key, else the default
    literal for the form with a default, else the process environment
    variable for the plain form.  The loop reaches this result after one
    iteration per occurrence. *)
Theorem expandVariables_resolves_occurrences environ env segs fuel :
  Forall well_delimited segs ->
  Index (spec_expand environ env segs) "${" = None ->
  count_refs segs < fuel ->
  expandVariables fuel environ (render_all segs) env
  = Some (spec_expand environ env segs).
Proof.
  intros Hwd Hout Hfuel. unfold expandVariables.
  by apply (expand_loop_segments environ env segs fuel "").
Qed.

Lemma expandVariables_resolves_occurrences_witness :
  let environ : gmap string string := {[ "HOME" := "/root" ]} in
  let env : gmap string string := {[ "DATA" := "/srv" ]} in
  let segs := [Ref "DATA"; Lit "/"; RefDefault "SUB" "cfg"; Lit "/";
               Ref "HOME"; Lit ".d"] in
  expandVariables 4 environ (render_all segs) env
  = Some (spec_expand environ env segs).
Proof.
  intros environ env segs.
  apply (expandVariables_resolves_occurrences environ env segs 4).
  - repeat constructor.
  - by vm_compute.
  - vm_compute. lia.
Defined.

(** C7, as written, fails on the code: substituted text is scanned again.
    The lines [A=${] and [B=${A}}] parse to a map that binds [A] to [${]
    and [B] to the empty string, where resolving the one reference of
    [${A}}] against the parsed keys gives [${}].  *)
Lemma expandVariables_rescans_substituted_text :
  ¬ resolves_every_value
  /\ parse_lines 8 ∅ ∅ ["A=${"; "B=${A}}"]
     = Some {[ "A" := "${"; "B" := "" ]}
  /\ spec_expand ∅ {[ "A" := "${" ]} [Ref "A"; Lit "}"] = "${}".
Proof.
  split_and!.
  - intros Hclaim.
    destruct (Hclaim ∅ {[ "A" := "${" ]} [Ref "A"; Lit "}"]) as [fuel Hrun].
    { by repeat constructor. }
    destruct fuel as [|[|[|fuel]]]; by vm_compute in Hrun.
  - vm_compute. reflexivity.
  - reflexivity.
Qed.

(** The same value, written out. *)
Example expandVariables_sample :
  expandVariables 4 {[ "HOME" := "/root" ]}
    "${DATA}/${SUB:-cfg}/${HOME}.d" {[ "DATA" := "/srv" ]}
  = Some "/srv/cfg//root.d".
Proof. by vm_compute. Qed.

(** C9, at the failing input.  With [X] set to the text [${X}] in the
    process environment, every iteration of the loop of [expandVariables]
    on [${X}] ends with [result] equal to [${X}] again: no number of
    iterations reaches a [break]. *)
Theorem expandVariables_self_reference_never_returns fuel :
  expandVariables fuel {[ "X" := "${X}" ]} "${X}" ∅ = None.
Proof.
  unfold expandVariables. induction fuel as [|fuel IH]; [done|].
  cbn [expand_loop].
  by replace (expand_iteration {[ "X" := "${X}" ]} ∅ "${X}")
    with (Some "${X}") by (by vm_compute).
Qed.

(** A line is parsed against the keys of the lines before it. *)
Lemma parse_lines_snoc fuel environ env ls l :
  parse_lines fuel environ env (ls ++ [l])
  = parse_lines fuel environ env ls ≫= fun env' =>
    parse_line fuel environ env' l.
Proof.
  revert env. induction ls as [|l' ls IH]; intros env; cbn.
  - by destruct (parse_line fuel environ env l).
  - destruct (parse_line fuel environ env l') as [env'|]; [apply IH|done].
Qed.

Example ParseEnvFile_sample :
  ParseEnvFile 8 ∅ Sample.env_file
  = Some (Ok {[ "FOLDER_FOR_MEDIA" := "/srv/media";
                "FOLDER_FOR_DATA" := "/srv/data";
                "PUID" := "1000"; "PGID" := "1000";
                "COMPOSE_PROJECT_NAME" := "";
                "CONFIG" := "/srv/data/sonarr" ]}).
Proof. vm_compute. reflexivity. Qed.

(** The same with the self-reference in the key map passed by the caller. *)
Lemma expandVariables_self_reference_in_map fuel :
  expandVariables fuel ∅ "${X}" {[ "X" := "${X}" ]} = None.
Proof.
  unfold expandVariables. induction fuel as [|fuel IH]; [done|].
  cbn [expand_loop].
  by replace (expand_iteration ∅ {[ "X" := "${X}" ]} "${X}")
    with (Some "${X}") by (by vm_compute).
Qed.

End ConfigFacts.

(** ** Running programs *)

Module ProgFacts.
Import Runtime.

Section Run.
Context {W : Type}.

Lemma run_bind {A B} (m : Prog W A) (f : A -> Prog W B) (s : state W) :
  (m ≫= f) s = f (m s).1 (m s).2.
Proof. unfold mbind, Prog_bind. by destruct (m s). Qed.

Lemma run_ret {A} (a : A) (s : state W) : (mret a : Prog W A) s = (a, s).
Proof. reflexivity. Qed.

Lemma run_perform {A} (sys : System W) (c : call A) (s : state W) :
  perform sys c s
  = ((run sys c (world s)).1,
     {| world := (run sys c (world s)).2; trace := trace s ++ [Event c] |}).
Proof. unfold perform. by destruct (run sys c (world s)). Qed.

End Run.

Section Obeys.
Context {W : Type} (sys : System W).
Context (I : W -> W -> Prop) `{!Reflexive I, !Transitive I}.
Context (P : event -> Prop).

Lemma obeys_ret {A} (Q : A -> Prop) (a : A) :
  Q a -> obeys I P Q (mret a : Prog W A).
Proof.
  intros Ha s. cbn. split_and!; [done..|].
  exists []. by rewrite app_nil_r.
Qed.

Lemma obeys_bind {A B} (Q : A -> Prop) (R : B -> Prop)
    (m : Prog W A) (f : A -> Prog W B) :
  obeys I P Q m -> (forall a, Q a -> obeys I P R (f a)) ->
  obeys I P R (m ≫= f).
Proof.
  intros Hm Hf s. rewrite run_bind.
  destruct (Hm s) as (Ha & Hw & evs & Ht & Hevs).
  destruct (Hf _ Ha (m s).2) as (Hb & Hw' & evs' & Ht' & Hevs').
  split_and!; [done|by etrans|].
  exists (evs ++ evs'). split; [|by apply Forall_app].
  by rewrite Ht', Ht, (assoc_L (++)).
Qed.

Lemma obeys_seq {A B} (R : B -> Prop) (m : Prog W A) (k : Prog W B) :
  obeys I P (fun _ => True) m -> obeys I P R k -> obeys I P R (m ;; k).
Proof. intros Hm Hk. by apply (obeys_bind (fun _ => True)). Qed.

Lemma obeys_weaken {A} (Q Q' : A -> Prop) (m : Prog W A) :
  (forall a, Q a -> Q' a) -> obeys I P Q m -> obeys I P Q' m.
Proof. intros HQ Hm s. destruct (Hm s) as (? & ? & ?). auto. Qed.

Lemma obeys_perform {A} (Q : A -> Prop) (c : call A) :
  P (Event c) ->
  (forall w, Q (run sys c w).1 /\ I w (run sys c w).2) ->
  obeys I P Q (perform sys c).
Proof.
  intros Hc Hrun s. rewrite run_perform. cbn.
  destruct (Hrun (world s)) as [? ?]. split_and!; [done..|].
  exists [Event c]. split; [done|]. by apply Forall_singleton.
Qed.

Lemma obeys_when (cond : bool) (body : Prog W unit) :
  obeys I P (fun _ => True) body ->
  obeys I P (fun _ => True) (when cond body).
Proof. intros Hb. destruct cond; [done|]. by apply obeys_ret. Qed.

Lemma obeys_for_each {A} (Q : error -> Prop) (l : list A)
    (body : A -> Prog W error) :
  Q None -> (forall x, x ∈ l -> obeys I P Q (body x)) ->
  obeys I P Q (Stack.for_each l body).
Proof.
  intros HQ. induction l as [|x l IH]; intros Hbody.
  - by apply obeys_ret.
  - cbn [Stack.for_each]. apply (obeys_bind Q).
    + apply Hbody. by left.
    + intros [e|] He; [by apply obeys_ret|].
      apply IH. intros y Hy. apply Hbody. by right.
Qed.

End Obeys.

Global Instance any_change_refl {W} : Reflexive (@any_change W).
Proof. done. Qed.

Global Instance any_change_trans {W} : Transitive (@any_change W).
Proof. done. Qed.

Section Emits.
Context {W : Type} (sys : System W) (P : event -> Prop).

Lemma emits_ret {A} (a : A) : emits P (mret a : Prog W A).
Proof. by apply obeys_ret; [apply _|]. Qed.

Lemma emits_bind {A B} (m : Prog W A) (f : A -> Prog W B) :
  emits P m -> (forall a, emits P (f a)) -> emits P (m ≫= f).
Proof.
  intros Hm Hf. apply (obeys_bind _ _ (fun _ => True)); [done|].
  intros a _. apply Hf.
Qed.

Lemma emits_perform {A} (c : call A) : P (Event c) -> emits P (perform sys c).
Proof. intros Hc. by apply obeys_perform. Qed.

Lemma emits_print text :
  (forall t, P (Event (Print t))) -> emits P (print sys text).
Proof. intros HP. by apply emits_perform. Qed.

Lemma emits_when (cond : bool) (body : Prog W unit) :
  emits P body -> emits P (when cond body).
Proof. apply obeys_when. apply _. Qed.

Lemma emits_for_each {A} (l : list A) (body : A -> Prog W error) :
  (forall x, x ∈ l -> emits P (body x)) -> emits P (Stack.for_each l body).
Proof. intros Hb. by apply obeys_for_each; [apply _..| |]. Qed.

Lemma emits_trace {A} (m : Prog W A) (s : state W) :
  emits P m -> exists evs, trace (m s).2 = trace s ++ evs /\ Forall P evs.
Proof. intros Hm. by destruct (Hm s) as (_ & _ & ?). Qed.

End Emits.

Section Quiet.
Context {W : Type} (sys : System W).

Lemma quiet_ret {A} (Q : A -> Prop) (a : A) :
  Q a -> quiet Q (mret a : Prog W A).
Proof. apply obeys_ret. apply _. Qed.

Lemma quiet_bind {A B} (Q : A -> Prop) (R : B -> Prop)
    (m : Prog W A) (f : A -> Prog W B) :
  quiet Q m -> (forall a, Q a -> quiet R (f a)) -> quiet R (m ≫= f).
Proof. apply obeys_bind. apply _. Qed.

Lemma quiet_seq {A B} (R : B -> Prop) (m : Prog W A) (k : Prog W B) :
  quiet (fun _ => True) m -> quiet R k -> quiet R (m ;; k).
Proof. apply obeys_seq. apply _. Qed.

Lemma quiet_when (cond : bool) (body : Prog W unit) :
  quiet (fun _ => True) body -> quiet (fun _ => True) (when cond body).
Proof. apply obeys_when. apply _. Qed.

Lemma quiet_for_each {A} (Q : error -> Prop) (l : list A)
    (body : A -> Prog W error) :
  Q None -> (forall x, x ∈ l -> quiet Q (body x)) ->
  quiet Q (Stack.for_each l body).
Proof. apply obeys_for_each; apply _. Qed.

(** A call that only reads, and does not go to the runtime, is harmless
    and leaves the host as it is. *)
Lemma quiet_read {A} (c : call A) :
  mutates c = false -> reaches_runtime c = false ->
  quiet (fun _ => True) (perform sys c).
Proof.
  intros Hm Hr. apply obeys_perform; [done|].
  intros w. split; [done|]. symmetry. by apply run_frame.
Qed.

End Quiet.

End ProgFacts.

(** ** The container runtime facade *)

Module DockerFacts.
Import GoStrings Runtime Docker ProgFacts.

Section Facade.
Context {W : Type} (sys : System W).

Lemma base_info_no_health cont info :
  base_info cont = Some info -> Health info = "" /\ State info = sState cont.
Proof.
  unfold base_info. destruct (len (sID cont) <? 12); [done|].
  destruct (sNames cont); [done|]. by intros [= <-].
Qed.

Lemma inspect_health_fields cont b (s : state W) info :
  base_info cont = Some b ->
  (inspect_health sys cont b s).1 = Returned info ->
  ID info = ID b /\ Name info = Name b /\ Image info = Image b
  /\ State info = State b /\ Status info = Status b
  /\ Created info = Created b
  /\ (Health info ≠ "" -> sState cont = "running").
Proof.
  intros Hbase. apply base_info_no_health in Hbase as [Hh Hs].
  unfold inspect_health.
  destruct (String.eqb (sState cont) "running") eqn:Hstate.
  - apply String.eqb_eq in Hstate. rewrite run_bind.
    destruct (perform sys _ s).1 as [[|[h|]]|]; cbn; [done|..];
      by intros [= <-].
  - cbn. intros [= <-]. by rewrite Hh.
Qed.

Lemma list_loop_health containers : forall acc s infos s',
  Forall health_only_when_running acc ->
  list_loop sys containers acc s = (Returned infos, s') ->
  Forall health_only_when_running infos.
Proof.
  induction containers as [|cont rest IH]; intros acc s infos s' Hacc Hrun.
  - cbn in Hrun. by injection Hrun as <- _.
  - cbn [list_loop] in Hrun.
    destruct (base_info cont) as [b|] eqn:Hbase; [|done].
    rewrite run_bind in Hrun.
    destruct (inspect_health sys cont b s).1 as [info|] eqn:Hinspect; [|done].
    eapply IH; [|exact Hrun].
    apply Forall_app. split; [done|]. apply Forall_singleton.
    destruct (inspect_health_fields cont b s info Hbase Hinspect)
      as (_ & _ & _ & Hstate & _ & _ & Hhealth).
    apply base_info_no_health in Hbase as [_ Hs].
    unfold health_only_when_running. cbn [set_ports Health State].
    intros Hne. rewrite Hstate, Hs. by apply Hhealth.
Qed.

(** The list the loop returns has one record per container listed by the
    daemon, in the same order. *)
Lemma list_loop_infos containers : forall acc s infos s',
  list_loop sys containers acc s = (Returned infos, s') ->
  exists new, infos = acc ++ new /\ Forall2 info_of containers new.
Proof.
  induction containers as [|cont rest IH]; intros acc s infos s' Hrun.
  - cbn in Hrun. injection Hrun as <- _. exists []. by rewrite app_nil_r.
  - cbn [list_loop] in Hrun.
    destruct (base_info cont) as [b|] eqn:Hbase; [|done].
    rewrite run_bind in Hrun.
    destruct (inspect_health sys cont b s).1 as [info|] eqn:Hinspect; [|done].
    apply IH in Hrun as (new & -> & Hnew).
    eexists (_ :: new). split; [by rewrite <- (assoc_L (++))|].
    constructor; [|done].
    destruct (inspect_health_fields cont b s info Hbase Hinspect)
      as (? & ? & ? & ? & ? & ? & _).
    by exists b.
Qed.

Lemma list_loop_emits (P : event -> Prop) containers :
  (forall id, P (Event (ContainerInspectHealth id))) ->
  forall acc, emits P (list_loop sys containers acc).
Proof.
  intros HP. induction containers as [|cont rest IH]; intros acc.
  - apply emits_ret.
  - cbn [list_loop]. destruct (base_info cont) as [b|]; [|apply emits_ret].
    apply emits_bind; [|intros [info|]; [apply IH|apply emits_ret]].
    unfold inspect_health. destruct (String.eqb _ _); [|apply emits_ret].
    apply emits_bind; [by apply emits_perform|].
    intros [[|[h|]]|e]; apply emits_ret.
Qed.

(** Enumeration only asks the daemon to list and to inspect. *)
Lemma ListContainers_emits (P : event -> Prop) (c : Client) (all : bool) :
  (forall filters, P (Event (ContainerList all filters))) ->
  (forall id, P (Event (ContainerInspectHealth id))) ->
  emits P (ListContainers sys c all).
Proof.
  intros Hlist Hinspect. unfold ListContainers.
  apply emits_bind; [by apply emits_perform|].
  intros [containers|e]; [|apply emits_ret].
  apply emits_bind; [by apply list_loop_emits|].
  intros [infos|]; apply emits_ret.
Qed.

(** The first thing enumeration does is to send the list query, with the
    filter built from the client's project name. *)
Lemma ListContainers_query (c : Client) (all : bool) (s : state W) :
  exists rest,
    trace (ListContainers sys c all s).2
    = trace s
      ++ Event (ContainerList all (project_filter (clientProject c))) :: rest.
Proof.
  unfold ListContainers. rewrite run_bind, run_perform. cbn [fst snd].
  match goal with
  | |- context [match ?r with Ok _ => _ | Err _ => _ end ?st] =>
      destruct (emits_trace (fun _ => True)
                  (match r with
                   | Ok containers =>
                       o ← list_loop sys containers [];
                       match o with
                       | Panicked => mret Panicked
                       | Returned infos => mret (Returned (Ok infos))
                       end
                   | Err e =>
                       mret (Returned (Err (wrap "failed to list containers" e)))
                   end) st) as (rest & Hrest & _)
  end.
  { destruct (run sys _ _).1; [|apply emits_ret].
    apply emits_bind; [by apply list_loop_emits|].
    intros [?|]; apply emits_ret. }
  exists rest. rewrite Hrest. cbn [trace]. by rewrite <- (assoc_L (++)).
Qed.

Lemma inspect_health_world cont b (s : state W) :
  world (inspect_health sys cont b s).2 = world s.
Proof.
  unfold inspect_health. destruct (String.eqb _ _); [|done].
  rewrite run_bind, run_perform. cbn [fst snd].
  destruct (run sys _ (world s)).1 as [[|[h|]]|e]; cbn; by apply run_frame.
Qed.



(** C8. In every list that container enumeration returns, a record has a
    non-empty [Health] only if its [State] is [running]; the record of a
    container in any other state has the empty health value, whatever the
    daemon knows about its health checks. *)
Theorem ListContainers_health_only_when_running
    (c : Client) (all : bool) (s s' : state W) (infos : list ContainerInfo) :
  ListContainers sys c all s = (Returned (Ok infos), s') ->
  Forall health_only_when_running infos.
Proof.
  unfold ListContainers. rewrite run_bind.
  destruct (perform sys _ s).1 as [containers|e]; [|done].
  rewrite run_bind.
  destruct (list_loop sys containers [] _) as [[infos'|] s''] eqn:Hloop; [|done].
  cbn. intros [= <- _].
  by eapply list_loop_health; [|exact Hloop].
Qed.

End Facade.

(** C5, at the failing input.  The second flag of [Compose.Up] is [build]:
    called with the caller's force flag set, as [runDeploy] does, it runs
    [docker compose up -d --build --remove-orphans].  No call of [Up]
    passes [--force-recreate], so containers whose configuration is
    unchanged are not recreated. *)
Theorem Up_with_force_passes_build :
  up_args true true = ["up"; "-d"; "--build"; "--remove-orphans"]
  /\ (forall detach build, "--force-recreate" ∉ up_args detach build)
  /\ (forall W (sys : System W) (c : Compose) (s : state W),
        last (trace (Up sys c true true s).2)
        = Some (Event (ExecDocker (configDir c)
                  (baseArgs c ++ ["up"; "-d"; "--build"; "--remove-orphans"])
                  true))).
Proof.
  split_and!.
  - reflexivity.
  - intros [] [] H; cbn in H;
      repeat (apply elem_of_cons in H as [[=]|H]); by apply elem_of_nil in H.
  - intros W sys c s. unfold Up, runCommand. rewrite !run_bind.
    cbn [fst snd]. rewrite run_perform. cbn. apply last_snoc.
Qed.

Lemma ListContainers_health_only_when_running_witness :
  Forall health_only_when_running
    [Sample.sonarr_info; Sample.tdarr_node_info; Sample.old_plex_info].
Proof.
  eapply (ListContainers_health_only_when_running Host.system Sample.client true
            (start Sample.shared_host)).
  vm_compute. reflexivity.
Defined.

End DockerFacts.

(** ** The filesystem provisioner *)

Module StackFacts.
Import GoStrings Runtime Stack ProgFacts.

Section Provisioner.
Context {W : Type} (sys : System W) (fp : FilePath).

Lemma print_harmless text :
  quiet (fun _ => True) (print sys text).
Proof. by apply quiet_read. Qed.

Lemma when_print_harmless cond text :
  quiet (fun _ => True) (when cond (print sys text)).
Proof. apply quiet_when. apply print_harmless. Qed.

(** In a dry run a step only prints and answers [nil]. *)
Lemma dry_step cond text :
  quiet (eq None)
    (when cond (print sys text);; mret None : Prog W error).
Proof.
  apply quiet_seq; [apply when_print_harmless|by apply quiet_ret].
Qed.

Lemma createDir_dry_run path uid gid verbose :
  quiet (eq None) (createDir sys path uid gid verbose true).
Proof. apply dry_step. Qed.

Lemma dry_loop_body (m : Prog W error) (f : error -> error) :
  f None = None ->
  quiet (eq None) m ->
  quiet (eq None) (err ← m; mret (f err)).
Proof.
  intros Hf Hm. apply (quiet_bind (eq None)); [done|].
  intros ? <-. by apply quiet_ret.
Qed.

Lemma dry_then (m k : Prog W error) :
  quiet (eq None) m ->
  quiet (eq None) k ->
  quiet (eq None)
    (err ← m; match err with Some e => mret (Some e) | None => k end).
Proof.
  intros Hm Hk. apply (quiet_bind (eq None)); [done|].
  by intros ? <-.
Qed.

Lemma CreateDirectories_dry_run dataFolder mediaFolder uid gid verbose :
  quiet (eq None)
    (CreateDirectories sys fp dataFolder mediaFolder uid gid verbose true).
Proof.
  unfold CreateDirectories. apply quiet_seq; [|].
  { apply quiet_when.
    repeat (apply quiet_seq; [apply print_harmless|]).
    apply print_harmless. }
  apply dry_then.
  { apply quiet_for_each; [done|]. intros dir _.
    apply dry_loop_body; [done|]. apply createDir_dry_run. }
  apply dry_then.
  { apply quiet_for_each; [done|]. intros dir _.
    apply dry_loop_body; [done|]. apply createDir_dry_run. }
  apply quiet_seq; [apply print_harmless|by apply quiet_ret].
Qed.

Lemma SetPermissions_dry_run paths uid gid verbose :
  quiet (eq None) (SetPermissions sys paths uid gid verbose true).
Proof.
  unfold SetPermissions.
  apply quiet_seq; [apply when_print_harmless|].
  apply dry_then.
  { apply quiet_for_each; [done|]. intros path _. apply dry_step. }
  apply dry_step.
Qed.

Lemma copy_config_files_dry_run manifest special configDir dataFolder uid gid
    verbose :
  quiet (eq None)
    (copy_config_files sys fp manifest special configDir dataFolder uid gid
       verbose true).
Proof.
  unfold copy_config_files.
  apply quiet_seq; [apply when_print_harmless|].
  apply dry_then.
  { apply quiet_for_each; [done|]. intros cf _. apply dry_step. }
  apply dry_then.
  { apply quiet_for_each; [done|]. intros sf _. apply dry_step. }
  apply quiet_seq; [apply print_harmless|by apply quiet_ret].
Qed.

Lemma SetConfigPermissions_dry_run configDir uid gid verbose :
  quiet (eq None)
    (SetConfigPermissions sys fp configDir uid gid verbose true).
Proof.
  unfold SetConfigPermissions.
  apply quiet_seq; [apply when_print_harmless|].
  apply quiet_for_each; [done|]. intros pattern _.
  apply (quiet_bind (fun _ => True)); [by apply quiet_read|].
  intros [matches|e] _; [|by apply quiet_ret].
  apply quiet_for_each; [done|]. intros match_ _. apply dry_step.
Qed.

Lemma emits_warn_only (P : event -> Prop) verbose (c : call error) text :
  (forall t, P (Event (Print t))) -> P (Event c) ->
  emits P (warn_only sys verbose c text).
Proof.
  intros HP Hc. unfold warn_only. apply emits_bind; [by apply emits_perform|].
  intros [e|]; [|apply emits_ret].
  apply emits_when. by apply emits_print.
Qed.

(** Staging a manifest entry never changes a permission: on no host and
    for no entry does it call [os.Chmod]. *)
Lemma copy_config_file_never_chmods configDir dataFolder uid gid verbose dryRun
    cf :
  emits (fun e => is_chmod e = false)
    (copy_config_file sys fp configDir dataFolder uid gid verbose dryRun cf).
Proof.
  unfold copy_config_file. destruct dryRun.
  { apply emits_bind; [apply emits_when; by apply emits_print|].
    intros; apply emits_ret. }
  apply emits_bind; [by apply emits_perform|]. intros st.
  destruct (IsNotExist st).
  { apply emits_bind; [apply emits_when; by apply emits_print|].
    intros; apply emits_ret. }
  apply emits_bind.
  { unfold copyFile.
    repeat (apply emits_bind; [by apply emits_perform|];
            intros [?|]; [apply emits_ret|]).
    apply emits_ret. }
  intros [e|]; [apply emits_ret|].
  apply emits_bind; [by apply emits_warn_only|]. intros _.
  apply emits_bind; [apply emits_when; by apply emits_print|].
  intros; apply emits_ret.
Qed.

End Provisioner.

(** C6, at the failing input.  The source of the first manifest entry
    exists and its destination is there already with mode 0600.  Staging
    succeeds and the destination has the bytes of the source, but its mode
    is still 0600, not the 0664 of the entry: [copyFile] hands the mode to
    [os.OpenFile], which uses it only for a file it creates, and nothing
    calls [os.Chmod] on the destination afterwards. *)
Theorem staging_keeps_mode_of_existing_destination :
  let r :=
    CopyConfigFiles Host.system Host.unix_path
      "/opt/stack/base-working-files" "/srv/data" 1000 1000 false false
      (start Sample.staging_host) in
  Permission <$> head ConfigFiles = Some (oct "0664")
  /\ r.1 = None
  /\ Host.files (world r.2) !! Sample.staged_destination
     = Some {| Host.mode := oct "0600"; Host.owner := (1000, 1000)%Z;
               Host.content := "server: {}"; Host.is_dir := false |}
  /\ Forall (fun e => is_chmod e = true ->
               e = Event (OsChmod "/srv/data/traefik/letsencrypt/acme.json"
                            (oct "0600")))
       (trace r.2).
Proof.
  intros r. split_and!.
  - reflexivity.
  - by vm_compute.
  - by vm_compute.
  - vm_compute. repeat constructor; done.
Qed.

End StackFacts.

(** ** The deployment orchestrator *)

Module DeployFacts.
Import GoStrings Runtime Docker Deploy ProgFacts DockerFacts StackFacts.

Section Orchestrator.
Context {W : Type} (sys : System W) (fp : FilePath).

Lemma deploy_print_harmless text :
  quiet (fun _ => True) (print sys text).
Proof. by apply quiet_read. Qed.

Lemma provision_dry_run cfg verbose f :
  quiet (eq None) (provision sys fp cfg true verbose f).
Proof.
  unfold provision. apply dry_then.
  { destruct (no_directories f); cbn [negb].
    - apply quiet_seq; [apply deploy_print_harmless|by apply quiet_ret].
    - apply quiet_seq; [apply deploy_print_harmless|].
      apply dry_loop_body; [done|]. apply CreateDirectories_dry_run. }
  apply quiet_seq; [apply deploy_print_harmless|].
  apply (quiet_bind (eq None)); [apply SetConfigPermissions_dry_run|].
  intros ? <-. destruct (no_files f); cbn [negb].
  - apply quiet_seq; [apply deploy_print_harmless|by apply quiet_ret].
  - apply quiet_seq; [apply deploy_print_harmless|].
    apply dry_loop_body; [done|]. apply copy_config_files_dry_run.
Qed.

Lemma steps_1_to_7_dry_run cfg verbose f :
  quiet (eq (Returned (inl None)))
    (steps_1_to_7 sys fp cfg true verbose f).
Proof.
  unfold steps_1_to_7.
  repeat (apply quiet_seq; [apply deploy_print_harmless|]).
  apply quiet_seq; [|].
  { apply quiet_when.
    apply quiet_seq; [apply deploy_print_harmless..]. }
  apply (quiet_bind (eq None)); [apply provision_dry_run|].
  intros ? <-.
  apply quiet_seq; [apply deploy_print_harmless|by apply quiet_ret].
Qed.

Lemma runDeploy_dry_run cfg verbose f :
  quiet (eq (Returned None)) (runDeploy sys fp cfg true verbose f).
Proof.
  unfold runDeploy.
  apply (quiet_bind (eq (Returned (inl None))));
    [apply steps_1_to_7_dry_run|].
  intros ? <-. by apply quiet_ret.
Qed.

Lemma runDeploy_dry_run_last cfg verbose f (s : state W) :
  last (trace (runDeploy sys fp cfg true verbose f s).2)
  = Some (Event (Print
      (nl +:+ "[dry-run] Would validate, pull, and start containers"))).
Proof.
  unfold runDeploy, steps_1_to_7. rewrite !run_bind.
  match goal with
  | |- context [provision sys fp ?c true verbose f ?st] =>
      destruct (provision_dry_run c verbose f st) as [H _];
      destruct (provision sys fp c true verbose f st) as [err st'];
      cbn in H; subst err
  end.
  cbn. rewrite !run_bind. unfold print. rewrite run_perform. cbn. apply last_snoc.
Qed.

Lemma emits_warn (P : event -> Prop) (m : Prog W error) text :
  (forall t, P (Event (Print t))) -> emits P m -> emits P (warn sys m text).
Proof.
  intros HP Hm. unfold warn. apply emits_bind; [done|].
  intros [e|]; [by apply emits_print|apply emits_ret].
Qed.


(** The two counters of the verification loop add up to the number of
    services looked at. *)
Lemma tally_total compose services : forall running failed (s : state W),
  let t := (tally sys compose services running failed s).1 in
  t.1 + t.2 = running + failed + List.length services.
Proof.
  induction services as [|service rest IH]; intros running failed s.
  - cbn. lia.
  - cbn [tally]. rewrite run_bind.
    destruct (IsRunning sys compose service s).1 as [[|]|e].
    + cbn zeta in IH. rewrite IH. cbn. lia.
    + rewrite run_bind. cbn zeta in IH. rewrite IH. cbn. lia.
    + rewrite run_bind. cbn zeta in IH. rewrite IH. cbn. lia.
Qed.

(** What verification hands back is a tally or nothing. *)
Lemma verify_summary compose (s : state W) :
  match (verify sys compose s).1 with
  | Some t =>
      exists services s',
        (ConfigServices sys compose s').1 = Ok services
        /\ t.1 + t.2 = List.length services
  | None => True
  end.
Proof.
  unfold verify. rewrite !run_bind.
  match goal with
  | |- context [ConfigServices sys compose ?st] =>
      destruct (ConfigServices sys compose st) as [[services|e] s1] eqn:Hcs
  end; cbn [fst snd].
  - rewrite !run_bind. cbn [mret Prog_ret fst].
    exists services. eexists. rewrite Hcs. split; [done|].
    apply (tally_total compose services 0 0).
  - by rewrite run_bind.
Qed.

(** C4. Once bring-up has succeeded, whatever the host answers to the
    enumeration of services and to each running check, also errors, and
    however many services are not running, verification only yields a
    tally, the workflow goes on with the image-pruning phase from where
    verification left the host, and [runDeploy] returns [nil]. *)
Theorem verification_never_fails_deploy cfg verbose f (s s2 : state W)
    compose client :
  steps_1_to_7 sys fp cfg false verbose f s
  = (Returned (inr (compose, client)), s2) ->
  let after_verify := (verify sys compose s2).2 in
  let closing : Prog W error :=
    prune_images sys client f;;
    print sys "";;
    print sys "MediaStack deployed successfully!";;
    mret None in
  match (verify sys compose s2).1 with
  | Some t =>
      exists services s',
        (ConfigServices sys compose s').1 = Ok services
        /\ t.1 + t.2 = List.length services
  | None => True
  end
  /\ runDeploy sys fp cfg false verbose f s
     = (Returned None, (closing after_verify).2).
Proof.
  intros Hsteps after_verify closing. split; [apply verify_summary|].
  unfold runDeploy. rewrite run_bind, Hsteps. cbn [fst snd].
  rewrite run_bind. unfold steps_8_to_9. rewrite run_bind.
  fold after_verify. subst closing.
  rewrite !run_bind. reflexivity.
Qed.

End Orchestrator.

(** C3. With the dry-run flag set, directory creation, config-file
    copying, both permission normalisations and the whole deploy workflow,
    on every host and for every input, return [nil], leave the host as it
    is, and make no call that mutates the filesystem or that reaches the
    container runtime: what they add to the trace is terminal output and
    the pattern lookups of the permission step.  The deploy workflow so
    ends after config staging. *)
Theorem dry_run_changes_nothing {W : Type} (sys : System W) (fp : FilePath) :
  (forall dataFolder mediaFolder uid gid verbose,
      quiet (eq None)
        (Stack.CreateDirectories sys fp dataFolder mediaFolder uid gid verbose
           true))
  /\ (forall configDir dataFolder uid gid verbose,
      quiet (eq None)
        (Stack.CopyConfigFiles sys fp configDir dataFolder uid gid verbose true))
  /\ (forall configDir uid gid verbose,
      quiet (eq None)
        (Stack.SetConfigPermissions sys fp configDir uid gid verbose true))
  /\ (forall paths uid gid verbose,
      quiet (eq None)
        (Stack.SetPermissions sys paths uid gid verbose true))
  /\ (forall cfg verbose f,
      quiet (eq (Returned None))
        (runDeploy sys fp cfg true verbose f))
  /\ (forall cfg verbose f s,
      last (trace (runDeploy sys fp cfg true verbose f s).2)
      = Some (Event (Print
          (nl +:+ "[dry-run] Would validate, pull, and start containers")))).
Proof.
  split_and!; intros.
  - apply CreateDirectories_dry_run.
  - apply copy_config_files_dry_run.
  - apply SetConfigPermissions_dry_run.
  - apply SetPermissions_dry_run.
  - apply runDeploy_dry_run.
  - apply runDeploy_dry_run_last.
Qed.

(** The command lines of [mediastack deploy --force --no-directories
    --no-files] on the sample host: validation, bring-up, the service list
    and one running check per service. *)
Example deploy_force_commands :
  let base := ["compose"; "-f"; "/opt/stack/mini-download-vpn/docker-compose.yaml";
               "--env-file"; "/opt/stack/base-working-files/.env";
               "-p"; "mediastack"] in
  docker_commands
    (trace (runDeploy Host.system Host.unix_path Sample.cfg false false
              {| pull := false; no_directories := true; no_files := true;
                 force := true; prune := false |}
              (start Sample.shared_host)).2)
  = [base ++ ["config"; "--quiet"];
     base ++ ["up"; "-d"; "--build"; "--remove-orphans"];
     base ++ ["config"; "--services"]].
Proof. by vm_compute. Qed.

Lemma verification_never_fails_deploy_witness :
  (runDeploy Host.system Host.unix_path Sample.cfg false false
     Sample.deploy_only (start Sample.shared_host)).1
  = Returned None.
Proof.
  edestruct (verification_never_fails_deploy Host.system Host.unix_path
               Sample.cfg false Sample.deploy_only (start Sample.shared_host))
    as [_ ->].
  - vm_compute. reflexivity.
  - reflexivity.
Defined.

End DeployFacts.

(** ** Project scoping on the reference host *)

Module ScopingFacts.
Import GoStrings Runtime Docker ProgFacts DockerFacts DeployFacts.

(** The query of [ListContainers] carries the project label filter exactly
    when the project name is not empty. *)
Lemma project_filter_empty : project_filter "" = [].
Proof. reflexivity. Qed.

Lemma project_filter_named project :
  project ≠ "" ->
  project_filter project = [("label", project_label +:+ "=" +:+ project)].
Proof.
  intros Hne. unfold project_filter.
  destruct (String.eqb project "") eqn:Heq; [|done].
  by apply String.eqb_eq in Heq.
Qed.

(** What the daemon of the reference host selects under that filter. *)
Lemma label_filter_holds project labels :
  Host.filters_hold [("label", project_label +:+ "=" +:+ project)] labels
  = bool_decide (labels !! project_label = Some project).
Proof. unfold Host.filters_hold. cbn. by rewrite andb_true_r. Qed.

Lemma no_filter_holds labels : Host.filters_hold [] labels = true.
Proof. reflexivity. Qed.

Lemma Forall2_exists_l {A B} (P : A -> B -> Prop) (R : A -> Prop) l k :
  Forall2 P l k -> Forall R l -> Forall (fun y => exists x, R x /\ P x y) k.
Proof. induction 1; inversion 1; constructor; eauto. Qed.

(** On the reference host, enumeration returns one record for each
    container the daemon selects. *)
Lemma ListContainers_selected (c : Client) (all : bool)
    (s s' : state Host.host) infos :
  ListContainers Host.system c all s = (Returned (Ok infos), s') ->
  Forall2 info_of
    (Host.list_containers (world s) all (project_filter (clientProject c)))
    infos.
Proof.
  unfold ListContainers. rewrite run_bind, run_perform. cbn [fst snd].
  change (run Host.system (ContainerList all (project_filter (clientProject c)))
            (world s))
    with (Ok (Host.list_containers (world s) all
                (project_filter (clientProject c))), world s).
  cbn [fst snd]. rewrite run_bind.
  destruct (list_loop _ _ _ _) as [[infos'|] s''] eqn:Hloop; [|done].
  cbn. intros [= <- _].
  by apply list_loop_infos in Hloop as (new & -> & Hnew).
Qed.

Lemma getEnvDefault_nonempty env key defaultVal :
  defaultVal ≠ "" -> Config.getEnvDefault env key defaultVal ≠ "".
Proof.
  intros Hd. unfold Config.getEnvDefault.
  destruct (env !! key) as [val|]; [|done].
  destruct (String.eqb val "") eqn:Heq; [done|].
  by apply String.eqb_neq in Heq.
Qed.

(** The configuration loader never yields an empty project name. *)
Lemma Load_project_named fuel fp environ exists_ file configDir cfg :
  Config.Load fuel fp environ exists_ file configDir = Some (Ok cfg) ->
  Config.ProjectName cfg ≠ "".
Proof.
  unfold Config.Load.
  destruct (Config.ParseEnvFile fuel environ file) as [[env|e]|]; cbn; [|done..].
  case_match; [done|].
  destruct (Atoi _) as [puid|]; [|done].
  destruct (Atoi _) as [pgid|]; [|done].
  intros [= <-]. cbn. by apply getEnvDefault_nonempty.
Qed.

(** C10. The project-label filter is applied only when the client's
    project name is not empty.  Enumeration starts with the list query
    under the filter built from the project name.  With an empty name the
    query carries no filter and, on the reference host, the list has one record for every
    container of the host, the stopped ones included when [all] is set;
    with a name, every record stands for a container with that project
    label.  The configuration loader provides the precondition: the
    project name of a loaded configuration is never empty. *)
Theorem label_filter_needs_project_name (h : Host.host) (all : bool)
    (project : string) (infos : list ContainerInfo) (s' : state Host.host) :
  ListContainers Host.system {| clientProject := project |} all (start h)
  = (Returned (Ok infos), s') ->
  (exists rest,
      trace s' = Event (ContainerList all (project_filter project)) :: rest)
  /\ (project = "" ->
     project_filter project = []
     /\ Forall2 info_of
          (List.filter (fun c => all || Host.is_running c) (Host.containers h))
          infos)
  /\ (project ≠ "" ->
        project_filter project = [("label", project_label +:+ "=" +:+ project)]
        /\ Forall (Host.of_project h project) infos)
  /\ (forall fuel fp environ exists_ file configDir cfg,
        Config.Load fuel fp environ exists_ file configDir = Some (Ok cfg) ->
        Config.ProjectName cfg ≠ "").
Proof.
  intros Hrun.
  assert (exists rest,
    trace s' = Event (ContainerList all (project_filter project)) :: rest)
    as Hquery.
  { destruct (ListContainers_query Host.system {| clientProject := project |}
                all (start h)) as (rest & Hrest).
    rewrite Hrun in Hrest. by exists rest. }
  apply ListContainers_selected in Hrun. cbn in Hrun.
  split_and!; [done|..].
  - intros ->. split; [done|].
    unfold Host.list_containers in Hrun. cbn in Hrun.
    erewrite filter_ext; [exact Hrun|].
    intros c. cbn. by rewrite andb_true_r.
  - intros Hne. split; [by apply project_filter_named|].
    rewrite project_filter_named in Hrun by done.
    apply Forall2_exists_l with (R := fun c =>
      c ∈ Host.containers h /\ sLabels c !! project_label = Some project)
      in Hrun as Hinfos.
    + eapply Forall_impl; [exact Hinfos|]. cbn.
      intros info (c & [Hc Hlabel] & Hinfo). by exists c.
    + unfold Host.list_containers. apply Forall_forall. intros c Hc.
      apply list_elem_of_In, filter_In in Hc as [Hc Hsel].
      apply andb_true_iff in Hsel as [_ Hsel].
      rewrite label_filter_holds in Hsel. apply bool_decide_eq_true in Hsel.
      split; [by apply list_elem_of_In|done].
  - apply Load_project_named.
Qed.

Lemma label_filter_needs_project_name_witness :
  Forall2 info_of [Sample.sonarr; Sample.tdarr_node; Sample.blog_web]
    [Sample.sonarr_info; Sample.tdarr_node_info; Sample.blog_web_info]
  /\ Forall (Host.of_project Sample.shared_host "mediastack")
       [Sample.sonarr_info; Sample.tdarr_node_info]
  /\ (forall cfg,
        Config.Load 8 Host.unix_path ∅ (fun _ => false) Sample.env_file
          "/opt/stack/base-working-files" = Some (Ok cfg) ->
        Config.ProjectName cfg ≠ "").
Proof.
  split_and!.
  - edestruct (label_filter_needs_project_name Sample.shared_host false "")
      as (_ & Hempty & _ & _).
    + vm_compute. reflexivity.
    + by destruct (Hempty eq_refl) as [_ H].
  - edestruct (label_filter_needs_project_name Sample.shared_host false
                 "mediastack") as (_ & _ & Hnamed & _).
    + vm_compute. reflexivity.
    + by destruct (Hnamed ltac:(done)) as [_ H].
  - edestruct (label_filter_needs_project_name Sample.shared_host false "")
      as (_ & _ & _ & Hload).
    + vm_compute. reflexivity.
    + intros cfg. apply Hload.
Defined.

Example Load_sample :
  Config.ProjectName
  <$> (Config.Load 8 Host.unix_path ∅ (fun _ => false) Sample.env_file
         "/opt/stack/base-working-files" ≫= fun r =>
       match r with Ok cfg => Some cfg | Err _ => None end)
  = Some "mediastack".
Proof. by vm_compute. Qed.














(** What the two lookups of the counterexample find. *)
Example FindContainer_by_name :
  found_id (FindContainer Host.system Sample.client "sonarr"
              (start Sample.shared_host)).1 = Some "5f0c1d2e3a4b"
  /\ found_id (FindContainer Host.system Sample.client "sonarr"
                 (start Sample.renamed_host)).1 = None
  /\ found_id (FindContainer Host.system Sample.client "tdarr"
                 (start Sample.shared_host)).1 = Some "6a1b2c3d4e5f".
Proof. by vm_compute. Qed.

(** The prune calls of teardown carry no filter, whatever the project. *)
Lemma prune_stopped_unfiltered {W} (sys : System W) (client : Client) :
  emits (fun e => forall filters, is_prune e = Some filters -> filters = [])
    (Deploy.prune_stopped sys client).
Proof.
  unfold Deploy.prune_stopped.
  repeat (apply emits_bind;
          [apply emits_warn; [done|]; apply emits_perform; by intros ? [= <-]|];
          intros _).
  apply emits_warn; [done|]. apply emits_perform. by intros ? [= <-].
Qed.

(** C2, at the failing input.  On a host shared with another compose
    project, the prune step of teardown, run for the media stack, deletes
    the stopped container, the unused volume and the unused network of the
    other project: the three prune calls are sent with empty filters, not
    with the project label filter that container enumeration uses. *)
Theorem prune_reaches_other_projects :
  let s := Deploy.prune_stopped Host.system Sample.client
             (start Sample.shared_host) in
  project_filter (clientProject Sample.client)
  = [("label", "com.docker.compose.project=mediastack")]
  /\ omap is_prune (trace s.2) = [[]; []; []]
  /\ sLabels Sample.blog_db !! project_label = Some "blog"
  /\ Sample.blog_db ∈ Host.containers Sample.shared_host
  /\ Host.containers (world s.2)
     = [Sample.sonarr; Sample.tdarr_node; Sample.blog_web]
  /\ Host.volumes Sample.shared_host = [Sample.blog_volume]
  /\ Host.volumes (world s.2) = []
  /\ Host.networks Sample.shared_host = [Sample.blog_network]
  /\ Host.networks (world s.2) = [].
Proof.
  intros s. split_and!; try by vm_compute.
  cbn. set_solver.
Qed.

End ScopingFacts.

(** ** More of the environment-file parser and the configuration *)

Module ConfigMoreFacts.
Import GoStrings GoStringsFacts Config More.

Lemma get_app_len (s t : string) c :
  String.get (len s) (s +:+ String c t) = Some c.
Proof. induction s as [|d s IH]; [done|]. by rewrite app_cons. Qed.

(** X1. [trimQuotes] removes exactly one pair of matching quotes: a value
    wrapped in double quotes or in single quotes comes back as it was
    before wrapping, and a value that opens with a double quote and ends
    with a single quote is left alone. *)
Theorem trimQuotes_unwraps_one_pair :
  (forall s, trimQuotes (String "034" (s +:+ String "034" "")) = s)
  /\ (forall s, trimQuotes (String "'" (s +:+ "'")) = s)
  /\ (forall s, trimQuotes (String "034" (s +:+ "'"))
                = String "034" (s +:+ "'")).
Proof.
  assert (forall a b s,
    trimQuotes (String a (s +:+ String b ""))
    = if (Ascii.eqb a "034" && Ascii.eqb b "034")
         || (Ascii.eqb a "'" && Ascii.eqb b "'")
      then s else String a (s +:+ String b "")) as Hgen.
  { intros a b s. unfold trimQuotes.
    assert (len (String a (s +:+ String b "")) = S (S (len s))) as Hlen.
    { cbn. rewrite len_app. cbn. lia. }
    rewrite Hlen. destruct (decide (S (S (len s)) < 2)) as [?|_]; [lia|].
    unfold at_. cbn [String.get].
    replace (S (S (len s)) - 1) with (S (len s)) by lia. cbn [String.get].
    rewrite get_app_len.
    destruct (_ || _); [|done].
    unfold slice. cbn [from]. replace (S (len s) - 1) with (len s) by lia.
    apply upto_app. }
  split_and!; intros s; by rewrite Hgen.
Qed.

Lemma no_spaced_hash_step prev c rest sp :
  Index (String prev (String c rest)) (String sp "#") = None ->
  Ascii.eqb c "#" && Ascii.eqb prev sp = false
  /\ Index (String c rest) (String sp "#") = None.
Proof.
  rewrite Index_cons, !HasPrefix_cons.
  destruct (Ascii.eqb prev sp); [destruct (Ascii.eqb c "#")|].
  - by destruct rest.
  - intros H. split; [done|]. by destruct (Index (String c rest) _).
  - intros H. split; [by rewrite andb_false_r|].
    by destruct (Index (String c rest) _).
Qed.

Lemma removeInlineComment_from_clean rest : forall s i prev,
  Index (String prev rest) " #" = None ->
  Index (String prev rest) (String "009" "#") = None ->
  removeInlineComment_from s i prev rest = s.
Proof.
  induction rest as [|c rest IH]; intros s i prev Hsp Htab; [done|].
  apply no_spaced_hash_step in Hsp as [Hsp Hsp'].
  apply no_spaced_hash_step in Htab as [Htab Htab'].
  cbn [removeInlineComment_from].
  rewrite andb_orb_distrib_r, Hsp, Htab. cbn [orb]. by apply IH.
Qed.

Lemma removeInlineComment_from_cut v : forall s i prev sp c,
  sp = " "%char \/ sp = "009"%char ->
  Index (String prev v) " #" = None ->
  Index (String prev v) (String "009" "#") = None ->
  removeInlineComment_from s i prev (v +:+ String sp (String "#" c))
  = TrimSpace (upto (i + len v) s).
Proof.
  induction v as [|d v IH]; intros s i prev sp c Hwhite Hsp Htab.
  - change ("" +:+ String sp (String "#" c)) with (String sp (String "#" c)).
    cbn [removeInlineComment_from].
    replace (Ascii.eqb sp "#") with false by (by destruct Hwhite as [->| ->]).
    cbn [andb].
    replace (Ascii.eqb "#" "#" && (Ascii.eqb sp " " || Ascii.eqb sp "009"))
      with true by (by destruct Hwhite as [->| ->]).
    cbn. by replace (i - 0) with (i + 0) by lia.
  - apply no_spaced_hash_step in Hsp as [Hsp Hsp'].
    apply no_spaced_hash_step in Htab as [Htab Htab'].
    rewrite app_cons. cbn [removeInlineComment_from].
    rewrite andb_orb_distrib_r, Hsp, Htab. cbn [orb].
    rewrite IH by done. do 2 f_equal. cbn. lia.
Qed.

(** X2. [removeInlineComment] cuts a value at the first [#] that follows a
    space or a tab: what is left is the text before that white space,
    trimmed.  A [#] that follows other text stays in the value, and a
    value without such a [#] is returned as it is. *)
Theorem removeInlineComment_cuts_at_spaced_hash (v c : string) :
  Index v " #" = None ->
  Index v (String "009" "#") = None ->
  removeInlineComment v = v
  /\ removeInlineComment (v +:+ " #" +:+ c) = TrimSpace v
  /\ removeInlineComment (v +:+ String "009" "#" +:+ c) = TrimSpace v.
Proof.
  intros Hsp Htab. destruct v as [|d v].
  - by split_and!.
  - split_and!.
    + cbn [removeInlineComment]. by apply removeInlineComment_from_clean.
    + rewrite app_cons. cbn [removeInlineComment].
      change (" #" +:+ c) with (String " " (String "#" c)).
      rewrite removeInlineComment_from_cut by (done || by left).
      change (1 + len v) with (len (String d v)).
      rewrite <- app_cons. by rewrite upto_app.
    + rewrite app_cons. cbn [removeInlineComment].
      change (String "009" "#" +:+ c) with (String "009" (String "#" c)).
      rewrite removeInlineComment_from_cut by (done || by right).
      change (1 + len v) with (len (String d v)).
      rewrite <- app_cons. by rewrite upto_app.
Qed.

Lemma removeInlineComment_cuts_at_spaced_hash_witness :
  removeInlineComment "pass#word" = "pass#word"
  /\ removeInlineComment ("pass#word" +:+ " #" +:+ " the password")
     = TrimSpace "pass#word"
  /\ removeInlineComment ("pass#word" +:+ String "009" "#" +:+ " the password")
     = TrimSpace "pass#word".
Proof.
  apply (removeInlineComment_cuts_at_spaced_hash "pass#word" " the password").
  - reflexivity.
  - reflexivity.
Defined.

(** A [#] that no space precedes stays in the value. *)
Example removeInlineComment_keeps_inner_hash :
  removeInlineComment "pass#word" = "pass#word".
Proof. reflexivity. Qed.

(** X3. [detectVariant] answers one of the three variant directories, in
    the order full, mini, no-vpn: the answer's compose file exists unless
    none of the three does, in which case the answer is the full variant;
    and no variant earlier in the order has a compose file. *)
Theorem detectVariant_first_existing (fp : FilePath) (exists_ : string -> bool)
    (configDir : string) :
  let file v := Join3 fp (Dir fp configDir) v "docker-compose.yaml" in
  let v := detectVariant fp exists_ configDir in
  v ∈ ["full-download-vpn"; "mini-download-vpn"; "no-download-vpn"]
  /\ (exists_ (file v) = false ->
        v = "full-download-vpn"
        /\ exists_ (file "mini-download-vpn") = false
        /\ exists_ (file "no-download-vpn") = false)
  /\ (v = "mini-download-vpn" -> exists_ (file "full-download-vpn") = false)
  /\ (v = "no-download-vpn" ->
        exists_ (file "full-download-vpn") = false
        /\ exists_ (file "mini-download-vpn") = false).
Proof.
  intros file v. subst v file. unfold detectVariant. cbn [List.find].
  destruct (exists_ (Join3 fp _ "full-download-vpn" _)) eqn:Hfull;
    [|destruct (exists_ (Join3 fp _ "mini-download-vpn" _)) eqn:Hmini;
      [|destruct (exists_ (Join3 fp _ "no-download-vpn" _)) eqn:Hno]];
    cbn beta; (split_and!;
      [repeat first [by left | right]|intros; try done; congruence..]).
Qed.

(** X4. [NormalizeVariant] is idempotent, and it takes every variant name
    that [Config.Validate] accepts, short or long, to one of the three
    variant directories. *)
Theorem NormalizeVariant_idempotent_on_valid :
  (forall v, NormalizeVariant (NormalizeVariant v) = NormalizeVariant v)
  /\ (forall v, v ∈ validVariants ->
        NormalizeVariant v
        ∈ ["full-download-vpn"; "mini-download-vpn"; "no-download-vpn"]).
Proof.
  split.
  - intros v. unfold NormalizeVariant at 2 3.
    destruct (String.eqb v "full") eqn:H1; [done|].
    destruct (String.eqb v "mini") eqn:H2; [done|].
    destruct (String.eqb v "no-vpn") eqn:H3; [done|].
    unfold NormalizeVariant. by rewrite H1, H2, H3.
  - intros v Hv. unfold validVariants in Hv.
    repeat (apply elem_of_cons in Hv as [->|Hv];
            [cbn; repeat first [by left | right]|]).
    by apply elem_of_nil in Hv.
Qed.

Lemma NormalizeVariant_idempotent_on_valid_witness :
  NormalizeVariant "no-vpn"
  ∈ ["full-download-vpn"; "mini-download-vpn"; "no-download-vpn"].
Proof.
  apply (proj2 NormalizeVariant_idempotent_on_valid "no-vpn").
  unfold validVariants. repeat first [by left | right].
Defined.

(** X5. [ValidateRequiredVars] reports exactly the required keys that are
    absent or bound to the empty string, in the order given: it reports
    nothing if and only if every required key has a non-empty value. *)
Theorem ValidateRequiredVars_empty_iff (env : gmap string string)
    (required : list string) :
  (forall key, key ∈ ValidateRequiredVars env required <->
     key ∈ required /\ (env !! key = None \/ env !! key = Some ""))
  /\ (ValidateRequiredVars env required = [] <->
      forall key, key ∈ required ->
        exists val, env !! key = Some val /\ val ≠ "").
Proof.
  assert (forall key, key ∈ ValidateRequiredVars env required <->
     key ∈ required /\ (env !! key = None \/ env !! key = Some "")) as Hin.
  { intros key. unfold ValidateRequiredVars.
    rewrite !list_elem_of_In, filter_In.
    apply and_iff_compat_l.
    destruct (env !! key) as [val|]; [|naive_solver].
    destruct (String.eqb val "") eqn:Hval.
    - apply String.eqb_eq in Hval as ->. naive_solver.
    - apply String.eqb_neq in Hval. split; [done|].
      intros [?|?]; congruence. }
  split; [done|]. split.
  - intros Hnil key Hkey.
    destruct (env !! key) as [val|] eqn:Hlook.
    + exists val. split; [done|]. intros ->.
      assert (key ∈ ValidateRequiredVars env required) as Hbad
        by (apply Hin; auto).
      rewrite Hnil in Hbad. by apply elem_of_nil in Hbad.
    + assert (key ∈ ValidateRequiredVars env required) as Hbad
        by (apply Hin; auto).
      rewrite Hnil in Hbad. by apply elem_of_nil in Hbad.
  - intros Hall.
    destruct (ValidateRequiredVars env required) as [|key rest] eqn:Hres;
      [done|].
    assert (key ∈ key :: rest) as Hbad by left.
    apply Hin in Hbad as [Hkey Hbad].
    destruct (Hall key Hkey) as (val & Hval & Hne).
    destruct Hbad as [Hbad|Hbad]; congruence.
Qed.

Lemma detectVariant_directory fp exists_ configDir :
  detectVariant fp exists_ configDir
  ∈ ["full-download-vpn"; "mini-download-vpn"; "no-download-vpn"].
Proof.
  unfold detectVariant. cbn [List.find].
  repeat (destruct (exists_ _); [repeat first [by left | right]|]).
  by left.
Qed.

(** The required keys of [Load]. *)
Lemma Load_outcome fuel fp environ exists_ file configDir env :
  ParseEnvFile fuel environ file = Some (Ok env) ->
  match env !! "FOLDER_FOR_MEDIA", env !! "FOLDER_FOR_DATA",
        env !! "PUID", env !! "PGID" with
  | Some media, Some data, Some puid, Some pgid =>
      match Atoi puid, Atoi pgid with
      | inl uid, inl gid =>
          exists cfg,
            Load fuel fp environ exists_ file configDir = Some (Ok cfg)
            /\ ConfigDir cfg = configDir /\ Env cfg = env
            /\ MediaFolder cfg = media /\ DataFolder cfg = data
            /\ PUID cfg = uid /\ PGID cfg = gid
            /\ Variant cfg = detectVariant fp exists_ configDir
      | inr e, _ =>
          Load fuel fp environ exists_ file configDir
          = Some (Err (wrap "invalid PUID value" e))
      | inl _, inr e =>
          Load fuel fp environ exists_ file configDir
          = Some (Err (wrap "invalid PGID value" e))
      end
  | _, _, _, _ =>
      exists e,
        Load fuel fp environ exists_ file configDir = Some (Err e)
        /\ HasPrefix e "missing required environment variables: " = true
  end.
Proof.
  intros Hparse. unfold Load. rewrite Hparse. cbn [mbind option_bind].
  cbn [List.filter].
  destruct (env !! "FOLDER_FOR_MEDIA") as [media|];
    destruct (env !! "FOLDER_FOR_DATA") as [data|];
    destruct (env !! "PUID") as [puid|];
    destruct (env !! "PGID") as [pgid|]; cbn;
    try (eexists; split; [reflexivity|reflexivity]).
  destruct (Atoi puid) as [uid|e]; [|done].
  destruct (Atoi pgid) as [gid|e]; [|done].
  eexists. split; [reflexivity|]. by cbn.
Qed.

(** X6. After a successful parse of the environment file, [Load] succeeds
    only with all four required keys present and with [PUID] and [PGID]
    that read as integers, and then the configuration holds the two
    folders, the two numbers and the parsed map; a missing required key
    gives an error that starts with the list of missing keys. *)
Theorem Load_needs_required_keys fuel fp environ exists_ file configDir env :
  ParseEnvFile fuel environ file = Some (Ok env) ->
  (forall cfg,
     Load fuel fp environ exists_ file configDir = Some (Ok cfg) ->
     Env cfg = env /\ ConfigDir cfg = configDir
     /\ env !! "FOLDER_FOR_MEDIA" = Some (MediaFolder cfg)
     /\ env !! "FOLDER_FOR_DATA" = Some (DataFolder cfg)
     /\ (exists puid, env !! "PUID" = Some puid /\ Atoi puid = inl (PUID cfg))
     /\ (exists pgid, env !! "PGID" = Some pgid /\ Atoi pgid = inl (PGID cfg)))
  /\ (forall key,
        key ∈ ["FOLDER_FOR_MEDIA"; "FOLDER_FOR_DATA"; "PUID"; "PGID"] ->
        env !! key = None ->
        exists e,
          Load fuel fp environ exists_ file configDir = Some (Err e)
          /\ HasPrefix e "missing required environment variables: " = true).
Proof.
  intros Hparse.
  pose proof (Load_outcome fuel fp environ exists_ file configDir env Hparse)
    as Hout.
  split.
  - intros cfg Hload.
    destruct (env !! "FOLDER_FOR_MEDIA") as [media|];
      destruct (env !! "FOLDER_FOR_DATA") as [data|];
      destruct (env !! "PUID") as [puid|] eqn:Hpuid;
      destruct (env !! "PGID") as [pgid|] eqn:Hpgid;
      try (destruct Hout as (e & He & _); congruence).
    destruct (Atoi puid) as [uid|e] eqn:Huid; [|congruence].
    destruct (Atoi pgid) as [gid|e] eqn:Hgid; [|congruence].
    destruct Hout as (cfg' & Hload' & ? & ? & ? & ? & ? & ? & ?).
    assert (cfg' = cfg) as -> by congruence.
    split_and!; try congruence; eexists; split; try done; congruence.
  - intros key Hkey Hnone.
    repeat (apply elem_of_cons in Hkey as [->|Hkey];
            [rewrite Hnone in Hout; by repeat case_match|]).
    by apply elem_of_nil in Hkey.
Qed.

Lemma sample_parse : ParseEnvFile 8 ∅ Sample.env_file = Some (Ok sample_env).
Proof. vm_compute. reflexivity. Qed.

Lemma sample_load :
  Load 8 Host.unix_path ∅ (fun _ => false) Sample.env_file
    "/opt/stack/base-working-files" = Some (Ok sample_cfg).
Proof. vm_compute. reflexivity. Qed.

Lemma Load_needs_required_keys_witness :
  sample_env !! "FOLDER_FOR_MEDIA" = Some (MediaFolder sample_cfg)
  /\ exists puid,
       sample_env !! "PUID" = Some puid /\ Atoi puid = inl (PUID sample_cfg).
Proof.
  destruct (Load_needs_required_keys 8 Host.unix_path ∅ (fun _ => false)
              Sample.env_file "/opt/stack/base-working-files" sample_env
              sample_parse) as [Hfields _].
  destruct (Hfields sample_cfg sample_load) as (_ & _ & Hmedia & _ & Hpuid & _).
  by split.
Defined.

(** X7. The variant of a loaded configuration is always one of the three
    variant directories: [Config.Validate] never reports it as invalid,
    and the normalisation at the start of [runDeploy] leaves it as it
    is. *)
Theorem Load_variant_is_valid fuel fp environ exists_ file configDir cfg :
  Load fuel fp environ exists_ file configDir = Some (Ok cfg) ->
  Variant cfg ∈ ["full-download-vpn"; "mini-download-vpn"; "no-download-vpn"]
  /\ NormalizeVariant (Variant cfg) = Variant cfg
  /\ (forall fp' st, ("invalid variant: " +:+ Variant cfg) ∉ Validate fp' st cfg).
Proof.
  intros Hload.
  assert (Variant cfg = detectVariant fp exists_ configDir) as Hv.
  { unfold Load in Hload.
    destruct (ParseEnvFile fuel environ file) as [[env|e]|]; cbn in Hload;
      [|done..].
    repeat case_match; try done. by injection Hload as <-. }
  pose proof (detectVariant_directory fp exists_ configDir) as Hdir.
  rewrite <- Hv in Hdir. split; [done|].
  assert (Variant cfg ∈ validVariants) as Hvalid.
  { unfold validVariants.
    repeat (apply elem_of_cons in Hdir as [->|Hdir];
            [repeat first [by left | right]|]).
    by apply elem_of_nil in Hdir. }
  split.
  - repeat (apply elem_of_cons in Hdir as [->|Hdir]; [done|]).
    by apply elem_of_nil in Hdir.
  - intros fp' st. unfold Validate.
    rewrite bool_decide_eq_true_2 by done. cbn [negb].
    intros Hin. repeat case_match;
      repeat (apply elem_of_app in Hin as [Hin|Hin]);
      repeat (apply elem_of_cons in Hin as [[=]|Hin]);
      by apply elem_of_nil in Hin.
Qed.

Lemma Load_variant_is_valid_witness :
  NormalizeVariant (Variant sample_cfg) = Variant sample_cfg.
Proof.
  by destruct (Load_variant_is_valid 8 Host.unix_path ∅ (fun _ => false)
                 Sample.env_file "/opt/stack/base-working-files" sample_cfg
                 sample_load) as (_ & Hnorm & _).
Defined.

Lemma parse_line_keeps_keys fuel environ env text env' key :
  parse_line fuel environ env text = Some env' ->
  is_Some (env !! key) -> is_Some (env' !! key).
Proof.
  unfold parse_line. intros Hline Hkey.
  destruct (_ || _); [by injection Hline as <-|].
  destruct (Index _ "=") as [idx|]; [|by injection Hline as <-].
  destruct (expandVariables _ _ _ _) as [value|]; [|done].
  cbn in Hline. injection Hline as <-.
  apply lookup_insert_is_Some'. by right.
Qed.

(** X8. Parsing never drops a key: every key bound before a run of lines
    is still bound after it (a later line can only rebind it). *)
Theorem parse_lines_keeps_keys fuel environ ls : forall env env' key,
  parse_lines fuel environ env ls = Some env' ->
  is_Some (env !! key) -> is_Some (env' !! key).
Proof.
  induction ls as [|l ls IH]; intros env env' key Hls Hkey.
  - by injection Hls as <-.
  - cbn in Hls.
    destruct (parse_line fuel environ env l) as [env1|] eqn:Hline; [|done].
    cbn in Hls. eapply IH; [exact Hls|].
    by eapply parse_line_keeps_keys.
Qed.

Lemma parse_lines_keeps_keys_witness :
  is_Some (({[ "PUID" := "0"; "PGID" := "0" ]} : gmap string string) !! "PUID").
Proof.
  apply (parse_lines_keeps_keys 4 ∅ ["PUID=0"; "PGID=${PUID}"]
           {[ "PUID" := "1000" ]} {[ "PUID" := "0"; "PGID" := "0" ]} "PUID").
  - by vm_compute.
  - by eexists.
Defined.

Lemma count_byte_app c (s t : string) :
  count_byte c (s +:+ t) = count_byte c s + count_byte c t.
Proof.
  induction s as [|d s IH]; [done|]. rewrite app_cons. cbn. rewrite IH. lia.
Qed.

Lemma upto_from n (s : string) : upto n s +:+ from n s = s.
Proof.
  revert n. induction s as [|d s IH]; intros [|n]; try done.
  cbn [upto from]. by rewrite app_cons, IH.
Qed.

Lemma from_from a k (s : string) : from k (from a s) = from (a + k) s.
Proof.
  revert a. induction s as [|d s IH]; intros [|a]; try done.
  - by destruct k.
  - cbn [from Nat.add]. apply IH.
Qed.

Lemma count_byte_from_le c n (s : string) :
  count_byte c (from n s) <= count_byte c s.
Proof. rewrite <- (upto_from n s) at 2. rewrite count_byte_app. lia. Qed.

Lemma count_byte_upto_mono c (s : string) : forall n m,
  n <= m -> count_byte c (upto n s) <= count_byte c (upto m s).
Proof.
  induction s as [|d s IH]; intros n m Hnm.
  - by destruct n, m.
  - destruct n as [|n]; [cbn; lia|]. destruct m as [|m]; [lia|].
    cbn. specialize (IH n m). lia.
Qed.

Lemma count_byte_absent c (s : string) :
  has_byte c s = false -> count_byte c s = 0.
Proof.
  induction s as [|d s IH]; [done|]. cbn.
  destruct (Ascii.eqb d c); [done|]. intros H. by rewrite IH.
Qed.

(** Where [strings.Index] finds [sub], [sub] is. *)
Lemma Index_found (s sub : string) i :
  Index s sub = Some i -> HasPrefix (from i s) sub = true.
Proof.
  revert i. induction s as [|d s IH]; intros i.
  - rewrite Index_empty. destruct (HasPrefix "" sub) eqn:Hp; [|done].
    by intros [= <-].
  - rewrite Index_cons. destruct (HasPrefix (String d s) sub) eqn:Hp.
    + by intros [= <-].
    + destruct (Index s sub) as [j|]; [|done]. cbn. intros [= <-].
      by apply IH.
Qed.

Lemma var_value_count environ env name :
  values_without "$" env -> values_without "$" environ ->
  count_byte "$" (var_value environ env name) <= count_byte "$" name.
Proof.
  intros Henv Henviron. unfold var_value.
  destruct (Index name ":-") as [idx|].
  - cbn zeta. destruct (env !! upto idx name) as [val|] eqn:Hval;
      [|apply count_byte_from_le].
    destruct (String.eqb val ""); [apply count_byte_from_le|].
    rewrite (count_byte_absent _ val); [lia|]. by eapply Henv.
  - destruct (env !! name) as [val|] eqn:Hval.
    { rewrite (count_byte_absent _ val); [lia|]. by eapply Henv. }
    destruct (environ !! name) as [val|] eqn:Hval'; [|cbn; lia].
    rewrite (count_byte_absent _ val); [lia|]. by eapply Henviron.
Qed.

(** An iteration of the loop removes at least one [$] when no looked-up
    value brings one in. *)
Lemma expand_iteration_consumes environ env (s r : string) :
  values_without "$" env -> values_without "$" environ ->
  expand_iteration environ env s = Some r ->
  count_byte "$" r < count_byte "$" s.
Proof.
  intros Henv Henviron. unfold expand_iteration.
  destruct (Index s "${") as [start|] eqn:Hstart; [|done].
  destruct (Index (from start s) "}") as [end0|] eqn:Hend; [|done].
  cbn zeta. intros [= <-].
  apply Index_found in Hstart.
  destruct (from start s) as [|c1 t'] eqn:Ht; [done|].
  rewrite HasPrefix_cons in Hstart.
  destruct (Ascii.eqb c1 "$") eqn:Hc1; [|done].
  destruct t' as [|c2 T]; [done|].
  rewrite HasPrefix_cons in Hstart.
  destruct (Ascii.eqb c2 "{") eqn:Hc2; [|done].
  apply Ascii.eqb_eq in Hc1 as ->. apply Ascii.eqb_eq in Hc2 as ->.
  assert (from (start + 2) s = T) as HT.
  { rewrite <- from_from, Ht. done. }
  assert (count_byte "$" s = count_byte "$" (upto start s) + 1 + count_byte "$" T)
    as Hs.
  { rewrite <- (upto_from start s) at 1. rewrite count_byte_app, Ht. cbn. lia. }
  pose proof (var_value_count environ env
                (slice (start + 2) (end0 + start) s) Henv Henviron) as Hvalue.
  unfold slice in Hvalue at 2. rewrite HT in Hvalue.
  replace (end0 + start - (start + 2)) with (end0 - 2) in Hvalue by lia.
  assert (count_byte "$" (upto (end0 - 2) T)
          + count_byte "$" (from (end0 + start + 1) s) <= count_byte "$" T)
    as Hrest.
  { replace (end0 + start + 1) with (start + (end0 + 1)) by lia.
    rewrite <- from_from, Ht.
    destruct end0 as [|end0].
    - cbn. lia.
    - replace (S end0 + 1) with (S (S end0)) by lia. cbn [from].
      replace (S end0 - 2) with (end0 - 1) by lia.
      rewrite <- (upto_from end0 T) at 3. rewrite count_byte_app.
      pose proof (count_byte_upto_mono "$" T (end0 - 1) end0). lia. }
  rewrite !count_byte_app. lia.
Qed.

Lemma expand_loop_terminates environ env :
  values_without "$" env -> values_without "$" environ ->
  forall fuel (s : string),
    count_byte "$" s < fuel ->
    exists r, expand_loop fuel environ env s = Some r
              /\ expand_iteration environ env r = None.
Proof.
  intros Henv Henviron. induction fuel as [|fuel IH]; intros s Hfuel; [lia|].
  cbn [expand_loop].
  destruct (expand_iteration environ env s) as [r|] eqn:Hiter.
  - apply IH. apply expand_iteration_consumes in Hiter; [lia|done..].
  - by exists s.
Qed.

(** X9. When no value of the key map and none of the process environment
    holds a [$], [expandVariables] returns on every input: one more
    iteration than the input has [$] bytes is enough, and the loop's
    [break] condition holds of what it returns. *)
Theorem expandVariables_returns_without_dollar_values environ env (s : string) :
  values_without "$" env -> values_without "$" environ ->
  exists r,
    expandVariables (S (count_byte "$" s)) environ s env = Some r
    /\ expand_iteration environ env r = None.
Proof.
  intros Henv Henviron. unfold expandVariables.
  apply expand_loop_terminates; [done..|lia].
Qed.

Lemma expandVariables_returns_without_dollar_values_witness :
  exists r,
    expandVariables 5 ∅ "${A:-${B:-$x}}/${C" {[ "B" := "b" ]} = Some r
    /\ expand_iteration ∅ {[ "B" := "b" ]} r = None.
Proof.
  apply (expandVariables_returns_without_dollar_values ∅ {[ "B" := "b" ]}
           "${A:-${B:-$x}}/${C").
  - intros k v Hkv. apply lookup_singleton_Some in Hkv as [_ <-]. reflexivity.
  - intros k v Hkv. by rewrite lookup_empty in Hkv.
Defined.

Example expandVariables_nested_default :
  expandVariables 5 ∅ "${A:-${B:-$x}}/${C" {[ "B" := "b" ]} = Some "b/${C".
Proof. vm_compute. reflexivity. Qed.

End ConfigMoreFacts.

(** ** More of the provisioner, the facade and the commands *)

Module ProgramMoreFacts.
Import GoStrings GoStringsFacts Runtime Stack Docker Deploy More ProgFacts
  DockerFacts StackFacts DeployFacts.

Section Yields.
Context {W : Type}.

Lemma yields_ret {A} (Q : A -> Prop) (a : A) :
  Q a -> yields Q (mret a : Prog W A).
Proof. by intros Ha s. Qed.

Lemma yields_bind {A B} (Q : A -> Prop) (R : B -> Prop) (m : Prog W A)
    (f : A -> Prog W B) :
  yields Q m -> (forall a, Q a -> yields R (f a)) -> yields R (m ≫= f).
Proof. intros Hm Hf s. rewrite run_bind. apply Hf, Hm. Qed.

Lemma yields_then {A B} (R : B -> Prop) (m : Prog W A) (f : A -> Prog W B) :
  (forall a, yields R (f a)) -> yields R (m ≫= f).
Proof. intros Hf s. rewrite run_bind. apply Hf. Qed.

Lemma yields_for_each {A} (Q : error -> Prop) (l : list A)
    (body : A -> Prog W error) :
  Q None -> (forall x, x ∈ l -> yields Q (body x)) ->
  yields Q (for_each l body).
Proof.
  intros HQ. induction l as [|x l IH]; intros Hbody.
  - by apply yields_ret.
  - cbn [for_each]. apply (yields_bind Q); [apply Hbody; by left|].
    intros [e|] He; [by apply yields_ret|].
    apply IH. intros y Hy. apply Hbody. by right.
Qed.

Lemma emits_weaken {A} (P P' : event -> Prop) (m : Prog W A) :
  (forall e, P e -> P' e) -> emits P m -> emits P' m.
Proof.
  intros HP Hm s. destruct (Hm s) as (? & ? & evs & ? & Hevs).
  split_and!; [done..|]. exists evs. split; [done|].
  by eapply Forall_impl.
Qed.

End Yields.

Lemma HasPrefix_wrap p e : HasPrefix (wrap p e) (p +:+ ": ") = true.
Proof. unfold wrap. rewrite <- app_assoc. apply HasPrefix_app. Qed.

Section Programs.
Context {W : Type} (sys : System W) (fp : FilePath).

Lemma yields_warn_only verbose (c : call error) text (k : Prog W error)
    (Q : error -> Prop) :
  yields Q k -> yields Q (warn_only sys verbose c text;; k).
Proof. intros Hk. by apply yields_then. Qed.

(** X10. In [createDir] only the creation itself is fatal: what it returns
    is what [os.MkdirAll] returned, whether or not the ownership and the
    permission change that follow succeed. *)
Theorem createDir_fails_only_on_mkdir path uid gid verbose (s : state W) :
  (createDir sys path uid gid verbose false s).1
  = (run sys (OsMkdirAll path (oct "0775")) (world s)).1.
Proof.
  unfold createDir. rewrite run_bind, run_perform. cbn [fst snd].
  destruct (run sys _ (world s)).1 as [e|]; [done|].
  symmetry. apply (yields_then (eq None)). intros _.
  apply yields_then. intros _. apply yields_then. intros _.
  by apply yields_ret.
Qed.

(** X11. [SetConfigPermissions] never returns an error, dry run or not:
    a pattern that cannot be matched is skipped and a failed permission or
    ownership change is at most a warning. *)
Theorem SetConfigPermissions_never_fails configDir uid gid verbose dryRun
    (s : state W) :
  (SetConfigPermissions sys fp configDir uid gid verbose dryRun s).1 = None.
Proof.
  symmetry. revert s. change (yields (eq None)
    (SetConfigPermissions sys fp configDir uid gid verbose dryRun)).
  unfold SetConfigPermissions. apply yields_then. intros _.
  apply yields_for_each; [done|]. intros pattern _.
  apply yields_then. intros [matches|e]; [|by apply yields_ret].
  apply yields_for_each; [done|]. intros match_ _.
  unfold set_config_permission. destruct dryRun.
  - apply yields_then. intros _. by apply yields_ret.
  - repeat (apply yields_then; intros _). by apply yields_ret.
Qed.

(** An error of [createDir] is the error of its [os.MkdirAll], and nothing
    is done after it. *)
Lemma createDir_error path uid gid verbose dryRun (s : state W) e :
  (createDir sys path uid gid verbose dryRun s).1 = Some e ->
  dryRun = false
  /\ perform sys (OsMkdirAll path (oct "0775")) s
     = (Some e, (createDir sys path uid gid verbose dryRun s).2).
Proof.
  unfold createDir. destruct dryRun.
  - rewrite run_bind. by cbn.
  - rewrite run_bind.
    destruct (perform sys (OsMkdirAll path (oct "0775")) s) as [[e0|] s1];
      cbn [fst snd].
    + cbn. by intros [= ->].
    + rewrite !run_bind. by cbn.
Qed.

(** A loop of [CreateDirectories] that returns an error has just failed
    to create one directory of its list. *)
Lemma create_loop_error folder (text : string -> string) uid gid verbose dryRun
    (dirs : list string) : forall (s : state W) e,
  let loop :=
    for_each dirs (fun dir =>
      err ← createDir sys (Join fp folder dir) uid gid verbose dryRun;
      mret (wrap (text dir) <$> err)) in
  (loop s).1 = Some e ->
  exists dir e' s0,
    dir ∈ dirs /\ e = wrap (text dir) e'
    /\ perform sys (OsMkdirAll (Join fp folder dir) (oct "0775")) s0
       = (Some e', (loop s).2).
Proof.
  induction dirs as [|d dirs IH]; intros s e loop; subst loop; [done|].
  cbn [for_each]. rewrite !run_bind. cbn [mret Prog_ret fst snd].
  pose proof (createDir_error (Join fp folder d) uid gid verbose dryRun s)
    as Hd.
  destruct (createDir sys (Join fp folder d) uid gid verbose dryRun s).1
    as [e0|].
  - cbn. intros [= <-]. destruct (Hd e0 eq_refl) as [_ Hcall].
    exists d, e0, s. split_and!; [by left|done..].
  - cbn [fmap option_fmap option_map]. intros Hrest.
    destruct (IH _ _ Hrest) as (dir & e' & s0 & Hin & He & Hcall).
    exists dir, e', s0. split_and!; [by right|done..].
Qed.

(** X12. When [CreateDirectories] fails, the last thing it has done is the
    [os.MkdirAll] of one directory of the catalogue, which failed, and the
    error is the error of that call wrapped in a text that names that
    directory. *)
Theorem CreateDirectories_error_names_directory dataFolder mediaFolder uid gid
    verbose dryRun (s : state W) e :
  (CreateDirectories sys fp dataFolder mediaFolder uid gid verbose dryRun s).1
  = Some e ->
  exists dir e' s0,
    (dir ∈ DataDirectories
     /\ e = wrap ("failed to create data directory " +:+ dir) e'
     /\ perform sys (OsMkdirAll (Join fp dataFolder dir) (oct "0775")) s0
        = (Some e',
           (CreateDirectories sys fp dataFolder mediaFolder uid gid verbose
              dryRun s).2))
    \/ (dir ∈ MediaDirectories
        /\ e = wrap ("failed to create media directory " +:+ dir) e'
        /\ perform sys (OsMkdirAll (Join fp mediaFolder dir) (oct "0775")) s0
           = (Some e',
              (CreateDirectories sys fp dataFolder mediaFolder uid gid verbose
                 dryRun s).2)).
Proof.
  unfold CreateDirectories. rewrite run_bind.
  set (s1 := (when verbose _ s).2). rewrite run_bind.
  pose proof (create_loop_error dataFolder
                (fun dir => "failed to create data directory " +:+ dir)
                uid gid verbose dryRun DataDirectories s1) as Hdata.
  cbn zeta in Hdata.
  destruct (for_each DataDirectories _ s1).1 as [e1|].
  { cbn. intros [= <-].
    destruct (Hdata e1 eq_refl) as (dir & e' & s0 & Hin & He & Hcall).
    exists dir, e', s0. by left. }
  clear Hdata. set (s2 := (for_each DataDirectories _ s1).2). rewrite run_bind.
  pose proof (create_loop_error mediaFolder
                (fun dir => "failed to create media directory " +:+ dir)
                uid gid verbose dryRun MediaDirectories s2) as Hmedia.
  cbn zeta in Hmedia.
  destruct (for_each MediaDirectories _ s2).1 as [e2|].
  { cbn. intros [= <-].
    destruct (Hmedia e2 eq_refl) as (dir & e' & s0 & Hin & He & Hcall).
    exists dir, e', s0. by right. }
  rewrite run_bind. by cbn.
Qed.

(** X13. A manifest entry whose source does not exist is skipped: staging
    it returns [nil], leaves the host as it is and makes no mutating
    call. *)
Theorem missing_source_is_skipped configDir dataFolder uid gid verbose cf
    (s : state W) :
  (run sys (OsStat (Join fp configDir (Source cf))) (world s)).1 = StatNotExist ->
  let r :=
    copy_config_file sys fp configDir dataFolder uid gid verbose false cf s in
  r.1 = None /\ world r.2 = world s
  /\ exists evs, trace r.2 = trace s ++ evs /\ Forall harmless evs.
Proof.
  intros Hstat r. subst r. unfold copy_config_file.
  rewrite run_bind, run_perform. cbn [fst snd]. rewrite Hstat. cbn [IsNotExist].
  match goal with
  | |- context [(when verbose (print sys ?t);; mret None) ?st] =>
      destruct (dry_step sys verbose t st) as (Hr & Hw & evs & Ht & Hev)
  end.
  split_and!.
  - done.
  - rewrite <- Hw. cbn. by apply run_frame.
  - eexists (_ :: evs). rewrite Ht. cbn [trace].
    rewrite <- (assoc_L (++)). split; [done|].
    constructor; [done|done].
Qed.

(** X14. When the source cannot be opened, [copyFile] stops there: the
    error says so, the only call made is the failed [os.Open], and the
    host is as it was. *)
Theorem copyFile_stops_at_unreadable_source src dst perm e (s : state W) :
  (run sys (OsOpen src) (world s)).1 = Some e ->
  copyFile sys fp src dst perm s
  = (Some (wrap "failed to open source" e),
     {| world := world s; trace := trace s ++ [Event (OsOpen src)] |}).
Proof.
  intros Hopen. unfold copyFile. rewrite run_bind, run_perform.
  cbn [fst snd]. rewrite Hopen. cbn. do 2 f_equal. by apply run_frame.
Qed.

Lemma omap_none {A B} (f : A -> option B) (l : list A) :
  Forall (fun x => f x = None) l -> omap f l = [].
Proof. induction 1 as [|x l Hx _ IH]; [done|]. cbn. by rewrite Hx. Qed.

(** One pass of the stop loop of teardown makes one stop call. *)
Lemma stop_body_once client verbose (c : ContainerInfo) (s : state W) :
  let body : Prog W error :=
    when verbose (print sys ("    Stopping: " +:+ Name c));;
    warn sys (StopContainer sys client (ID c))
      ("    Warning: Failed to stop " +:+ Name c);;
    mret None in
  (body s).1 = None
  /\ exists evs, trace (body s).2 = trace s ++ evs /\ omap is_stop evs = [ID c].
Proof.
  intros body. subst body. rewrite !run_bind. cbn [mret Prog_ret fst snd].
  split; [done|].
  unfold warn, StopContainer. rewrite run_bind, run_perform. cbn [fst snd].
  destruct verbose; cbn [when];
    destruct (run sys (ContainerStop (ID c) 30) _).1;
    unfold print; rewrite ?run_perform; cbn [fst snd trace mret Prog_ret];
    rewrite <- ?(assoc_L (++)); eexists; (split; [reflexivity|done]).
Qed.

Lemma stop_loop_all client verbose (infos : list ContainerInfo) :
  forall s : state W,
    let loop :=
      for_each infos (fun c =>
        when verbose (print sys ("    Stopping: " +:+ Name c));;
        warn sys (StopContainer sys client (ID c))
          ("    Warning: Failed to stop " +:+ Name c);;
        mret None) in
    exists evs,
      trace (loop s).2 = trace s ++ evs /\ omap is_stop evs = ID <$> infos.
Proof.
  induction infos as [|c infos IH]; intros s loop; subst loop.
  - exists []. by rewrite app_nil_r.
  - cbn [for_each]. rewrite run_bind.
    destruct (stop_body_once client verbose c s) as (Hr & evs1 & Ht1 & Hs1).
    cbn zeta in Hr, Ht1. rewrite Hr.
    destruct (IH (((when verbose (print sys ("    Stopping: " +:+ Name c));;
                    warn sys (StopContainer sys client (ID c))
                      ("    Warning: Failed to stop " +:+ Name c);;
                    mret None) : Prog W error) s).2) as (evs2 & Ht2 & Hs2).
    cbn zeta in Ht2. exists (evs1 ++ evs2). split.
    + by rewrite Ht2, Ht1, (assoc_L (++)).
    + by rewrite omap_app, Hs1, Hs2.
Qed.

(** X15. Teardown tries to stop every container of its stop list, in
    order and once each, whether or not an earlier stop failed. *)
Theorem stop_existing_tries_every_container client verbose
    (infos : list ContainerInfo) (s : state W) :
  (ListContainers sys client false s).1 = Returned (Ok infos) ->
  exists evs,
    trace (stop_existing sys client verbose s).2 = trace s ++ evs
    /\ omap is_stop evs = ID <$> infos.
Proof.
  intros Hlist. unfold stop_existing. rewrite run_bind, Hlist.
  destruct (emits_trace (fun e => is_stop e = None)
              (ListContainers sys client false) s) as (evs1 & Ht1 & H1).
  { by apply ListContainers_emits. }
  apply omap_none in H1.
  set (s1 := (ListContainers sys client false s).2) in *.
  rewrite run_bind. cbn [mret Prog_ret snd].
  destruct (0 <? List.length infos) eqn:Hlen.
  - rewrite !run_bind. unfold print at 1 3. rewrite !run_perform. cbn [fst snd].
    match goal with
    | |- context [for_each infos ?b ?st] =>
        destruct (stop_loop_all client verbose infos st) as (evs2 & Ht2 & H2)
    end.
    cbn zeta in Ht2. cbn [trace]. rewrite Ht2. cbn [trace]. rewrite Ht1.
    eexists (evs1 ++ [_] ++ evs2 ++ [_]). split.
    + by rewrite <- !(assoc_L (++)).
    + rewrite !omap_app, H1, H2. cbn. by rewrite app_nil_r.
  - destruct infos; [|done]. unfold print. rewrite run_perform. cbn [snd trace].
    rewrite Ht1. eexists (evs1 ++ [_]). split; [by rewrite (assoc_L (++))|].
    by rewrite omap_app, H1.
Qed.

Lemma run_StopContainer client id (s : state W) :
  StopContainer sys client id s
  = ((run sys (ContainerStop id 30) (world s)).1,
     {| world := (run sys (ContainerStop id 30) (world s)).2;
        trace := trace s ++ [Event (ContainerStop id 30)] |}).
Proof. apply run_perform. Qed.

(** The loop of [StopAllProjectContainers]: it stops at the first failure. *)
Lemma stop_all_loop client (infos : list ContainerInfo) : forall s : state W,
  let loop :=
    for_each infos (fun cont =>
      err ← StopContainer sys client (ID cont);
      mret (wrap ("failed to stop container " +:+ Name cont) <$> err)) in
  exists evs,
    trace (loop s).2 = trace s ++ evs
    /\ match (loop s).1 with
       | None => omap is_stop evs = ID <$> infos
       | Some e =>
           exists pre info post,
             infos = pre ++ info :: post
             /\ omap is_stop evs = ID <$> (pre ++ [info])
             /\ HasPrefix e ("failed to stop container " +:+ Name info +:+ ": ")
                = true
       end.
Proof.
  induction infos as [|c infos IH]; intros s loop; subst loop.
  - exists []. by rewrite app_nil_r.
  - cbn [for_each]. rewrite !run_bind, !run_StopContainer. cbn [fst snd].
    destruct (run sys (ContainerStop (ID c) 30) (world s)).1 as [e|] eqn:Hstop.
    + cbn. exists [Event (ContainerStop (ID c) 30)]. split; [done|].
      exists [], c, infos. split_and!; [done..|].
      rewrite <- app_assoc. apply HasPrefix_wrap.
    + cbn [fmap option_fmap option_map mret Prog_ret fst snd].
      match goal with
      | |- context [for_each infos ?b ?st] =>
          destruct (IH st) as (evs & Ht & Hres)
      end.
      cbn zeta in Ht, Hres. exists (Event (ContainerStop (ID c) 30) :: evs).
      split.
      * rewrite Ht. cbn [trace]. by rewrite <- (assoc_L (++)).
      * destruct (for_each infos _ _).1 as [e|].
        -- destruct Hres as (pre & info & post & -> & Hstops & Hpre).
           exists (c :: pre), info, post. split_and!; [done| |done].
           cbn. by rewrite Hstops.
        -- cbn. by rewrite Hres.
Qed.

(** X16. [StopAllProjectContainers] stops at the first failure: it has then
    tried the containers up to and including the one named in the error
    and none after it; when it returns [nil] it has tried all of them. *)
Theorem StopAllProjectContainers_stops_at_first_failure client
    (infos : list ContainerInfo) (s : state W) :
  (ListContainers sys client false s).1 = Returned (Ok infos) ->
  exists evs,
    trace (StopAllProjectContainers sys client s).2 = trace s ++ evs
    /\ match (StopAllProjectContainers sys client s).1 with
       | Returned None => omap is_stop evs = ID <$> infos
       | Returned (Some e) =>
           exists pre info post,
             infos = pre ++ info :: post
             /\ omap is_stop evs = ID <$> (pre ++ [info])
             /\ HasPrefix e ("failed to stop container " +:+ Name info +:+ ": ")
                = true
       | Panicked => False
       end.
Proof.
  intros Hlist. unfold StopAllProjectContainers. rewrite run_bind, Hlist.
  destruct (emits_trace (fun e => is_stop e = None)
              (ListContainers sys client false) s) as (evs1 & Ht1 & H1).
  { by apply ListContainers_emits. }
  apply omap_none in H1.
  set (s1 := (ListContainers sys client false s).2) in *.
  rewrite run_bind. cbn [mret Prog_ret fst snd].
  destruct (stop_all_loop client infos s1) as (evs2 & Ht2 & Hres).
  cbn zeta in Ht2, Hres. exists (evs1 ++ evs2). split.
  - by rewrite Ht2, Ht1, (assoc_L (++)).
  - destruct (for_each infos _ s1).1 as [e|].
    + destruct Hres as (pre & info & post & -> & Hstops & Hpre).
      exists pre, info, post. rewrite omap_app, H1. by split_and!.
    + by rewrite omap_app, H1.
Qed.

End Programs.

Lemma CreateDirectories_error_names_directory_witness :
  let final :=
    (CreateDirectories Host.system Host.unix_path "/srv/data" "/srv/media"
       1000 1000 false false (start blocked_host)).2 in
  let e :=
    "failed to create data directory authentik/certs: /srv/data/authentik/certs: not a directory" in
  exists dir e' s0,
    (dir ∈ DataDirectories
     /\ e = wrap ("failed to create data directory " +:+ dir) e'
     /\ perform Host.system
          (OsMkdirAll (Join Host.unix_path "/srv/data" dir) (oct "0775")) s0
        = (Some e', final))
    \/ (dir ∈ MediaDirectories
        /\ e = wrap ("failed to create media directory " +:+ dir) e'
        /\ perform Host.system
             (OsMkdirAll (Join Host.unix_path "/srv/media" dir) (oct "0775")) s0
           = (Some e', final)).
Proof.
  intros final e.
  apply (CreateDirectories_error_names_directory Host.system Host.unix_path
           "/srv/data" "/srv/media" 1000 1000 false false (start blocked_host)).
  vm_compute. reflexivity.
Defined.

Lemma missing_source_is_skipped_witness :
  let cf := {| Source := "headplane-config.yaml";
               Destination := "headplane/config.yaml";
               Permission := oct "0664" |} in
  let r :=
    copy_config_file Host.system Host.unix_path "/opt/stack/base-working-files"
      "/srv/data" 1000 1000 true false cf (start Sample.shared_host) in
  r.1 = None /\ world r.2 = world (start Sample.shared_host)
  /\ exists evs,
       trace r.2 = trace (start Sample.shared_host) ++ evs
       /\ Forall harmless evs.
Proof.
  intros cf.
  apply (missing_source_is_skipped Host.system Host.unix_path
           "/opt/stack/base-working-files" "/srv/data" 1000 1000 true cf
           (start Sample.shared_host)).
  vm_compute. reflexivity.
Defined.

Lemma copyFile_stops_at_unreadable_source_witness :
  copyFile Host.system Host.unix_path "/opt/stack/missing.yaml"
    "/srv/data/missing.yaml" (oct "0664") (start Sample.shared_host)
  = (Some (wrap "failed to open source"
             (Host.ENOENT "/opt/stack/missing.yaml")),
     {| world := world (start Sample.shared_host);
        trace := trace (start Sample.shared_host)
                 ++ [Event (OsOpen "/opt/stack/missing.yaml")] |}).
Proof.
  apply (copyFile_stops_at_unreadable_source Host.system Host.unix_path).
  vm_compute. reflexivity.
Defined.

Lemma stop_existing_tries_every_container_witness :
  exists evs,
    trace (stop_existing Host.system Sample.client true
             (start Sample.shared_host)).2
    = trace (start Sample.shared_host) ++ evs
    /\ omap is_stop evs = ID <$> [Sample.sonarr_info; Sample.tdarr_node_info].
Proof.
  apply (stop_existing_tries_every_container Host.system Sample.client true
           [Sample.sonarr_info; Sample.tdarr_node_info]
           (start Sample.shared_host)).
  vm_compute. reflexivity.
Defined.

Lemma StopAllProjectContainers_stops_at_first_failure_witness :
  exists evs,
    trace (StopAllProjectContainers Host.system Sample.client
             (start Sample.shared_host)).2
    = trace (start Sample.shared_host) ++ evs
    /\ match (StopAllProjectContainers Host.system Sample.client
                (start Sample.shared_host)).1 with
       | Returned None =>
           omap is_stop evs = ID <$> [Sample.sonarr_info; Sample.tdarr_node_info]
       | Returned (Some e) =>
           exists pre info post,
             [Sample.sonarr_info; Sample.tdarr_node_info] = pre ++ info :: post
             /\ omap is_stop evs = ID <$> (pre ++ [info])
             /\ HasPrefix e ("failed to stop container " +:+ Name info +:+ ": ")
                = true
       | Panicked => False
       end.
Proof.
  apply (StopAllProjectContainers_stops_at_first_failure Host.system
           Sample.client [Sample.sonarr_info; Sample.tdarr_node_info]
           (start Sample.shared_host)).
  vm_compute. reflexivity.
Defined.

End ProgramMoreFacts.

(** ** The commands and the runtime *)

Module CommandFacts.
Import GoStrings GoStringsFacts Runtime Stack Docker Deploy More Footprint
  ProgFacts DockerFacts StackFacts DeployFacts ProgramMoreFacts.

Ltac emits_step :=
  lazymatch goal with
  | |- emits _ (mret _) => apply emits_ret
  | |- emits _ (Runtime.print _ _) => apply emits_print; intros; done
  | |- emits _ (when _ _) => apply emits_when
  | |- emits _ (perform _ _) => apply emits_perform; done
  | |- emits _ (warn_only _ _ _ _) =>
      apply emits_warn_only; [intros; done|done]
  | |- emits _ (for_each _ _) => apply emits_for_each; intros ? _
  | |- emits _ (_ ≫= _) => apply emits_bind; [|intros ?]
  | |- emits _ (match ?x with _ => _ end) => destruct x
  end.

Section Programs.
Context {W : Type} (sys : System W) (fp : FilePath).

Lemma CreateDirectories_emits_fs dataFolder mediaFolder uid gid verbose dryRun :
  emits (fun ev => is_fs_or_print ev = true)
    (CreateDirectories sys fp dataFolder mediaFolder uid gid verbose dryRun).
Proof. unfold CreateDirectories, createDir. repeat emits_step. Qed.

Lemma SetConfigPermissions_emits_fs configDir uid gid verbose dryRun :
  emits (fun ev => is_fs_or_print ev = true)
    (SetConfigPermissions sys fp configDir uid gid verbose dryRun).
Proof.
  unfold SetConfigPermissions, set_config_permission. repeat emits_step.
Qed.

Lemma CopyConfigFiles_emits_fs configDir dataFolder uid gid verbose dryRun :
  emits (fun ev => is_fs_or_print ev = true)
    (CopyConfigFiles sys fp configDir dataFolder uid gid verbose dryRun).
Proof.
  unfold CopyConfigFiles, copy_config_files, copy_config_file,
    handle_special_file, copyFile.
  repeat emits_step.
Qed.

Lemma provision_emits_fs cfg dryRun verbose f :
  emits (fun ev => is_fs_or_print ev = true)
    (provision sys fp cfg dryRun verbose f).
Proof.
  unfold provision. repeat emits_step;
    first [apply CreateDirectories_emits_fs | apply SetConfigPermissions_emits_fs
          | apply CopyConfigFiles_emits_fs].
Qed.

(** X17. The provisioning steps of a deployment (directories, permissions,
    configuration files) only use the filesystem and the terminal: they
    make no call to the [docker] binary or to the Engine API. *)
Theorem provisioning_stays_on_filesystem cfg dryRun verbose f (s : state W) :
  exists evs,
    trace (provision sys fp cfg dryRun verbose f s).2 = trace s ++ evs
    /\ Forall (fun ev => is_fs_or_print ev = true) evs.
Proof. apply emits_trace, provision_emits_fs. Qed.

Lemma SetConfigPermissions_yields_nil configDir uid gid verbose dryRun :
  yields (eq None) (SetConfigPermissions sys fp configDir uid gid verbose dryRun).
Proof.
  unfold SetConfigPermissions. apply yields_then. intros _.
  apply yields_for_each; [done|]. intros pattern _.
  apply yields_then. intros [matches|e]; [|by apply yields_ret].
  apply yields_for_each; [done|]. intros match_ _.
  unfold set_config_permission. destruct dryRun.
  - apply yields_then. intros _. by apply yields_ret.
  - repeat (apply yields_then; intros _). by apply yields_ret.
Qed.

Lemma fatal_wrap phase (err : error) :
  phase ∈ fatal_phases -> fatal (wrap phase <$> err).
Proof.
  intros Hin e. destruct err as [e'|]; [|done]. intros [= <-].
  exists phase. split; [done|]. apply HasPrefix_wrap.
Qed.

Lemma fatal_nil : fatal None.
Proof. by intros e. Qed.

Lemma provision_yields_fatal cfg dryRun verbose f :
  yields fatal (provision sys fp cfg dryRun verbose f).
Proof.
  unfold provision. apply (yields_bind fatal).
  { destruct (negb (no_directories f)).
    - apply yields_then. intros _. apply yields_then. intros err.
      apply yields_ret, fatal_wrap. by left.
    - apply yields_then. intros _. apply yields_ret, fatal_nil. }
  intros [e|] He; [by apply yields_ret|].
  apply yields_then. intros _.
  apply (yields_bind (eq None)); [apply SetConfigPermissions_yields_nil|].
  intros ? <-. destruct (negb (no_files f)).
  - apply yields_then. intros _. apply yields_then. intros err.
    apply yields_ret, fatal_wrap. by right; left.
  - apply yields_then. intros _. apply yields_ret, fatal_nil.
Qed.

Lemma bring_up_yields_fatal cfg verbose f :
  yields (fun o => forall e, o = Returned (Err e) -> from_fatal_phase e)
    (bring_up sys fp cfg verbose f).
Proof.
  assert (forall phase e, phase ∈ fatal_phases ->
            forall e', Returned (Err (wrap phase e))
                       = Returned (Err e' : result (Compose * Client)) ->
                       from_fatal_phase e') as Hw.
  { intros phase e Hin e' [= <-]. exists phase. split; [done|].
    apply HasPrefix_wrap. }
  unfold bring_up. apply yields_then. intros _.
  apply yields_then. intros [e|].
  { apply yields_ret, Hw. by do 2 right; left. }
  apply yields_then. intros _. apply yields_then. intros [e|].
  { apply yields_ret, Hw. by do 3 right; left. }
  apply yields_then. intros _. apply yields_then. intros [client|e].
  2: { apply yields_ret, Hw. by do 4 right; left. }
  apply yields_then. intros [[]|]; [|by apply yields_ret].
  apply yields_then. intros _. apply yields_then. intros _.
  apply yields_then. intros [e|]; [|by apply yields_ret].
  apply yields_ret, Hw. by do 5 right; left.
Qed.

(** X18. Every error [runDeploy] returns comes from one of six phases: creating
    directories, copying files, validating the compose file, pulling
    images, creating the Docker client, starting the services. *)
Theorem runDeploy_error_names_fatal_phase cfg dryRun verbose f (s : state W) e :
  (runDeploy sys fp cfg dryRun verbose f s).1 = Returned (Some e) ->
  from_fatal_phase e.
Proof.
  assert (yields
    (fun o => forall e, o = Returned (Some e) -> from_fatal_phase e)
    (runDeploy sys fp cfg dryRun verbose f)) as Hy;
    [|intros He; by apply (Hy s)].
  unfold runDeploy.
  apply (yields_bind
    (fun o => forall e, o = Returned (inl (Some e)) -> from_fatal_phase e)).
  { unfold steps_1_to_7. repeat (apply yields_then; intros _).
    apply (yields_bind fatal); [apply provision_yields_fatal|].
    intros [e'|] He'.
    { apply yields_ret. intros ? [= <-]. by apply He'. }
    destruct dryRun.
    { apply yields_then. intros _. by apply yields_ret. }
    apply (yields_bind _ _ _ _ (bring_up_yields_fatal _ _ _)).
    intros [[handles|e']|] He''; apply yields_ret; [done| |done].
    intros ? [= <-]. by apply He''. }
  intros [[err|[compose client]]|] Ho.
  - apply yields_ret. intros ? [= ->]. by apply Ho.
  - apply (yields_bind (eq None)).
    { unfold steps_8_to_9. repeat (apply yields_then; intros _).
      by apply yields_ret. }
    intros ? <-. by apply yields_ret.
  - by apply yields_ret.
Qed.

(** *** A compose file that does not validate *)

Section Guarded.
Context {A : Type} (Good : A -> Prop) (P : event -> Prop).

Lemma guarded_emits (m : Prog W A) : emits P m -> guarded Good P m.
Proof. intros Hm s _. by apply emits_trace. Qed.

Lemma guarded_never (m : Prog W A) :
  yields (fun a => ~ Good a) m -> guarded Good P m.
Proof. intros Hm s Hgood. by destruct (Hm s). Qed.

Lemma guarded_bind {B} (m : Prog W B) (f : B -> Prog W A) :
  emits P m -> (forall b, guarded Good P (f b)) -> guarded Good P (m ≫= f).
Proof.
  intros Hm Hf s. rewrite run_bind. intros Hgood.
  destruct (emits_trace P m s Hm) as (evs1 & Ht1 & H1).
  destruct (Hf _ _ Hgood) as (evs2 & Ht2 & H2).
  exists (evs1 ++ evs2). split; [|by apply Forall_app].
  by rewrite Ht2, Ht1, (assoc_L (++)).
Qed.

Lemma guarded_bind_l {B} (Good' : B -> Prop) (m : Prog W B)
    (f : B -> Prog W A) :
  guarded Good' P m ->
  (forall b, yields (fun a => ~ Good a) (f b) \/ (Good' b /\ emits P (f b))) ->
  guarded Good P (m ≫= f).
Proof.
  intros Hm Hf s. rewrite run_bind. intros Hgood.
  destruct (Hf (m s).1) as [Hn|[Hb He]]; [by destruct (Hn (m s).2)|].
  destruct (Hm s Hb) as (evs1 & Ht1 & H1).
  destruct (emits_trace P _ (m s).2 He) as (evs2 & Ht2 & H2).
  exists (evs1 ++ evs2). split; [|by apply Forall_app].
  by rewrite Ht2, Ht1, (assoc_L (++)).
Qed.

End Guarded.

Lemma runCommand_emits (P : event -> Prop) (c : Compose) args stream :
  (forall t, P (Event (Print t))) ->
  P (Event (ExecDocker (configDir c) (baseArgs c ++ args) stream)) ->
  emits P (runCommand sys c args stream).
Proof.
  intros HP Hc. unfold runCommand.
  apply emits_bind; [apply emits_when; by apply emits_print|]. intros _.
  destruct stream.
  - apply emits_bind; [by apply emits_perform|]. intros r. apply emits_ret.
  - apply emits_bind; [by apply emits_perform|]. intros r.
    destruct r.2; [apply emits_ret|].
    apply emits_bind; [apply emits_when; by apply emits_print|].
    intros _. apply emits_ret.
Qed.

Lemma bring_up_guarded cfg verbose f :
  guarded invalid_compose (only_validates fp cfg verbose)
    (bring_up sys fp cfg verbose f).
Proof.
  unfold bring_up. apply guarded_bind; [by apply emits_print|]. intros _.
  apply guarded_bind.
  { unfold Config. apply runCommand_emits; [done|]. by intros _. }
  intros [e|]; [apply guarded_emits, emits_ret|].
  apply guarded_never.
  apply yields_then. intros _. apply yields_then. intros [e|].
  { apply yields_ret. by intros (e' & [= <-] & Hpre). }
  apply yields_then. intros _. apply yields_then. intros [client|e].
  2: { apply yields_ret. by intros (e' & [= <-] & Hpre). }
  apply yields_then. intros [[]|]; [|apply yields_ret; by intros (? & ? & ?)].
  apply yields_then. intros _. apply yields_then. intros _.
  apply yields_then. intros [e|]; apply yields_ret.
  - by intros (e' & [= <-] & Hpre).
  - by intros (e' & [= ] & Hpre).
Qed.


Lemma steps_8_to_9_yields_nil compose client f :
  yields (eq None) (steps_8_to_9 sys compose client f).
Proof.
  unfold steps_8_to_9. repeat (apply yields_then; intros _).
  by apply yields_ret.
Qed.

(** X19. When the compose file does not validate, [runDeploy] stops before it
    touches a container: the only call it has made to the runtime is the
    validation itself. *)
Theorem invalid_compose_file_stops_deploy_before_teardown cfg verbose f
    (s : state W) e :
  (runDeploy sys fp cfg false verbose f s).1 = Returned (Some e) ->
  HasPrefix e "compose configuration is invalid: " = true ->
  exists evs,
    trace (runDeploy sys fp cfg false verbose f s).2 = trace s ++ evs
    /\ Forall (only_validates fp (normalize cfg) verbose) evs.
Proof.
  set (Good := fun o : outcome error =>
    exists e, o = Returned (Some e)
      /\ HasPrefix e "compose configuration is invalid: " = true).
  set (Good1 := fun o : outcome (error + Compose * Client) =>
    exists e, o = Returned (inl (Some e))
      /\ HasPrefix e "compose configuration is invalid: " = true).
  assert (guarded Good (only_validates fp (normalize cfg) verbose)
            (runDeploy sys fp cfg false verbose f)) as Hg;
    [|intros He Hpre; apply Hg; by exists e].
  unfold runDeploy. apply (guarded_bind_l _ _ Good1).
  - unfold steps_1_to_7.
    repeat (apply guarded_bind; [repeat emits_step|intros _]).
    apply guarded_bind.
    { eapply emits_weaken; [|apply provision_emits_fs].
      intros [A c] Hc Hr. by destruct c. }
    intros [e'|]; [apply guarded_emits, emits_ret|].
    apply (guarded_bind_l _ _ invalid_compose); [apply bring_up_guarded|].
    intros [[handles|e']|].
    + left. apply yields_ret. by intros (? & ? & ?).
    + destruct (HasPrefix e' "compose configuration is invalid: ") eqn:Hpre.
      * right. split; [by exists e'|apply emits_ret].
      * left. apply yields_ret. intros (? & [= <-] & ?). congruence.
    + left. apply yields_ret. by intros (? & ? & ?).
  - intros [[[e'|]|[compose client]]|].
    + destruct (HasPrefix e' "compose configuration is invalid: ") eqn:Hpre.
      * right. split; [by exists e'|apply emits_ret].
      * left. apply yields_ret. intros (? & [= <-] & ?). congruence.
    + left. apply yields_ret. by intros (? & ? & ?).
    + left. apply (yields_bind (eq None)); [apply steps_8_to_9_yields_nil|].
      intros ? <-. apply yields_ret. by intros (? & ? & ?).
    + left. apply yields_ret. by intros (? & ? & ?).
Qed.

(** *** The [stop] and [restart] commands *)

(** X20. [stop] with service names stops those services and nothing else: the
    only compose command it runs is [stop <service>] for a named service,
    whatever [--volumes] and [--remove-orphans] say; it reaches the Engine
    API only to prune, and only with [--prune]. *)
Theorem stop_with_services_only_stops_them cfg verbose f services
    (s : state W) :
  services <> [] ->
  exists evs,
    trace (runStop sys fp cfg false verbose f services s).2 = trace s ++ evs
    /\ Forall (stops_named fp cfg verbose f services) evs.
Proof.
  intros Hne. apply emits_trace. unfold runStop.
  destruct services as [|service0 rest] eqn:Hs; [done|]. rewrite <- Hs.
  replace (0 <? List.length services) with true by (by rewrite Hs).
  assert (forall t, stops_named fp cfg verbose f services (Event (Print t)))
    as Hprint by (by left).
  apply emits_bind.
  { apply emits_for_each. intros service Hin.
    apply emits_bind; [by apply emits_print|]. intros _.
    apply emits_bind.
    { unfold StopService. apply runCommand_emits; [done|].
      right; left. by exists service. }
    intros [e|]; [apply emits_ret|].
    apply emits_bind; [by apply emits_print|]. intros _. apply emits_ret. }
  intros [e|]; [apply emits_ret|].
  apply emits_bind.
  { destruct (stop_prune f) eqn:Hprune; [|apply emits_ret].
    apply emits_bind; [by apply emits_print|]. intros _.
    apply emits_bind.
    { unfold NewClient. apply emits_bind.
      - apply emits_perform. right; right. split; [done|by left].
      - intros [e|]; apply emits_ret. }
    intros [client|e]; [|apply emits_ret].
    repeat (apply emits_bind;
            [first [ by apply emits_print
                   | apply emits_warn; [done|];
                     apply emits_perform; right; right; split; [done|by right] ]
            |intros _]).
    apply emits_ret. }
  intros [e|]; [apply emits_ret|].
  apply emits_bind; [by apply emits_print|]. intros _. apply emits_ret.
Qed.

(** X21. [restart] of the whole stack runs no compose command but [pull],
    [down --remove-orphans], [up -d --remove-orphans] and [restart]: it
    never removes volumes, never builds, and makes no Engine API call. *)
Theorem restart_of_stack_runs_four_commands cfg verbose f (s : state W) :
  exists evs,
    trace (runRestart sys fp cfg false verbose f [] s).2 = trace s ++ evs
    /\ Forall (restarts_stack fp cfg verbose) evs.
Proof.
  apply emits_trace.
  assert (forall t, restarts_stack fp cfg verbose (Event (Print t)))
    as Hprint by (by left).
  assert (forall args stream, args ∈ restart_commands ->
            emits (restarts_stack fp cfg verbose)
              (runCommand sys (compose_of fp cfg verbose) args stream)) as Hrun.
  { intros args stream Hin. apply runCommand_emits; [done|].
    right. by exists args. }
  unfold runRestart. cbn [List.length Nat.ltb Nat.leb].
  apply emits_bind.
  { destruct (restart_pull f); [|apply emits_ret].
    apply emits_bind; [by apply emits_print|]. intros _.
    apply emits_bind; [|intros; apply emits_ret].
    unfold Pull. apply emits_bind; [by apply emits_print|]. intros _.
    apply Hrun. by left. }
  intros [e|]; [apply emits_ret|].
  apply emits_bind.
  { destruct (restart_force f).
    - apply emits_bind; [by apply emits_print|]. intros _.
      apply emits_bind.
      { unfold Down. apply emits_bind; [by apply emits_print|]. intros _.
        apply Hrun. by right; left. }
      intros [e|]; [apply emits_ret|].
      apply emits_bind; [|intros; apply emits_ret].
      unfold Up. apply emits_bind; [by apply emits_print|]. intros _.
      apply Hrun. by do 2 right; left.
    - apply emits_bind; [|intros; apply emits_ret].
      unfold Restart. apply emits_bind; [by apply emits_print|]. intros _.
      apply Hrun. by do 3 right; left. }
  intros [e|]; [apply emits_ret|].
  apply emits_bind; [by apply emits_print|]. intros _. apply emits_ret.
Qed.

(** *** Enumeration *)

Lemma base_info_none (cont : Summary) :
  base_info cont = None <-> (len (sID cont) < 12)%nat \/ sNames cont = [].
Proof.
  unfold base_info. destruct (len (sID cont) <? 12) eqn:Hlen.
  - apply Nat.ltb_lt in Hlen. by split; [left|].
  - apply Nat.ltb_ge in Hlen. destruct (sNames cont) as [|name names].
    + by split; [right|].
    + split; [done|]. intros [?|?]; [lia|done].
Qed.

Lemma inspect_health_panics cont b (s : state W) :
  (inspect_health sys cont b s).1 = Panicked
  <-> sState cont = "running"
      /\ (run sys (ContainerInspectHealth (sID cont)) (world s)).1 = Ok NoState.
Proof.
  unfold inspect_health. destruct (String.eqb _ _) eqn:Hstate.
  - apply String.eqb_eq in Hstate. rewrite run_bind, run_perform.
    cbn [fst snd].
    destruct (run sys _ (world s)).1 as [[|[h|]]|e]; cbn;
      split; try done; by intros [_ ?].
  - apply String.eqb_neq in Hstate. cbn. split; [done|]. by intros [? _].
Qed.

Lemma list_loop_panics containers : forall acc (s : state W),
  (list_loop sys containers acc s).1 = Panicked
  <-> Exists (panics_on sys (world s)) containers.
Proof.
  induction containers as [|cont rest IH]; intros acc s.
  - cbn. split; [done|]. by intros ?%Exists_nil.
  - cbn [list_loop]. rewrite Exists_cons. unfold panics_on at 1.
    destruct (base_info cont) as [b|] eqn:Hb.
    + rewrite run_bind.
      pose proof (inspect_health_panics cont b s) as Hinspect.
      pose proof (inspect_health_world sys cont b s) as Hworld.
      destruct (inspect_health sys cont b s).1 as [info|].
      * rewrite IH, Hworld. split; [by right|].
        intros [[Hbase|Hnil]|?]; [congruence| |done].
        by apply Hinspect in Hnil.
      * cbn. split; [|done]. intros _. left. right. by apply Hinspect.
    + cbn. split; [|done]. intros _. by left; left.
Qed.

(** X23. [ListContainers] panics exactly when the daemon lists a container
    whose id has fewer than twelve bytes, or that has no name, or that is
    running and whose inspect response comes without [State]; otherwise
    it returns. *)
Theorem ListContainers_panics_iff_malformed_summary (c : Client) all
    (s : state W) containers :
  (run sys (ContainerList all (project_filter (clientProject c))) (world s)).1
  = Ok containers ->
  (ListContainers sys c all s).1 = Panicked
  <-> Exists (fun cont =>
        (len (sID cont) < 12)%nat \/ sNames cont = []
        \/ (sState cont = "running"
            /\ (run sys (ContainerInspectHealth (sID cont)) (world s)).1
               = Ok NoState))
        containers.
Proof.
  intros Hlist. unfold ListContainers. rewrite run_bind, run_perform.
  cbn [fst snd]. rewrite Hlist, run_bind.
  assert (forall cont,
    panics_on sys (world s) cont
    <-> (len (sID cont) < 12)%nat \/ sNames cont = []
        \/ (sState cont = "running"
            /\ (run sys (ContainerInspectHealth (sID cont)) (world s)).1
               = Ok NoState)) as Hcond.
  { intros cont. unfold panics_on. rewrite base_info_none. tauto. }
  match goal with
  | |- context [list_loop sys containers [] ?st] =>
      pose proof (list_loop_panics containers [] st) as Hloop;
      destruct (list_loop sys containers [] st).1 as [infos|]
  end.
  - cbn. split; [done|]. intros Hex.
    assert (Returned infos = Panicked) as Hno; [|done].
    apply Hloop. cbn [world]. rewrite run_frame by done.
    eapply Exists_impl; [done|]. intros cont. apply Hcond.
  - cbn. split; [|done]. intros _.
    destruct Hloop as [Hloop _]. specialize (Hloop eq_refl).
    cbn [world] in Hloop. rewrite run_frame in Hloop by done.
    eapply Exists_impl; [done|]. intros cont. apply Hcond.
Qed.

Lemma find_first {A} (p : A -> bool) (l : list A) :
  match List.find p l with
  | Some x =>
      exists pre post,
        l = pre ++ x :: post /\ p x = true /\ Forall (fun y => p y = false) pre
  | None => Forall (fun y => p y = false) l
  end.
Proof.
  induction l as [|y l IH]; cbn; [done|].
  destruct (p y) eqn:Hy.
  - by exists [], l.
  - destruct (List.find p l) as [x|].
    + destruct IH as (pre & post & -> & Hx & Hpre).
      exists (y :: pre), post. split_and!; [done..|]. by constructor.
    + by constructor.
Qed.

(** X24. [FindContainer] answers with the first container, in the order of the
    listing, whose name contains the service name as a substring; it
    reports [not found] only when no name contains it. *)
Theorem FindContainer_returns_first_match (c : Client) serviceName
    (s : state W) infos :
  (ListContainers sys c true s).1 = Returned (Ok infos) ->
  match (FindContainer sys c serviceName s).1 with
  | Returned (Ok info) =>
      exists pre post,
        infos = pre ++ info :: post
        /\ Contains (Name info) serviceName = true
        /\ Forall (fun i => Contains (Name i) serviceName = false) pre
  | Returned (Err e) =>
      e = "container not found for service: " +:+ serviceName
      /\ Forall (fun i => Contains (Name i) serviceName = false) infos
  | Panicked => False
  end.
Proof.
  intros Hlist. unfold FindContainer. rewrite run_bind, Hlist.
  pose proof (find_first (fun cont => Contains (Name cont) serviceName) infos)
    as Hfind.
  destruct (List.find _ infos) as [info|]; cbn; [done|].
  by split.
Qed.

(** *** What a deployment does to the runtime *)

Ltac footprint_step :=
  first
    [ lazymatch goal with |- emits _ (when false _) => apply emits_ret end
    | emits_step
    | apply runCommand_emits; [intros; done|done]
    | apply ListContainers_emits; intros; done
    | apply emits_warn; [intros; done|] ].

Lemma tally_emits f compose services : forall running failed,
  emits (within_deploy_footprint f) (tally sys compose services running failed).
Proof.
  induction services as [|service rest IH]; intros running failed.
  - apply emits_ret.
  - cbn [tally]. apply emits_bind.
    { unfold IsRunning, GetContainerID, runCommandOutput.
      repeat footprint_step. }
    intros [[]|e]; [apply IH|..];
      (apply emits_bind; [by apply emits_print|]; intros _; apply IH).
Qed.

(** X22. A deployment never removes a container by id, and prunes images
    only when [--prune] is given. *)
Theorem deploy_prunes_images_only_when_asked cfg dryRun verbose f
    (s : state W) :
  exists evs,
    trace (runDeploy sys fp cfg dryRun verbose f s).2 = trace s ++ evs
    /\ Forall (within_deploy_footprint f) evs.
Proof.
  apply emits_trace.
  unfold runDeploy. apply emits_bind.
  { unfold steps_1_to_7. repeat (apply emits_bind; [repeat emits_step|intros _]).
    apply emits_bind.
    { eapply emits_weaken; [|apply provision_emits_fs].
      intros [A c] Hc. by destruct c. }
    intros [e|]; [apply emits_ret|]. destruct dryRun; [repeat emits_step|].
    apply emits_bind; [|intros [[?|?]|]; apply emits_ret].
    unfold bring_up, Config, Pull, Up, NewClient, stop_existing, prune_stopped,
      StopContainer, PruneContainers, PruneVolumes, PruneNetworks.
    repeat footprint_step. }
  intros [[err|[compose client]]|]; [apply emits_ret| |apply emits_ret].
  apply emits_bind; [|intros; apply emits_ret].
  unfold steps_8_to_9, verify, prune_images, ConfigServices, runCommandOutput,
    PruneImages.
  destruct (prune f) eqn:Hprune; repeat footprint_step; apply tally_emits.
Qed.

End Programs.
(** *** Provisioning on the reference host *)

Global Instance grows_refl : Reflexive grows.
Proof. by intros h p. Qed.

Global Instance grows_trans : Transitive grows.
Proof. intros h1 h2 h3 H12 H23 p Hp. by apply H23, H12. Qed.

Lemma host_run_grows {A} (c : call A) (h : Host.host) :
  grows h (Host.host_run A c h).2.
Proof.
  intros p Hp.
  destruct c; cbn; try done;
    unfold Host.mkdir_all, Host.chown, Host.chmod, Host.open_create_trunc,
      Host.io_copy, Host.stop, Host.remove;
    repeat match goal with
           | |- context [match Host.files h !! ?q with _ => _ end] =>
               destruct (Host.files h !! q) as [?|] eqn:?
           | |- context [if ?b then _ else _] => destruct b
           end; cbn; try done;
    apply lookup_insert_is_Some'; by right.
Qed.

Lemma keeps_ret {A} (a : A) : keeps_paths (mret a).
Proof. by apply obeys_ret; [apply _|]. Qed.

Lemma keeps_bind {A B} (m : Prog Host.host A) (f : A -> Prog Host.host B) :
  keeps_paths m -> (forall a, keeps_paths (f a)) -> keeps_paths (m ≫= f).
Proof.
  intros Hm Hf. apply (obeys_bind _ _ (fun _ => True)); [done|].
  intros a _. apply Hf.
Qed.

Lemma keeps_perform {A} (c : call A) : keeps_paths (perform Host.system c).
Proof.
  apply obeys_perform; [done|]. intros w. split; [done|]. apply host_run_grows.
Qed.

Lemma keeps_when cond (body : Prog Host.host unit) :
  keeps_paths body -> keeps_paths (when cond body).
Proof. apply obeys_when. apply _. Qed.

Lemma keeps_for_each {A} (l : list A) (body : A -> Prog Host.host error) :
  (forall x, keeps_paths (body x)) -> keeps_paths (for_each l body).
Proof.
  intros Hb. apply obeys_for_each; try apply _; [done|]. intros x _. apply Hb.
Qed.

Lemma keeps_world {A} (m : Prog Host.host A) (s : state Host.host) p :
  keeps_paths m ->
  is_Some (Host.files (world s) !! p) ->
  is_Some (Host.files (world (m s).2) !! p).
Proof. intros Hm. destruct (Hm s) as (_ & Hgrow & _). apply Hgrow. Qed.

Ltac keeps_step :=
  lazymatch goal with
  | |- keeps_paths (mret _) => apply keeps_ret
  | |- keeps_paths (Runtime.print _ _) => apply keeps_perform
  | |- keeps_paths (when _ _) => apply keeps_when
  | |- keeps_paths (perform _ _) => apply keeps_perform
  | |- keeps_paths (for_each _ _) => apply keeps_for_each; intros ?
  | |- keeps_paths (_ ≫= _) => apply keeps_bind; [|intros ?]
  | |- keeps_paths (match ?x with _ => _ end) => destruct x
  end.

Section HostProvisioning.
Context (fp : FilePath).

Lemma createDir_keeps path uid gid verbose dryRun :
  keeps_paths (createDir Host.system path uid gid verbose dryRun).
Proof. unfold createDir, warn_only. repeat keeps_step. Qed.

Lemma createDir_present path uid gid verbose (s : state Host.host) :
  (createDir Host.system path uid gid verbose false s).1 = None ->
  is_Some (Host.files
             (world (createDir Host.system path uid gid verbose false s).2)
           !! path).
Proof.
  unfold createDir. rewrite run_bind, run_perform. cbn [fst snd].
  change (run Host.system (OsMkdirAll path (oct "0775")) (world s))
    with (Host.mkdir_all (world s) path (oct "0775")).
  unfold Host.mkdir_all.
  destruct (Host.files (world s) !! path) as [f|] eqn:Hpath;
    [destruct (Host.is_dir f)|]; cbn [fst snd]; [|done|]; intros _.
  - apply keeps_world; [unfold warn_only; repeat keeps_step|].
    cbn. by rewrite Hpath.
  - apply keeps_world; [unfold warn_only; repeat keeps_step|].
    cbn. apply lookup_insert_is_Some'. by left.
Qed.

(** A loop of [CreateDirectories]: when it returns [nil], every directory
    of its list is there. *)
Lemma create_loop_present folder (text : string -> string) uid gid verbose
    (dirs : list string) : forall s : state Host.host,
  let loop :=
    for_each dirs (fun dir =>
      err ← createDir Host.system (Join fp folder dir) uid gid verbose false;
      mret (wrap (text dir) <$> err)) in
  (loop s).1 = None ->
  forall dir, dir ∈ dirs ->
    is_Some (Host.files (world (loop s).2) !! Join fp folder dir).
Proof.
  induction dirs as [|d dirs IH]; intros s loop; subst loop.
  - intros _ dir Hin. by apply elem_of_nil in Hin.
  - cbn [for_each]. rewrite !run_bind. cbn [mret Prog_ret fst snd].
    pose proof (createDir_present (Join fp folder d) uid gid verbose s) as Hd.
    destruct (createDir Host.system (Join fp folder d) uid gid verbose false s).1
      as [e|]; [done|].
    cbn [fmap option_fmap option_map]. intros Hloop dir Hin.
    apply elem_of_cons in Hin as [->|Hin].
    + apply keeps_world; [|by apply Hd].
      apply keeps_for_each. intros dir'. apply keeps_bind.
      * apply createDir_keeps.
      * intros ?. apply keeps_ret.
    + by apply IH.
Qed.

Lemma missing_of_present {A} (l : list A) (path report : A -> string) :
  forall (missing : list string) (s : state Host.host),
    (forall x, x ∈ l -> is_Some (Host.files (world s) !! path x)) ->
    (missing_of Host.system l path report missing s).1 = missing
    /\ world (missing_of Host.system l path report missing s).2 = world s.
Proof.
  induction l as [|x l IH]; intros missing s Hall; [done|].
  cbn [missing_of]. rewrite run_bind, run_perform. cbn [fst snd].
  change (run Host.system (OsStat (path x)) (world s))
    with (match Host.files (world s) !! path x with
          | Some _ => StatOk
          | None => StatNotExist
          end, world s).
  destruct (Hall x) as [f Hf]; [by left|]. rewrite Hf. cbn [fst snd IsNotExist].
  match goal with
  | |- context [missing_of _ l path report ?m ?st] =>
      destruct (IH m st) as [Hres Hworld]
  end.
  { intros y Hy. cbn. apply Hall. by right. }
  split; [done|]. by rewrite Hworld.
Qed.

(** X25. On the reference host, when [CreateDirectories] has returned [nil],
    [VerifyDirectories] finds no directory missing. *)
Theorem VerifyDirectories_after_CreateDirectories dataFolder mediaFolder uid gid
    verbose (s : state Host.host) :
  (CreateDirectories Host.system fp dataFolder mediaFolder uid gid verbose false
     s).1 = None ->
  (VerifyDirectories Host.system fp dataFolder mediaFolder
     (CreateDirectories Host.system fp dataFolder mediaFolder uid gid verbose
        false s).2).1 = [].
Proof.
  unfold CreateDirectories. rewrite run_bind.
  set (s0 := (when verbose _ s).2). rewrite run_bind.
  pose proof (create_loop_present dataFolder
                (fun dir => "failed to create data directory " +:+ dir)
                uid gid verbose DataDirectories s0) as Hdata.
  cbn zeta in Hdata. 
  destruct (for_each DataDirectories _ s0).1 as [e|] eqn:H1; [done|].
  specialize (Hdata eq_refl).
  set (s1 := (for_each DataDirectories _ s0).2) in *. rewrite run_bind.
  pose proof (create_loop_present mediaFolder
                (fun dir => "failed to create media directory " +:+ dir)
                uid gid verbose MediaDirectories s1) as Hmedia.
  cbn zeta in Hmedia.
  destruct (for_each MediaDirectories _ s1).1 as [e|] eqn:H2; [done|].
  specialize (Hmedia eq_refl).
  set (s2 := (for_each MediaDirectories _ s1).2) in *. intros _.
  rewrite run_bind. cbn [mret Prog_ret fst snd].
  unfold print. rewrite run_perform. cbn [fst snd].
  unfold VerifyDirectories. rewrite run_bind.
  match goal with
  | |- context [missing_of Host.system DataDirectories ?p ?r [] ?st] =>
      destruct (missing_of_present DataDirectories p r [] st) as [Hm Hw]
  end.
  { intros dir Hdir. cbn.
    apply (keeps_world (for_each MediaDirectories _) s1).
    - apply keeps_for_each. intros dir'. apply keeps_bind.
      + apply createDir_keeps.
      + intros ?. apply keeps_ret.
    - by apply Hdata. }
  rewrite Hm.
  match goal with
  | |- context [missing_of Host.system MediaDirectories ?p ?r [] ?st] =>
      destruct (missing_of_present MediaDirectories p r [] st) as [Hm' _]
  end.
  { intros dir Hdir. rewrite Hw. cbn. by apply Hmedia. }
  done.
Qed.

Lemma print_world text (s : state Host.host) :
  world (Runtime.print Host.system text s).2 = world s.
Proof. unfold print. by rewrite run_perform. Qed.

Lemma when_print_world cond text (s : state Host.host) :
  world (when cond (Runtime.print Host.system text) s).2 = world s.
Proof. destruct cond; [apply print_world|done]. Qed.

(** A change of owner leaves the mode of every file as it is. *)
Lemma warn_only_chown_mode verbose path uid gid text p (s : state Host.host) :
  Host.mode
  <$> Host.files
        (world (warn_only Host.system verbose (OsChown path uid gid) text s).2)
      !! p
  = Host.mode <$> Host.files (world s) !! p.
Proof.
  unfold warn_only. rewrite run_bind, run_perform. cbn [fst snd].
  change (run Host.system (OsChown path uid gid) (world s))
    with (Host.chown (world s) path uid gid).
  unfold Host.chown.
  destruct (Host.files (world s) !! path) as [f|] eqn:Hpath;
    [destruct (Host.may_chown (world s))|]; cbn [fst snd];
    rewrite ?when_print_world; cbn; try done.
  destruct (decide (path = p)) as [->|Hne].
  - by rewrite lookup_insert_eq, Hpath.
  - by rewrite lookup_insert_ne.
Qed.

(** X26. On the reference host, a special file that [CopyConfigFiles] has
    handled without error has the mode its entry asks for, whether it was
    there before or not. *)
Theorem special_file_gets_its_mode dataFolder uid gid verbose sf
    (s : state Host.host) :
  (handle_special_file Host.system fp dataFolder uid gid verbose false sf s).1
  = None ->
  Host.mode
  <$> Host.files
        (world (handle_special_file Host.system fp dataFolder uid gid verbose
                  false sf s).2)
      !! Join fp dataFolder (Path sf)
  = Some (SpecialPermission sf).
Proof.
  unfold handle_special_file. rewrite run_bind.
  match goal with
  | |- context [match (?m s).1 with _ => _ end] =>
      set (s1 := (m s).2); destruct (m s).1 as [e|]; [done|]
  end.
  rewrite run_bind, run_perform. cbn [fst snd].
  change (run Host.system
            (OsChmod (Join fp dataFolder (Path sf)) (SpecialPermission sf))
            (world s1))
    with (Host.chmod (world s1) (Join fp dataFolder (Path sf))
            (SpecialPermission sf)).
  unfold Host.chmod.
  destruct (Host.files (world s1) !! Join fp dataFolder (Path sf)) as [f|];
    cbn [fst snd]; [|done].
  intros _. rewrite !run_bind. cbn [mret Prog_ret snd].
  rewrite when_print_world, warn_only_chown_mode. cbn.
  by rewrite lookup_insert_eq.
Qed.

End HostProvisioning.

Lemma runDeploy_error_names_fatal_phase_witness :
  from_fatal_phase
    "compose configuration is invalid: exit status 15: services.sonarr.image must be a string".
Proof.
  apply (runDeploy_error_names_fatal_phase Host.system Host.unix_path
           Sample.cfg false false Sample.deploy_only
           (start broken_compose_host)).
  vm_compute. reflexivity.
Defined.

Lemma invalid_compose_file_stops_deploy_before_teardown_witness :
  exists evs,
    trace (runDeploy Host.system Host.unix_path Sample.cfg false false
             Sample.deploy_only (start broken_compose_host)).2
    = trace (start broken_compose_host) ++ evs
    /\ Forall (only_validates Host.unix_path (normalize Sample.cfg) false) evs.
Proof.
  apply (invalid_compose_file_stops_deploy_before_teardown Host.system
           Host.unix_path Sample.cfg false Sample.deploy_only
           (start broken_compose_host)
           "compose configuration is invalid: exit status 15: services.sonarr.image must be a string").
  - vm_compute. reflexivity.
  - vm_compute. reflexivity.
Defined.

Lemma stop_with_services_only_stops_them_witness :
  exists evs,
    trace (runStop Host.system Host.unix_path Sample.cfg false false
             sample_stop_flags ["sonarr"] (start Sample.shared_host)).2
    = trace (start Sample.shared_host) ++ evs
    /\ Forall (stops_named Host.unix_path Sample.cfg false sample_stop_flags
                 ["sonarr"]) evs.
Proof.
  apply (stop_with_services_only_stops_them Host.system Host.unix_path
           Sample.cfg false sample_stop_flags ["sonarr"]
           (start Sample.shared_host)).
  discriminate.
Defined.

Lemma ListContainers_panics_iff_malformed_summary_witness :
  (ListContainers Host.system Sample.client false (start short_id_host)).1
  = Panicked
  <-> Exists (fun cont =>
        (len (sID cont) < 12)%nat \/ sNames cont = []
        \/ (sState cont = "running"
            /\ (run Host.system (ContainerInspectHealth (sID cont))
                  (world (start short_id_host))).1
               = Ok NoState))
        (Host.containers short_id_host).
Proof.
  apply (ListContainers_panics_iff_malformed_summary Host.system Sample.client
           false (start short_id_host)).
  vm_compute. reflexivity.
Defined.

(** The third way to panic: a running container whose inspect response
    has no [State]. *)
Example ListContainers_panics_on_nil_state :
  (ListContainers stateless_daemon Sample.client false
     (start Sample.shared_host)).1 = Panicked.
Proof. vm_compute. reflexivity. Qed.

Lemma FindContainer_returns_first_match_witness :
  match (FindContainer Host.system Sample.client "tdarr"
           (start Sample.shared_host)).1 with
  | Returned (Ok info) =>
      exists pre post,
        [Sample.sonarr_info; Sample.tdarr_node_info; Sample.old_plex_info]
        = pre ++ info :: post
        /\ Contains (Name info) "tdarr" = true
        /\ Forall (fun i => Contains (Name i) "tdarr" = false) pre
  | Returned (Err e) =>
      e = "container not found for service: " +:+ "tdarr"
      /\ Forall (fun i => Contains (Name i) "tdarr" = false)
           [Sample.sonarr_info; Sample.tdarr_node_info; Sample.old_plex_info]
  | Panicked => False
  end.
Proof.
  apply (FindContainer_returns_first_match Host.system Sample.client "tdarr"
           (start Sample.shared_host)).
  vm_compute. reflexivity.
Defined.

Lemma VerifyDirectories_after_CreateDirectories_witness :
  (VerifyDirectories Host.system Host.unix_path "/srv/data" "/srv/media"
     (CreateDirectories Host.system Host.unix_path "/srv/data" "/srv/media"
        1000 1000 false false (start Sample.shared_host)).2).1 = [].
Proof.
  apply (VerifyDirectories_after_CreateDirectories Host.unix_path "/srv/data"
           "/srv/media" 1000 1000 false (start Sample.shared_host)).
  vm_compute. reflexivity.
Defined.

Lemma special_file_gets_its_mode_witness :
  Host.mode
  <$> Host.files
        (world (handle_special_file Host.system Host.unix_path "/srv/data"
                  1000 1000 false false
                  {| Path := "traefik/letsencrypt/acme.json";
                     SpecialPermission := oct "0600"; Create := true |}
                  (start Sample.shared_host)).2)
      !! Join Host.unix_path "/srv/data" "traefik/letsencrypt/acme.json"
  = Some (oct "0600").
Proof.
  apply (special_file_gets_its_mode Host.unix_path "/srv/data" 1000 1000 false
           {| Path := "traefik/letsencrypt/acme.json";
              SpecialPermission := oct "0600"; Create := true |}
           (start Sample.shared_host)).
  vm_compute. reflexivity.
Defined.

End CommandFacts.
